(** * kopilot: multi-cluster status aggregation

    A shallow embedding of [pkg/k8s] (provider, cache, collectors, types)
    and of the health analyzer of [pkg/agent/tools.go], followed by the
    properties of the aggregation engine. *)

From Stdlib Require Import ZArith Lia Ascii.
From stdpp Require Import gmap strings list fin_maps pretty.

Local Open Scope Z_scope.

(** ** Go runtime notions used by the code *)
Module Go.

(** A Go [(T, error)] pair where exactly one side is meaningful; the
    message is what [err.Error()] returns. *)
Inductive result (A : Type) : Type :=
| Ok (a : A)
| Err (msg : string).
Global Arguments Ok {A} a.
Global Arguments Err {A} msg.

(** Two's complement wrap-around of a [w]-bit signed integer. *)
Definition wrap (w : Z) (x : Z) : Z :=
  (x + 2 ^ (w - 1)) mod 2 ^ w - 2 ^ (w - 1).
Definition int64 (x : Z) : Z := wrap 64 x.
Definition int32 (x : Z) : Z := wrap 32 x.

Definition maxInt64 : Z := 2 ^ 63 - 1.
Definition minInt64 : Z := - 2 ^ 63.

(** [%d] of [fmt.Sprintf]. *)
Definition itoa (x : Z) : string := pretty x.

(** [%q] of [fmt.Sprintf] for a string of bytes below 128: double quotes
    around the text, with the quote and the backslash escaped and control
    characters written as escape sequences.  For bytes above 127 Go
    decodes UTF-8 and consults its Unicode tables, which are not modelled:
    such bytes are kept here, and no statement below depends on the quoted
    text of a name that has them. *)
Definition hexDigit (n : N) : ascii :=
  match n with
  | 10 => "a" | 11 => "b" | 12 => "c" | 13 => "d" | 14 => "e" | 15 => "f"
  | _ => pretty_N_char n
  end%char%N.

Definition quoteChar (c : ascii) : string :=
  let n := N_of_ascii c in
  let bs := String "\"%char EmptyString in
  if N.eqb n 34 then bs +:+ String c EmptyString
  else if N.eqb n 92 then bs +:+ bs
  else if N.eqb n 7 then bs +:+ "a"
  else if N.eqb n 8 then bs +:+ "b"
  else if N.eqb n 12 then bs +:+ "f"
  else if N.eqb n 10 then bs +:+ "n"
  else if N.eqb n 13 then bs +:+ "r"
  else if N.eqb n 9 then bs +:+ "t"
  else if N.eqb n 11 then bs +:+ "v"
  else if N.ltb n 32 || N.eqb n 127 then
    bs +:+ "x" +:+ String (hexDigit (n / 16)) (String (hexDigit (n mod 16)) EmptyString)
  else String c EmptyString.

Fixpoint quoteBody (s : string) : string :=
  match s with
  | EmptyString => EmptyString
  | String c rest => quoteChar c +:+ quoteBody rest
  end.

Definition quote (s : string) : string :=
  let dq := String (ascii_of_N 34) EmptyString in
  dq +:+ quoteBody s +:+ dq.

(** [strings.HasPrefix] and [strings.TrimPrefix]. *)
Definition HasPrefix (s p : string) : bool := String.prefix p s.
Definition TrimPrefix (s p : string) : string :=
  if HasPrefix s p
  then String.substring (String.length p) (String.length s - String.length p) s
  else s.

(** *** package [time]: instants and durations in nanoseconds *)
Definition Nanosecond : Z := 1.
Definition Microsecond : Z := 1000 * Nanosecond.
Definition Millisecond : Z := 1000 * Microsecond.
Definition Second : Z := 1000 * Millisecond.
Definition Minute : Z := 60 * Second.
Definition Hour : Z := 60 * Minute.

(** [t.After(u)], [t.Add(d)] and [t.Sub(u)] ([Sub] saturates). *)
Definition After (t u : Z) : bool := bool_decide (u < t).
Definition Add (t d : Z) : Z := t + d.
Definition Sub (t u : Z) : Z :=
  if bool_decide (maxInt64 < t - u) then maxInt64
  else if bool_decide (t - u < minInt64) then minInt64
  else t - u.

Definition lessThanHalf (x y : Z) : bool :=
  bool_decide ((x mod 2 ^ 64 + x mod 2 ^ 64) mod 2 ^ 64 < y mod 2 ^ 64).

(** [Duration.Round]: to the nearest multiple of [m], halfway values
    away from zero. *)
Definition Round (d m : Z) : Z :=
  if bool_decide (m <= 0) then d
  else
    let r := Z.rem d m in
    if bool_decide (d < 0) then
      let r := int64 (- r) in
      if lessThanHalf r m then int64 (d + r)
      else
        let d1 := int64 (int64 (d - m) + r) in
        if bool_decide (d1 < d) then d1 else minInt64
    else
      if lessThanHalf r m then int64 (d - r)
      else
        let d1 := int64 (int64 (d + m) - r) in
        if bool_decide (d < d1) then d1 else maxInt64.

(** [fmtFrac]: the fraction digits of [v / 10^prec], trailing zeros
    omitted, in front of [buf]; returns the new buffer and [v / 10^prec]. *)
Fixpoint fmtFrac_go (buf : string) (v : Z) (prec : nat) (print : bool)
  : string * Z * bool :=
  match prec with
  | O => (buf, v, print)
  | S prec' =>
      let digit := v mod 10 in
      let print := print || negb (bool_decide (digit = 0)) in
      let buf := if print then itoa digit +:+ buf else buf in
      fmtFrac_go buf (v / 10) prec' print
  end.
Definition fmtFrac (buf : string) (v : Z) (prec : nat) : string * Z :=
  let '(buf, v, print) := fmtFrac_go buf v prec false in
  (if print then "." +:+ buf else buf, v).

Definition fmtInt (buf : string) (v : Z) : string := itoa v +:+ buf.

(** [Duration.String], e.g. ["72h0m0s"], ["1.5s"], ["0s"]. *)
Definition DurationString (d : Z) : string :=
  let u := Z.abs d in
  let neg := bool_decide (d < 0) in
  let body :=
    if bool_decide (u < Second) then
      if bool_decide (u = 0) then None
      else
        let '(unit, prec) :=
          if bool_decide (u < Microsecond) then ("ns", 0%nat)
          else if bool_decide (u < Millisecond) then ("µs", 3%nat)
          else ("ms", 6%nat) in
        let '(buf, u) := fmtFrac unit u prec in
        Some (fmtInt buf u)
    else
      let '(buf, u) := fmtFrac "s" u 9 in
      let buf := fmtInt buf (u mod 60) in
      let u := u / 60 in
      if bool_decide (0 < u) then
        let buf := fmtInt ("m" +:+ buf) (u mod 60) in
        let u := u / 60 in
        if bool_decide (0 < u) then Some (fmtInt ("h" +:+ buf) u)
        else Some buf
      else Some buf in
  match body with
  | None => "0s"
  | Some buf => if neg then "-" +:+ buf else buf
  end.

(** *** package [context]: only the deadline of a context is modelled;
    [None] is a context without deadline such as [context.Background()]. *)
Definition Context := option Z.
Definition Background : Context := None.

(** [context.WithTimeout(parent, d)] evaluated when the clock shows
    [now]: the earlier of the parent's deadline and [now + d]. *)
Definition WithTimeout (parent : Context) (now d : Z) : Context :=
  match parent with
  | Some cur => if bool_decide (cur < Add now d) then Some cur
                else Some (Add now d)
  | None => Some (Add now d)
  end.

End Go.
Export Go (result(..)).


(** ** The API objects of [k8s.io/api/core/v1] read by the collectors *)
Module CoreV1.

Definition NodeReady : string := "Ready".
Definition ConditionTrue : string := "True".

Definition PodPending : string := "Pending".
Definition PodRunning : string := "Running".
Definition PodSucceeded : string := "Succeeded".
Definition PodFailed : string := "Failed".

Record NodeCondition := {
  ncType : string;
  ncStatus : string;
}.

(** [Labels] lists the label keys in the order in which [range] visits
    the label map. *)
Record Node := {
  nodeName : string;
  nodeLabels : list string;
  nodeCreationTimestamp : Z;
  nodeConditions : list NodeCondition;
}.

(** [State.Waiting] and [State.Terminated] are pointers; [Some reason]
    is a non-nil pointer to a state with that [Reason]. *)
Record ContainerStatus := {
  csReady : bool;
  csRestartCount : Z;
  csWaiting : option string;
  csTerminated : option string;
}.

Record Pod := {
  podName : string;
  podNamespace : string;
  podPhase : string;
  podReason : string;
  podContainerStatuses : list ContainerStatus;
}.

End CoreV1.

(** ** package [k8s] *)
Module K8s.
Import CoreV1.

(** *** types *)
Record ClusterInfo := {
  Name : string;
  Server : string;
  Context : string;
  User : string;
  Namespace : string;
  IsCurrent : bool;
  IsReachable : bool;
}.

Record NodeInfo := {
  niName : string;
  niStatus : string;
  niRoles : list string;
  niAge : string;
}.

Record PodInfo := {
  piName : string;
  piNamespace : string;
  piStatus : string;
  piReason : string;
  piRestarts : Z;
}.

Record ClusterStatus := {
  Info : ClusterInfo;
  Version : string;
  NodeCount : Z;
  HealthyNodes : Z;
  Nodes : list NodeInfo;
  NamespaceList : list string;
  APIServerURL : string;
  Error : string;
  PodCount : Z;
  HealthyPods : Z;
  UnhealthyPods : list PodInfo;
}.

Record CachedClusterStatus := {
  Status : ClusterStatus;
  ExpiresAt : Z;
}.

(** The part of [clientcmdapi.Config] that [NewProvider] reads. *)
Record ConfigContext := {
  ctxCluster : string;
  ctxAuthInfo : string;
  ctxNamespace : string;
}.

Record ConfigCluster := {
  clServer : string;
}.

Record Config := {
  Clusters : gmap string ConfigCluster;
  Contexts : gmap string ConfigContext;
  CurrentContext : string;
}.

(** [clusters] maps a context name to the [ClusterInfo] object its
    pointer designates; every pointer of the map is distinct. *)
Record Provider := {
  kubeconfigPath : string;
  rawConfig : Config;
  clusters : gmap string ClusterInfo;
  currentContext : string;
  cache : gmap string CachedClusterStatus;
  cacheTTL : Z;
}.

(** The zero value of [ClusterInfo] and a [ClusterStatus] that embeds
    [ci] with every other field at its zero value. *)
Definition zeroInfo : ClusterInfo :=
  {| Name := ""; Server := ""; Context := ""; User := ""; Namespace := "";
     IsCurrent := false; IsReachable := false |}.

Definition newStatus (ci : ClusterInfo) : ClusterStatus :=
  {| Info := ci; Version := ""; NodeCount := 0; HealthyNodes := 0;
     Nodes := []; NamespaceList := []; APIServerURL := ""; Error := "";
     PodCount := 0; HealthyPods := 0; UnhealthyPods := [] |}.

Definition set_IsReachable (b : bool) (ci : ClusterInfo) : ClusterInfo :=
  {| Name := Name ci; Server := Server ci; Context := Context ci;
     User := User ci; Namespace := Namespace ci; IsCurrent := IsCurrent ci;
     IsReachable := b |}.

Definition set_IsCurrent (b : bool) (ci : ClusterInfo) : ClusterInfo :=
  {| Name := Name ci; Server := Server ci; Context := Context ci;
     User := User ci; Namespace := Namespace ci; IsCurrent := b;
     IsReachable := IsReachable ci |}.

(** Field assignments on a [ClusterStatus]. *)
Definition set_Info (f : ClusterInfo -> ClusterInfo) (st : ClusterStatus) : ClusterStatus :=
  {| Info := f (Info st); Version := Version st; NodeCount := NodeCount st;
     HealthyNodes := HealthyNodes st; Nodes := Nodes st;
     NamespaceList := NamespaceList st; APIServerURL := APIServerURL st;
     Error := Error st; PodCount := PodCount st; HealthyPods := HealthyPods st;
     UnhealthyPods := UnhealthyPods st |}.

Definition set_Version (v : string) (st : ClusterStatus) : ClusterStatus :=
  {| Info := Info st; Version := v; NodeCount := NodeCount st;
     HealthyNodes := HealthyNodes st; Nodes := Nodes st;
     NamespaceList := NamespaceList st; APIServerURL := APIServerURL st;
     Error := Error st; PodCount := PodCount st; HealthyPods := HealthyPods st;
     UnhealthyPods := UnhealthyPods st |}.

Definition set_APIServerURL (u : string) (st : ClusterStatus) : ClusterStatus :=
  {| Info := Info st; Version := Version st; NodeCount := NodeCount st;
     HealthyNodes := HealthyNodes st; Nodes := Nodes st;
     NamespaceList := NamespaceList st; APIServerURL := u;
     Error := Error st; PodCount := PodCount st; HealthyPods := HealthyPods st;
     UnhealthyPods := UnhealthyPods st |}.

Definition set_Error (msg : string) (st : ClusterStatus) : ClusterStatus :=
  {| Info := Info st; Version := Version st; NodeCount := NodeCount st;
     HealthyNodes := HealthyNodes st; Nodes := Nodes st;
     NamespaceList := NamespaceList st; APIServerURL := APIServerURL st;
     Error := msg; PodCount := PodCount st; HealthyPods := HealthyPods st;
     UnhealthyPods := UnhealthyPods st |}.

Definition set_Nodes (nodeInfos : list NodeInfo) (count healthy : Z) (st : ClusterStatus)
  : ClusterStatus :=
  {| Info := Info st; Version := Version st; NodeCount := count;
     HealthyNodes := healthy; Nodes := nodeInfos;
     NamespaceList := NamespaceList st; APIServerURL := APIServerURL st;
     Error := Error st; PodCount := PodCount st; HealthyPods := HealthyPods st;
     UnhealthyPods := UnhealthyPods st |}.

Definition set_NamespaceList (l : list string) (st : ClusterStatus) : ClusterStatus :=
  {| Info := Info st; Version := Version st; NodeCount := NodeCount st;
     HealthyNodes := HealthyNodes st; Nodes := Nodes st;
     NamespaceList := l; APIServerURL := APIServerURL st;
     Error := Error st; PodCount := PodCount st; HealthyPods := HealthyPods st;
     UnhealthyPods := UnhealthyPods st |}.

Definition set_Pods (total healthy : Z) (unhealthy : list PodInfo) (st : ClusterStatus)
  : ClusterStatus :=
  {| Info := Info st; Version := Version st; NodeCount := NodeCount st;
     HealthyNodes := HealthyNodes st; Nodes := Nodes st;
     NamespaceList := NamespaceList st; APIServerURL := APIServerURL st;
     Error := Error st; PodCount := total; HealthyPods := healthy;
     UnhealthyPods := unhealthy |}.

(** *** collectors.go *)

Definition DefaultAPITimeout : Z := 30 * Go.Second.
Definition DiscoveryTimeout : Z := 10 * Go.Second.

(** The loop over [node.Status.Conditions]: the first condition of type
    [Ready] decides, and [break]s. *)
Fixpoint nodeReadiness (conds : list NodeCondition) : string * bool :=
  match conds with
  | [] => ("Unknown", false)
  | c :: rest =>
      if String.eqb (ncType c) NodeReady then
        if String.eqb (ncStatus c) ConditionTrue then ("Ready", true)
        else ("NotReady", false)
      else nodeReadiness rest
  end.

Definition roleLabelPrefix : string := "node-role.kubernetes.io/".

Fixpoint collectRoles (labels : list string) (roles : list string) : list string :=
  match labels with
  | [] => roles
  | label :: rest =>
      if Go.HasPrefix label roleLabelPrefix then
        let role := Go.TrimPrefix label roleLabelPrefix in
        if negb (String.eqb role "") then collectRoles rest (roles ++ [role])
        else collectRoles rest roles
      else collectRoles rest roles
  end.

Definition getNodeRoles (node : Node) : list string :=
  let roles := collectRoles (nodeLabels node) [] in
  if bool_decide (length roles = 0%nat) then roles ++ ["worker"] else roles.

Definition isPodHealthy (pod : Pod) : bool :=
  if negb (String.eqb (podPhase pod) PodRunning)
     && negb (String.eqb (podPhase pod) PodSucceeded)
  then false
  else
    (fix loop (css : list ContainerStatus) : bool :=
       match css with
       | [] => String.eqb (podPhase pod) PodRunning
       | cs :: rest => if negb (csReady cs) then false else loop rest
       end) (podContainerStatuses pod).

Definition extractPodInfo (pod : Pod) : PodInfo :=
  let restarts :=
    foldl (fun acc cs => Go.int32 (acc + csRestartCount cs)) 0
          (podContainerStatuses pod) in
  let reason :=
    if negb (String.eqb (podReason pod) "") then podReason pod
    else
      match podContainerStatuses pod with
      | cs :: _ =>
          match csWaiting cs with
          | Some r => r
          | None =>
              match csTerminated cs with
              | Some r => r
              | None => if negb (csReady cs) then "ContainerNotReady" else ""
              end
          end
      | [] => ""
      end in
  {| piName := podName pod; piNamespace := podNamespace pod;
     piStatus := podPhase pod; piReason := reason; piRestarts := restarts |}.

(** The loop of [collectPodHealth] over [pods.Items]. *)
Fixpoint classifyPods (pods : list Pod) (healthyPods : Z) (unhealthyPods : list PodInfo)
  : Z * list PodInfo :=
  match pods with
  | [] => (healthyPods, unhealthyPods)
  | pod :: rest =>
      if isPodHealthy pod
      then classifyPods rest (Go.int64 (healthyPods + 1)) unhealthyPods
      else classifyPods rest healthyPods (unhealthyPods ++ [extractPodInfo pod])
  end.

(** *** the outside world of one status probe *)

(** [rest.Config], of which only [Host] is read. *)
Record RestConfig := {
  Host : string;
}.

(** A clientset is known by what its four read-only calls answer;
    [ServerVersion] answers the [GitVersion]. *)
Record Clientset := {
  ServerVersion : result string;
  ListNodes : result (list Node);
  ListNamespaces : result (list string);
  ListPods : result (list Pod);
}.

(** What one invocation meets outside the provider: the successive
    readings of [time.Now()], and the outcome of the two steps of client
    construction for the probed context. *)
Record Env := {
  clock : nat -> Z;
  ClientConfig : result RestConfig;
  NewForConfig : result Clientset;
}.

(** The calls that leave the process, and the deadline contexts that are
    created, in program order.  [CallServerVersion] has no context
    argument: [Discovery().ServerVersion()] takes none. *)
Inductive Event :=
| CallClientConfig (path contextName : string)
| CallNewForConfig
| CallWithTimeout (parent : Go.Context) (timeout : Z) (ctx : Go.Context)
| CallServerVersion
| CallListNodes (ctx : Go.Context)
| CallListNamespaces (ctx : Go.Context)
| CallListPods (ctx : Go.Context).

Record PState := {
  ticks : nat;
  calls : list Event;
}.

Definition start : PState := {| ticks := 0; calls := [] |}.

(** A computation that reads the clock and records its calls. *)
Definition M (A : Type) : Type := PState -> A * PState.

Definition ret {A} (a : A) : M A := fun s => (a, s).
Definition bind {A B} (m : M A) (k : A -> M B) : M B :=
  fun s => let '(a, s') := m s in k a s'.
Definition call (ev : Event) : M unit :=
  fun s => (tt, {| ticks := ticks s; calls := calls s ++ [ev] |}).

Notation "x <- m ;; k" := (bind m (fun x => k))
  (at level 100, m at next level, right associativity).
Notation "m ;;; k" := (bind m (fun _ => k))
  (at level 100, right associativity).

Section Probe.
Variable e : Env.

(** [time.Now()]. *)
Definition now : M Z :=
  fun s => (clock e (ticks s), {| ticks := S (ticks s); calls := calls s |}).

Definition WithTimeout (parent : Go.Context) (d : Z) : M Go.Context :=
  t <- now ;;
  let ctx := Go.WithTimeout parent t d in
  call (CallWithTimeout parent d ctx) ;;;
  ret ctx.

Definition getClusterVersion (ctx : Go.Context) (clientset : Clientset)
  : M (result string) :=
  discoveryCtx <- WithTimeout ctx DiscoveryTimeout ;;
  let _ := discoveryCtx in
  call CallServerVersion ;;;
  match ServerVersion clientset with
  | Err msg => ret (Err msg)
  | Ok gitVersion => ret (Ok gitVersion)
  end.

Fixpoint nodeLoop (items : list Node) (nodeInfos : list NodeInfo) (healthyCount : Z)
  : M (list NodeInfo * Z) :=
  match items with
  | [] => ret (nodeInfos, healthyCount)
  | node :: rest =>
      t <- now ;;
      let age := Go.DurationString
                   (Go.Round (Go.Sub t (nodeCreationTimestamp node)) Go.Hour) in
      let '(nodeStatus, ready) := nodeReadiness (nodeConditions node) in
      let healthyCount := if ready then Go.int64 (healthyCount + 1) else healthyCount in
      let nodeInfo := {| niName := nodeName node; niStatus := nodeStatus;
                         niRoles := getNodeRoles node; niAge := age |} in
      nodeLoop rest (nodeInfos ++ [nodeInfo]) healthyCount
  end.

Definition collectNodeInfo (ctx : Go.Context) (clientset : Clientset)
  : M (result (list NodeInfo * Z)) :=
  call (CallListNodes ctx) ;;;
  match ListNodes clientset with
  | Err msg => ret (Err msg)
  | Ok items => r <- nodeLoop items [] 0 ;; ret (Ok r)
  end.

Definition collectNamespaceList (ctx : Go.Context) (clientset : Clientset)
  : M (result (list string)) :=
  call (CallListNamespaces ctx) ;;;
  match ListNamespaces clientset with
  | Err msg => ret (Err msg)
  | Ok names => ret (Ok names)
  end.

Definition collectPodHealth (ctx : Go.Context) (clientset : Clientset)
  : M (result (Z * Z * list PodInfo)) :=
  call (CallListPods ctx) ;;;
  match ListPods clientset with
  | Err msg => ret (Err msg)
  | Ok items =>
      let totalPods := Z.of_nat (length items) in
      let '(healthyPods, unhealthyPods) := classifyPods items 0 [] in
      ret (Ok (totalPods, healthyPods, unhealthyPods))
  end.

(** *** cache.go *)

Definition getCachedStatus (p : Provider) (contextName : string)
  : M (option ClusterStatus) :=
  match cache p !! contextName with
  | None => ret None
  | Some cached =>
      t <- now ;;
      if Go.After t (ExpiresAt cached) then ret None
      else ret (Some (Status cached))
  end.

Definition set_cache (c : gmap string CachedClusterStatus) (p : Provider) : Provider :=
  {| kubeconfigPath := kubeconfigPath p; rawConfig := rawConfig p;
     clusters := clusters p; currentContext := currentContext p;
     cache := c; cacheTTL := cacheTTL p |}.

Definition cacheStatus (p : Provider) (contextName : string) (status : ClusterStatus)
  : M Provider :=
  t <- now ;;
  ret (set_cache (<[contextName :=
                      {| Status := status;
                         ExpiresAt := Go.Add t (cacheTTL p) |}]> (cache p)) p).

(** *** provider.go *)

Definition GetClusterByContext (p : Provider) (contextName : string)
  : result ClusterInfo :=
  match clusters p !! contextName with
  | None => Err ("cluster context " +:+ Go.quote contextName +:+ " not found")
  | Some cluster => Ok cluster
  end.

Definition createClientset (p : Provider) (contextName : string)
  : M (result (Clientset * RestConfig)) :=
  call (CallClientConfig (kubeconfigPath p) contextName) ;;;
  match ClientConfig e with
  | Err msg => ret (Err ("failed to create client config: " +:+ msg))
  | Ok restConfig =>
      call CallNewForConfig ;;;
      match NewForConfig e with
      | Err msg => ret (Err ("failed to create clientset: " +:+ msg))
      | Ok clientset => ret (Ok (clientset, restConfig))
      end
  end.

Definition GetClusterStatus (p : Provider) (ctx : Go.Context) (contextName : string)
  : M (Provider * result ClusterStatus) :=
  cached <- getCachedStatus p contextName ;;
  match cached with
  | Some status => ret (p, Ok status)
  | None =>
  match GetClusterByContext p contextName with
  | Err msg => ret (p, Err msg)
  | Ok clusterInfo =>
  let status := newStatus clusterInfo in
  cs <- createClientset p contextName ;;
  match cs with
  | Err msg => ret (p, Ok (set_Error msg status))
  | Ok (clientset, restConfig) =>
  queryCtx <- WithTimeout ctx (10 * Go.Second) ;;
  v <- getClusterVersion queryCtx clientset ;;
  match v with
  | Err msg =>
      let status := set_Error ("Failed to reach cluster: " +:+ msg) status in
      let status := set_Info (set_IsReachable false) status in
      ret (p, Ok status)
  | Ok version =>
  let status := set_Version version status in
  let status := set_Info (set_IsReachable true) status in
  let status := set_APIServerURL (Host restConfig) status in
  n <- collectNodeInfo queryCtx clientset ;;
  match n with
  | Err msg => ret (p, Ok (set_Error ("Failed to list nodes: " +:+ msg) status))
  | Ok (nodeInfos, healthyNodes) =>
  let status := set_Nodes nodeInfos (Z.of_nat (length nodeInfos)) healthyNodes status in
  ns <- collectNamespaceList queryCtx clientset ;;
  let status := match ns with
                | Ok namespaceList => set_NamespaceList namespaceList status
                | Err _ => status
                end in
  pods <- collectPodHealth queryCtx clientset ;;
  let status := match pods with
                | Ok (totalPods, healthyPods, unhealthyPods) =>
                    set_Pods totalPods healthyPods unhealthyPods status
                | Err _ => status
                end in
  p' <- cacheStatus p contextName status ;;
  ret (p', Ok status)
  end end end end end.

End Probe.

(** [NewProvider]; [LoadFromFile] is what [clientcmd.LoadFromFile] answers
    for a path: the parsed configuration, or the error of a missing or
    unparsable file. *)
Definition NewProvider (LoadFromFile : string -> result Config) (path : string)
  : result Provider :=
  match LoadFromFile path with
  | Err msg => Err ("failed to load kubeconfig: " +:+ msg)
  | Ok raw =>
      let current := CurrentContext raw in
      let clusters :=
        map_fold
          (fun contextName contextInfo (clusters : gmap string ClusterInfo) =>
             let clusterName := ctxCluster contextInfo in
             match Clusters raw !! clusterName with
             | None => clusters
             | Some cluster =>
                 <[contextName :=
                     {| Name := clusterName; Server := clServer cluster;
                        Context := contextName; User := ctxAuthInfo contextInfo;
                        Namespace := ctxNamespace contextInfo;
                        IsCurrent := String.eqb contextName current;
                        IsReachable := false |}]> clusters
             end)
          ∅ (Contexts raw) in
      Ok {| kubeconfigPath := path; rawConfig := raw; clusters := clusters;
            currentContext := current; cache := ∅;
            cacheTTL := 1 * Go.Minute |}
  end.

(** [GetClusters] with one fixed order of visit.  [range] over a Go map
    visits the keys in an order that the language leaves unspecified and
    that differs from one loop to the next; [GetClustersIn] below takes the
    order as an input.  [GetClusters] stands for one such listing and is
    used only where the order does not matter (length, membership,
    distinctness). *)
Definition GetClusters (p : Provider) : list ClusterInfo :=
  map_fold (fun _ cluster acc => acc ++ [cluster]) [] (clusters p).

Definition GetCurrentContext (p : Provider) : string := currentContext p.

Definition SetCurrentContext (p : Provider) (contextName : string)
  : Provider * result unit :=
  match clusters p !! contextName with
  | None => (p, Err ("cluster context " +:+ Go.quote contextName +:+ " not found"))
  | Some _ =>
      ({| kubeconfigPath := kubeconfigPath p; rawConfig := rawConfig p;
          clusters :=
            (fun cluster =>
               set_IsCurrent (String.eqb (Context cluster) contextName) cluster)
              <$> clusters p;
          currentContext := contextName;
          cache := cache p; cacheTTL := cacheTTL p |}, Ok tt)
  end.

Definition ClearCache (p : Provider) : Provider := set_cache ∅ p.

Definition SetCacheTTL (p : Provider) (ttl : Z) : Provider :=
  {| kubeconfigPath := kubeconfigPath p; rawConfig := rawConfig p;
     clusters := clusters p; currentContext := currentContext p;
     cache := cache p; cacheTTL := ttl |}.

(** The status that [GetAllClusterStatuses] builds when a probe returns an
    error value. *)
Definition errorStatus (contextName msg : string) : ClusterStatus :=
  set_Error msg
    (newStatus {| Name := contextName; Server := ""; Context := contextName;
                  User := ""; Namespace := ""; IsCurrent := false;
                  IsReachable := false |}).

(** The body of one goroutine of [GetAllClusterStatuses]: it probes its
    context in its own environment and writes its own slot. *)
Definition goroutine (envs : nat -> Env) (ctx : Go.Context) (idx : nat)
    (contextName : string) (st : Provider * list (option ClusterStatus))
  : Provider * list (option ClusterStatus) :=
  let '(p, statuses) := st in
  let '(p', r, _) := GetClusterStatus (envs idx) p ctx contextName start in
  match r with
  | Err msg => (p', <[idx := Some (errorStatus contextName msg)]> statuses)
  | Ok status => (p', <[idx := Some status]> statuses)
  end.

(** [GetAllClusterStatuses].  One goroutine is started per index of
    [GetClusters p]; [sched] is the order in which they take their turn
    (each touches only the cache entry of its own context), and [wg.Wait]
    returns once every one of them has run.  A slot is [None] while it
    still holds the nil pointer that [make] put there. *)
Definition GetAllClusterStatuses (sched : list nat) (envs : nat -> Env)
    (p : Provider) (ctx : Go.Context)
  : Provider * list (option ClusterStatus) :=
  let clusters := GetClusters p in
  let statuses := replicate (length clusters) None in
  foldl (fun st idx =>
           match clusters !! idx with
           | Some cluster => goroutine envs ctx idx (Context cluster) st
           | None => st
           end)
        (p, statuses) sched.

(** [GetClusters], the order of its [range] loop made explicit: [order]
    lists the keys of [p.clusters] in the order in which this loop visits
    them.  Go leaves that order unspecified, and two loops over the same
    map need not agree. *)
Definition GetClustersIn (order : list string) (p : Provider) : list ClusterInfo :=
  omap (fun contextName => clusters p !! contextName) order.

(** [GetAllClusterStatuses], with the order [order] of the listing that the
    call makes and the order [sched] of the goroutine turns. *)
Definition GetAllClusterStatusesIn (order : list string) (sched : list nat)
    (envs : nat -> Env) (p : Provider) (ctx : Go.Context)
  : Provider * list (option ClusterStatus) :=
  let clusters := GetClustersIn order p in
  let statuses := replicate (length clusters) None in
  foldl (fun st idx =>
           match clusters !! idx with
           | Some cluster => goroutine envs ctx idx (Context cluster) st
           | None => st
           end)
        (p, statuses) sched.

End K8s.

(** ** package [agent]: the health analyzer of tools.go *)
Module Agent.
Import K8s.

Record clusterHealthSummary := {
  reachableCount : Z;
  healthyCount : Z;
  totalUnhealthyPods : Z;
  issues : list string;
}.

(** The two markers in front of an issue line, byte for byte as the
    source file has them. *)
Definition warnMark : string := "‚ö†Ô∏è  ".
Definition crossMark : string := "‚ùå ".

Definition nodeIssue (status : ClusterStatus) : string :=
  warnMark +:+ Context (Info status) +:+ ": " +:+ Go.itoa (HealthyNodes status)
    +:+ "/" +:+ Go.itoa (NodeCount status) +:+ " nodes healthy".

Definition podIssue (status : ClusterStatus) (unhealthyCount : Z) : string :=
  warnMark +:+ Context (Info status) +:+ ": " +:+ Go.itoa unhealthyCount
    +:+ "/" +:+ Go.itoa (PodCount status) +:+ " pods unhealthy".

Definition unreachableIssue (status : ClusterStatus) : string :=
  crossMark +:+ Context (Info status) +:+ ": UNREACHABLE - " +:+ Error status.

Definition hasNodeIssue (status : ClusterStatus) : bool :=
  bool_decide (HealthyNodes status < NodeCount status)
  && bool_decide (0 < NodeCount status).

Definition hasPodIssue (status : ClusterStatus) : bool :=
  bool_decide (HealthyPods status < PodCount status)
  && bool_decide (0 < PodCount status).

Definition processReachableCluster (status : ClusterStatus)
    (summary : clusterHealthSummary) : clusterHealthSummary :=
  let reachable := Go.int64 (reachableCount summary + 1) in
  let hasIssues := false in
  (* Check node health *)
  let '(issues1, hasIssues) :=
    if hasNodeIssue status
    then (issues summary ++ [nodeIssue status], true)
    else (issues summary, hasIssues) in
  (* Check pod health *)
  let '(unhealthy, issues2, hasIssues) :=
    if hasPodIssue status
    then
      let unhealthyCount := Go.int64 (PodCount status - HealthyPods status) in
      (Go.int64 (totalUnhealthyPods summary + unhealthyCount),
       issues1 ++ [podIssue status unhealthyCount], true)
    else (totalUnhealthyPods summary, issues1, hasIssues) in
  let healthy :=
    if negb hasIssues && bool_decide (0 < NodeCount status)
    then Go.int64 (healthyCount summary + 1)
    else healthyCount summary in
  {| reachableCount := reachable; healthyCount := healthy;
     totalUnhealthyPods := unhealthy; issues := issues2 |}.

Definition analyzeClusterHealth (statuses : list ClusterStatus) : clusterHealthSummary :=
  foldl (fun summary status =>
           if IsReachable (Info status)
           then processReachableCluster status summary
           else {| reachableCount := reachableCount summary;
                   healthyCount := healthyCount summary;
                   totalUnhealthyPods := totalUnhealthyPods summary;
                   issues := issues summary ++ [unreachableIssue status] |})
        {| reachableCount := 0; healthyCount := 0; totalUnhealthyPods := 0;
           issues := [] |}
        statuses.

End Agent.

(** ** Sample inputs *)
Module Sample.
Import CoreV1 K8s.

Definition samplePods : list Pod :=
  [ {| podName := "web"; podNamespace := "default"; podPhase := PodRunning;
       podReason := "";
       podContainerStatuses :=
         [ {| csReady := true; csRestartCount := 0; csWaiting := None;
              csTerminated := None |} ] |};
    {| podName := "job"; podNamespace := "batch"; podPhase := PodSucceeded;
       podReason := "";
       podContainerStatuses :=
         [ {| csReady := true; csRestartCount := 0; csWaiting := None;
              csTerminated := Some "Completed" |} ] |};
    {| podName := "db"; podNamespace := "default"; podPhase := PodRunning;
       podReason := "";
       podContainerStatuses :=
         [ {| csReady := false; csRestartCount := 7;
              csWaiting := Some "CrashLoopBackOff"; csTerminated := None |} ] |};
    {| podName := "new"; podNamespace := "default"; podPhase := PodPending;
       podReason := ""; podContainerStatuses := [] |} ].

Definition sampleClientset : Clientset :=
  {| ServerVersion := Ok "v1.28.0";
     ListNodes := Ok [];
     ListNamespaces := Ok ["default"; "batch"];
     ListPods := Ok samplePods |}.

Definition mkStatus (context : string) (reachable : bool) (nodes healthyNodes pods healthyPods : Z)
    (err : string) : ClusterStatus :=
  {| Info := {| Name := context; Server := "https://" +:+ context; Context := context;
                User := "admin"; Namespace := ""; IsCurrent := false;
                IsReachable := reachable |};
     Version := if reachable then "v1.28.0" else ""; NodeCount := nodes;
     HealthyNodes := healthyNodes; Nodes := []; NamespaceList := [];
     APIServerURL := ""; Error := err; PodCount := pods;
     HealthyPods := healthyPods; UnhealthyPods := [] |}.

Definition fleet : list ClusterStatus :=
  [ mkStatus "prod" true 2 2 5 5 "";
    mkStatus "staging" true 2 1 0 0 "";
    mkStatus "dev" true 3 3 5 4 "";
    mkStatus "edge" false 0 0 0 0 "Failed to reach cluster: timeout" ].

Definition sampleConfig : Config :=
  {| Clusters := {[ "c-prod" := {| clServer := "https://prod.example.com" |};
                    "c-dev" := {| clServer := "https://dev.example.com" |} ]};
     Contexts := {[ "prod" := {| ctxCluster := "c-prod"; ctxAuthInfo := "admin";
                                 ctxNamespace := "default" |};
                    "dev" := {| ctxCluster := "c-dev"; ctxAuthInfo := "dev";
                                ctxNamespace := "" |};
                    "orphan" := {| ctxCluster := "c-gone"; ctxAuthInfo := "admin";
                                   ctxNamespace := "" |} ]};
     CurrentContext := "prod" |}.

Definition samplePath : string := "/home/user/.kube/config".

Definition sampleLoad (path : string) : result Config :=
  if String.eqb path samplePath then Ok sampleConfig
  else Err ("open " +:+ path +:+ ": no such file or directory").

Definition prodInfo : ClusterInfo :=
  {| Name := "c-prod"; Server := "https://prod.example.com"; Context := "prod";
     User := "admin"; Namespace := "default"; IsCurrent := true;
     IsReachable := false |}.

Definition devInfo : ClusterInfo :=
  {| Name := "c-dev"; Server := "https://dev.example.com"; Context := "dev";
     User := "dev"; Namespace := ""; IsCurrent := false; IsReachable := false |}.

Definition sampleProvider : Provider :=
  {| kubeconfigPath := samplePath; rawConfig := sampleConfig;
     clusters := {[ "prod" := prodInfo; "dev" := devInfo ]};
     currentContext := "prod"; cache := ∅; cacheTTL := 60 * Go.Second |}.

Definition sampleNodes : list Node :=
  [ {| nodeName := "n1"; nodeLabels := ["node-role.kubernetes.io/control-plane"];
       nodeCreationTimestamp := 0;
       nodeConditions := [ {| ncType := "MemoryPressure"; ncStatus := "False" |};
                           {| ncType := "Ready"; ncStatus := "True" |} ] |};
    {| nodeName := "n2"; nodeLabels := ["kubernetes.io/hostname"];
       nodeCreationTimestamp := 0;
       nodeConditions := [ {| ncType := "Ready"; ncStatus := "False" |} ] |} ].

(** A clock that starts three days after the epoch and advances by one
    millisecond per reading. *)
Definition sampleClock (n : nat) : Z :=
  72 * Go.Hour + Z.of_nat n * Go.Millisecond.

Definition mkEnv (clientset : Clientset) : Env :=
  {| clock := sampleClock;
     ClientConfig := Ok {| Host := "https://prod.example.com" |};
     NewForConfig := Ok clientset |}.

Definition envHealthy : Env :=
  mkEnv {| ServerVersion := Ok "v1.28.0"; ListNodes := Ok sampleNodes;
           ListNamespaces := Ok ["default"; "batch"]; ListPods := Ok samplePods |}.

Definition envNodesFail : Env :=
  mkEnv {| ServerVersion := Ok "v1.28.0"; ListNodes := Err "nodes is forbidden";
           ListNamespaces := Ok ["default"]; ListPods := Ok samplePods |}.

Definition envEnrichmentFails : Env :=
  mkEnv {| ServerVersion := Ok "v1.28.0"; ListNodes := Ok sampleNodes;
           ListNamespaces := Err "namespaces is forbidden";
           ListPods := Err "pods is forbidden" |}.

Definition envVersionFails : Env :=
  mkEnv {| ServerVersion := Err "dial tcp: i/o timeout"; ListNodes := Ok sampleNodes;
           ListNamespaces := Ok ["default"]; ListPods := Ok samplePods |}.

Definition envNoClient : Env :=
  {| clock := sampleClock;
     ClientConfig := Err "context was not found for specified context";
     NewForConfig := Err "unused" |}.

(** The healthy environment one second later. *)
Definition envLater : Env :=
  {| clock := fun n => sampleClock n + Go.Second;
     ClientConfig := ClientConfig envHealthy;
     NewForConfig := NewForConfig envHealthy |}.

(** Per-goroutine environments: the first probe succeeds, every other one
    fails at the version probe. *)
Definition sampleEnvs (idx : nat) : Env :=
  match idx with
  | O => envHealthy
  | _ => envVersionFails
  end.

End Sample.

(** ** Predicates used in the statements *)
Module Spec.
Import CoreV1 K8s.

(** The entry that [NewProvider] builds for a declared context. *)
Definition loadedEntry (raw : Config) (contextName : string) (contextInfo : ConfigContext)
  : option ClusterInfo :=
  match Clusters raw !! ctxCluster contextInfo with
  | None => None
  | Some cluster =>
      Some {| Name := ctxCluster contextInfo; Server := clServer cluster;
              Context := contextName; User := ctxAuthInfo contextInfo;
              Namespace := ctxNamespace contextInfo;
              IsCurrent := String.eqb contextName (CurrentContext raw);
              IsReachable := false |}
  end.

(** Every entry is stored under its own context name. *)
Definition keyed (p : Provider) : Prop :=
  forall k c, clusters p !! k = Some c -> Context c = k.

(** A declared context whose cluster reference resolves. *)
Definition resolves (raw : Config) (kv : string * ConfigContext) : Prop :=
  is_Some (Clusters raw !! ctxCluster kv.2).

(** The provider invariant: every entry is stored under its own context
    name and is not marked reachable; every cached status belongs to the
    context it is cached under, is reachable and carries no error. *)
Definition clustersOk (p : Provider) : Prop :=
  forall k c, clusters p !! k = Some c -> Context c = k /\ IsReachable c = false.

Definition cacheOk (versionOk : string -> Prop) (p : Provider) : Prop :=
  forall k c, cache p !! k = Some c ->
    Context (Info (Status c)) = k
    /\ IsReachable (Info (Status c)) = true
    /\ Error (Status c) = ""
    /\ versionOk (Version (Status c)).

Definition wf (versionOk : string -> Prop) (p : Provider) : Prop :=
  clustersOk p /\ cacheOk versionOk p.

(** An environment whose discovery call, if it answers, answers a version
    accepted by [versionOk]. *)
Definition reports (versionOk : string -> Prop) (e : Env) : Prop :=
  forall clientset v,
    NewForConfig e = Ok clientset -> ServerVersion clientset = Ok v -> versionOk v.

(** The providers that the exported operations can produce, starting from
    [NewProvider], in environments that report versions accepted by
    [versionOk]. *)
Inductive Reach (versionOk : string -> Prop) : Provider -> Prop :=
| Reach_new LoadFromFile path p :
    NewProvider LoadFromFile path = Ok p -> Reach versionOk p
| Reach_status p e ctx contextName s :
    Reach versionOk p -> reports versionOk e ->
    Reach versionOk (GetClusterStatus e p ctx contextName s).1.1
| Reach_current p contextName :
    Reach versionOk p -> Reach versionOk (SetCurrentContext p contextName).1
| Reach_clear p :
    Reach versionOk p -> Reach versionOk (ClearCache p)
| Reach_ttl p ttl :
    Reach versionOk p -> Reach versionOk (SetCacheTTL p ttl).

(** The state after the clock has been read once. *)
Definition ticked (s : PState) : PState :=
  {| ticks := S (ticks s); calls := calls s |}.

(** The cache has no live entry for [contextName] at instant [t]. *)
Definition stale (p : Provider) (contextName : string) (t : Z) : Prop :=
  match cache p !! contextName with
  | None => True
  | Some cached => ExpiresAt cached < t
  end.

(** The status once the version probe has succeeded. *)
Definition reachedStatus (ci : ClusterInfo) (version : string) (restConfig : RestConfig)
  : ClusterStatus :=
  set_APIServerURL (Host restConfig)
    (set_Info (set_IsReachable true) (set_Version version (newStatus ci))).

(** Steps 5 and 6 of the assembly: a failed listing leaves the status as
    it is. *)
Definition withNamespaces (clientset : Clientset) (status : ClusterStatus) : ClusterStatus :=
  match ListNamespaces clientset with
  | Ok namespaceList => set_NamespaceList namespaceList status
  | Err _ => status
  end.

Definition withPods (clientset : Clientset) (status : ClusterStatus) : ClusterStatus :=
  match ListPods clientset with
  | Ok items =>
      set_Pods (Z.of_nat (length items)) (classifyPods items 0 []).1
               (classifyPods items 0 []).2 status
  | Err _ => status
  end.

(** The calls of an assembly up to and including the version probe. *)
Definition gateCalls (p : Provider) (ctx : Go.Context) (contextName : string)
    (queryCtx discoveryCtx : Go.Context) : list Event :=
  [ CallClientConfig (kubeconfigPath p) contextName; CallNewForConfig;
    CallWithTimeout ctx (10 * Go.Second) queryCtx;
    CallWithTimeout queryCtx DiscoveryTimeout discoveryCtx;
    CallServerVersion ].

(** The terminal states of one [GetClusterStatus] invocation started in
    state [s]: what is returned, what the provider becomes, and which
    calls were made. *)
Inductive Outcome (e : Env) (p : Provider) (ctx : Go.Context) (contextName : string)
    (s : PState) : Provider * result ClusterStatus * PState -> Prop :=
| CacheHit cached :
    cache p !! contextName = Some cached ->
    clock e (ticks s) <= ExpiresAt cached ->
    Outcome e p ctx contextName s (p, Ok (Status cached), ticked s)
| NotFound s' :
    stale p contextName (clock e (ticks s)) ->
    clusters p !! contextName = None ->
    calls s' = calls s ->
    Outcome e p ctx contextName s
      (p, Err ("cluster context " +:+ Go.quote contextName +:+ " not found"), s')
| ConfigFailed ci msg s' :
    stale p contextName (clock e (ticks s)) ->
    clusters p !! contextName = Some ci ->
    ClientConfig e = Err msg ->
    calls s' = calls s ++ [CallClientConfig (kubeconfigPath p) contextName] ->
    Outcome e p ctx contextName s
      (p, Ok (set_Error ("failed to create client config: " +:+ msg) (newStatus ci)), s')
| ClientsetFailed ci restConfig msg s' :
    stale p contextName (clock e (ticks s)) ->
    clusters p !! contextName = Some ci ->
    ClientConfig e = Ok restConfig ->
    NewForConfig e = Err msg ->
    calls s' = calls s ++ [CallClientConfig (kubeconfigPath p) contextName;
                           CallNewForConfig] ->
    Outcome e p ctx contextName s
      (p, Ok (set_Error ("failed to create clientset: " +:+ msg) (newStatus ci)), s')
| VersionFailed ci restConfig clientset msg n1 s' :
    stale p contextName (clock e (ticks s)) ->
    clusters p !! contextName = Some ci ->
    ClientConfig e = Ok restConfig ->
    NewForConfig e = Ok clientset ->
    ServerVersion clientset = Err msg ->
    (ticks s <= n1)%nat ->
    let queryCtx := Go.WithTimeout ctx (clock e n1) (10 * Go.Second) in
    let discoveryCtx := Go.WithTimeout queryCtx (clock e (S n1)) DiscoveryTimeout in
    calls s' = calls s ++ gateCalls p ctx contextName queryCtx discoveryCtx ->
    Outcome e p ctx contextName s
      (p, Ok (set_Info (set_IsReachable false)
                (set_Error ("Failed to reach cluster: " +:+ msg) (newStatus ci))), s')
| NodesFailed ci restConfig clientset version msg n1 s' :
    stale p contextName (clock e (ticks s)) ->
    clusters p !! contextName = Some ci ->
    ClientConfig e = Ok restConfig ->
    NewForConfig e = Ok clientset ->
    ServerVersion clientset = Ok version ->
    ListNodes clientset = Err msg ->
    (ticks s <= n1)%nat ->
    let queryCtx := Go.WithTimeout ctx (clock e n1) (10 * Go.Second) in
    let discoveryCtx := Go.WithTimeout queryCtx (clock e (S n1)) DiscoveryTimeout in
    calls s' = calls s ++ gateCalls p ctx contextName queryCtx discoveryCtx
                       ++ [CallListNodes queryCtx] ->
    Outcome e p ctx contextName s
      (p, Ok (set_Error ("Failed to list nodes: " +:+ msg)
                (reachedStatus ci version restConfig)), s')
| Populated ci restConfig clientset version items nodeInfos healthyNodes n1 n3 s' :
    stale p contextName (clock e (ticks s)) ->
    clusters p !! contextName = Some ci ->
    ClientConfig e = Ok restConfig ->
    NewForConfig e = Ok clientset ->
    ServerVersion clientset = Ok version ->
    ListNodes clientset = Ok items ->
    (ticks s <= n1)%nat ->
    let queryCtx := Go.WithTimeout ctx (clock e n1) (10 * Go.Second) in
    let discoveryCtx := Go.WithTimeout queryCtx (clock e (S n1)) DiscoveryTimeout in
    let status :=
      withPods clientset
        (withNamespaces clientset
           (set_Nodes nodeInfos (Z.of_nat (length nodeInfos)) healthyNodes
              (reachedStatus ci version restConfig))) in
    (n1 < n3)%nat ->
    calls s' = calls s ++ gateCalls p ctx contextName queryCtx discoveryCtx
                       ++ [CallListNodes queryCtx; CallListNamespaces queryCtx;
                           CallListPods queryCtx] ->
    Outcome e p ctx contextName s
      (set_cache (<[contextName := {| Status := status;
                                      ExpiresAt := Go.Add (clock e n3) (cacheTTL p) |}]> (cache p)) p,
       Ok status, s').

(** The probe of an environment ends in one of the three failure states:
    client construction, version probe or node listing fails. *)
Definition probeFails (e : Env) : Prop :=
  match ClientConfig e, NewForConfig e with
  | Ok _, Ok clientset =>
      match ServerVersion clientset, ListNodes clientset with
      | Ok _, Ok _ => False
      | _, _ => True
      end
  | _, _ => True
  end.

(** Any version string is acceptable. *)
Definition anyVersion (v : string) : Prop := True.

(** Caching idempotence as the specification words it: a second call for
    the same context within the TTL of the first returns the same value
    and makes no call of its own. *)
Definition cachingIdempotent (p : Provider) (e1 e2 : Env) (ctx : Go.Context)
    (contextName : string) : Prop :=
  let run1 := GetClusterStatus e1 p ctx contextName start in
  let run2 := GetClusterStatus e2 (run1.1.1) ctx contextName start in
  clock e1 0 <= clock e2 0 <= clock e1 0 + cacheTTL p ->
  run2.1.2 = run1.1.2 /\ calls (run2.2) = [].

(** The mutual-exclusivity invariant as the specification words it. *)
Definition exclusive (st : ClusterStatus) : Prop :=
  (IsReachable (Info st) = false <-> Error st <> "" /\ Version st = "")
  /\ (IsReachable (Info st) = true -> Error st = "" /\ Version st <> "").

(** Node and pod fields at their zero values. *)
Definition noInventory (st : ClusterStatus) : Prop :=
  NodeCount st = 0 /\ HealthyNodes st = 0 /\ Nodes st = []
  /\ NamespaceList st = []
  /\ PodCount st = 0 /\ HealthyPods st = 0 /\ UnhealthyPods st = [].

Definition nonEmpty (v : string) : Prop := v <> "".

(** What a goroutine of [GetAllClusterStatuses] writes into its slot for
    the result of its probe. *)
Definition slotOf (contextName : string) (r : result ClusterStatus) : ClusterStatus :=
  match r with
  | Ok status => status
  | Err msg => errorStatus contextName msg
  end.

(** Slot [i] of [statuses] holds what the goroutine of entry [i] wrote: the
    outcome of its probe in some provider state [q] that has the entries of
    [p] (and is well-formed if [p] is). *)
Definition filled (envs : nat -> Env) (ctx : Go.Context) (p : Provider)
    (statuses : list (option ClusterStatus)) (i : nat) : Prop :=
  exists c q,
    GetClusters p !! i = Some c
    /\ clusters q = clusters p
    /\ (wf anyVersion p -> wf anyVersion q)
    /\ statuses !! i
       = Some (Some (slotOf (Context c)
                       (GetClusterStatus (envs i) q ctx (Context c) start).1.2)).

(** The deadline that bounds a call to the cluster: that of the context it
    is given, none for a call that takes no context. *)
Definition deadlineOf (ev : Event) : Go.Context :=
  match ev with
  | CallListNodes c | CallListNamespaces c | CallListPods c => c
  | _ => None
  end.

(** The deadlines of a probe as the specification words them, read off the
    calls [tr] of a probe started at instant [t0] under a context without
    deadline: the listings run under the overall deadline of
    [DefaultAPITimeout] after the start, a discovery context with a
    strictly earlier deadline is derived, and the discovery call is bounded
    by that deadline. *)
Definition deadlinesAsSpecified (t0 : Z) (tr : list Event) : Prop :=
  exists overall sub : Z,
    overall = Go.Add t0 DefaultAPITimeout
    /\ (forall c, CallListNodes c ∈ tr -> c = Some overall)
    /\ sub < overall
    /\ (exists parent, CallWithTimeout parent DiscoveryTimeout (Some sub) ∈ tr)
    /\ (CallServerVersion ∈ tr -> deadlineOf CallServerVersion = Some sub).

End Spec.

(** ** Further predicates: inventory of a status, bounded listings *)
Module Inventory.
Import CoreV1 K8s.

(** The node a listing item becomes, but for its age. *)
Definition readyNode (node : Node) : bool := (nodeReadiness (nodeConditions node)).2.

(** A role label: the role prefix followed by a non-empty role. *)
Definition roleOf (label : string) : option string :=
  if Go.HasPrefix label roleLabelPrefix
  then if String.eqb (Go.TrimPrefix label roleLabelPrefix) "" then None
       else Some (Go.TrimPrefix label roleLabelPrefix)
  else None.

(** The listings of a clientset, and of the clientset of an environment,
    are no longer than a Go slice can be. *)
Definition boundedClientset (clientset : Clientset) : Prop :=
  (forall items, ListNodes clientset = Ok items ->
     Z.of_nat (length items) <= Go.maxInt64)
  /\ (forall pods, ListPods clientset = Ok pods ->
        Z.of_nat (length pods) <= Go.maxInt64).

Definition boundedEnv (e : Env) : Prop :=
  forall clientset, NewForConfig e = Ok clientset -> boundedClientset clientset.

(** The counters of a status agree with its lists. *)
Definition countsOk (st : ClusterStatus) : Prop :=
  NodeCount st = Z.of_nat (length (Nodes st))
  /\ HealthyNodes st
     = Z.of_nat (length (List.filter (fun ni => String.eqb (niStatus ni) "Ready") (Nodes st)))
  /\ 0 <= HealthyNodes st <= NodeCount st
  /\ 0 <= HealthyPods st
  /\ PodCount st = HealthyPods st + Z.of_nat (length (UnhealthyPods st)).

(** Every cached status was cached for a configured context. *)
Definition cacheKnown (p : Provider) : Prop :=
  forall k c, cache p !! k = Some c -> is_Some (clusters p !! k).

(** The [IsCurrent] flags agree with the current context. *)
Definition currentOk (p : Provider) : Prop :=
  forall k c, clusters p !! k = Some c ->
    IsCurrent c = String.eqb (Context c) (currentContext p).

(** Two providers differ at most in their caches. *)
Definition sameButCache (p q : Provider) : Prop :=
  kubeconfigPath q = kubeconfigPath p /\ rawConfig q = rawConfig p
  /\ clusters q = clusters p /\ currentContext q = currentContext p
  /\ cacheTTL q = cacheTTL p.

(** The providers that the exported operations produce from [NewProvider]
    in environments that satisfy [G]. *)
Inductive ReachIn (G : Env -> Prop) : Provider -> Prop :=
| ReachIn_new LoadFromFile path p :
    NewProvider LoadFromFile path = Ok p -> ReachIn G p
| ReachIn_status p e ctx contextName s :
    ReachIn G p -> G e ->
    ReachIn G (GetClusterStatus e p ctx contextName s).1.1
| ReachIn_current p contextName :
    ReachIn G p -> ReachIn G (SetCurrentContext p contextName).1
| ReachIn_clear p :
    ReachIn G p -> ReachIn G (ClearCache p)
| ReachIn_ttl p ttl :
    ReachIn G p -> ReachIn G (SetCacheTTL p ttl).

(** [q] looks like [p] from the probe of [contextName]: same cache entry
    and same configured entry for that context, same path and TTL. *)
Definition agreeAt (contextName : string) (p q : Provider) : Prop :=
  cache q !! contextName = cache p !! contextName
  /\ clusters q !! contextName = clusters p !! contextName
  /\ kubeconfigPath q = kubeconfigPath p
  /\ cacheTTL q = cacheTTL p.

(** [q] with the cache entry of [contextName] taken from [p']. *)
Definition rebase (contextName : string) (p' q : Provider) : Provider :=
  set_cache (partial_alter (fun _ => cache p' !! contextName) contextName (cache q)) q.

(** [order] is an order in which a [range] over [p.clusters] can visit the
    keys: every key once. *)
Definition visits (order : list string) (p : Provider) : Prop :=
  order ≡ₚ (map_to_list (clusters p)).*1.

(** One turn of the goroutine of index [idx] over the entries [entries]. *)
Definition turn (entries : list ClusterInfo) (envs : nat -> Env) (ctx : Go.Context)
    (st : Provider * list (option ClusterStatus)) (idx : nat)
  : Provider * list (option ClusterStatus) :=
  match entries !! idx with
  | Some cluster => goroutine envs ctx idx (Context cluster) st
  | None => st
  end.

End Inventory.

(** ** package [strings] *)
Module Strings.

(** [strings.Join]. *)
Fixpoint Join (elems : list string) (sep : string) : string :=
  match elems with
  | [] => ""
  | [x] => x
  | x :: rest => x +:+ sep +:+ Join rest sep
  end.

(** [strings.Contains]: [substr] occurs in [s]. *)
Fixpoint Contains (s substr : string) : bool :=
  if String.prefix substr s then true
  else match s with
       | EmptyString => false
       | String _ rest => Contains rest substr
       end.

(** [strings.Repeat]. *)
Fixpoint Repeat (s : string) (count : nat) : string :=
  match count with
  | O => ""
  | S n => s +:+ Repeat s n
  end.

(** The newline character. *)
Definition nl : string := String (ascii_of_N 10) EmptyString.

End Strings.

(** ** package [agent]: the tools of tools.go that report on statuses *)
Module Tools.
Import K8s Agent Strings.

Definition OutputText : string := "text".
Definition OutputJSON : string := "json".

Definition isJSONOutput (format : string) : bool := String.eqb format OutputJSON.

(** The three status icons, byte for byte as the source file has them. *)
Definition okIcon : string := "‚úÖ".
Definition warnIcon : string := "‚ö†Ô∏è".
Definition crossIcon : string := "‚ùå".

Record ComparisonData := {
  cdContext : string;
  cdName : string;
  cdStatus : string;
  cdVersion : string;
  cdNodes : string;
  cdHealthyNodes : string;
  cdAPIServer : string;
  cdError : string;
}.

(** [buildComparisonData], after the call of [GetClusterStatus] whose
    result is [r]. *)
Definition comparisonOf (contextName : string) (r : result ClusterStatus)
  : ComparisonData :=
  match r with
  | Err msg =>
      {| cdContext := contextName; cdName := ""; cdStatus := "ERROR";
         cdVersion := ""; cdNodes := ""; cdHealthyNodes := ""; cdAPIServer := "";
         cdError := msg |}
  | Ok status =>
      if IsReachable (Info status) then
        {| cdContext := contextName; cdName := Name (Info status);
           cdStatus := if bool_decide (HealthyNodes status < NodeCount status)
                       then warnIcon +:+ "  Degraded"
                       else okIcon +:+ " Reachable";
           cdVersion := Version status;
           cdNodes := Go.itoa (NodeCount status);
           cdHealthyNodes := Go.itoa (HealthyNodes status);
           cdAPIServer := APIServerURL status; cdError := "" |}
      else
        {| cdContext := contextName; cdName := Name (Info status);
           cdStatus := crossIcon +:+ " Unreachable";
           cdVersion := ""; cdNodes := ""; cdHealthyNodes := "";
           cdAPIServer := APIServerURL status; cdError := Error status |}
  end.

Definition buildComparisonData (e : Env) (p : Provider) (ctx : Go.Context)
    (contextName : string) : M (Provider * ComparisonData) :=
  fun s =>
    let '(p', r, s') := GetClusterStatus e p ctx contextName s in
    ((p', comparisonOf contextName r), s').

(** [writeComparisonEntry]; the builder is the text written so far. *)
Definition writeComparisonEntry (result : string) (index : Z) (comp : ComparisonData)
  : string :=
  let result := result +:+ "[" +:+ Go.itoa (Go.int64 (index + 1)) +:+ "] "
                  +:+ cdContext comp +:+ nl in
  let result := result +:+ "    Status: " +:+ cdStatus comp +:+ nl in
  let result := if negb (String.eqb (cdName comp) "")
                then result +:+ "    Cluster: " +:+ cdName comp +:+ nl else result in
  let result := if negb (String.eqb (cdVersion comp) "")
                then result +:+ "    Version: " +:+ cdVersion comp +:+ nl else result in
  let result := if negb (String.eqb (cdNodes comp) "")
                then result +:+ "    Nodes: " +:+ cdNodes comp +:+ " (Healthy: "
                       +:+ cdHealthyNodes comp +:+ ")" +:+ nl
                else result in
  let result := if negb (String.eqb (cdAPIServer comp) "")
                then result +:+ "    API Server: " +:+ cdAPIServer comp +:+ nl
                else result in
  let result := if negb (String.eqb (cdError comp) "")
                then result +:+ "    Error: " +:+ cdError comp +:+ nl else result in
  result +:+ nl.

Definition countReachableClusters (comparisons : list ComparisonData) : Z :=
  foldl (fun count comp =>
           if Contains (cdStatus comp) "Reachable" || Contains (cdStatus comp) "Degraded"
           then Go.int64 (count + 1) else count)
        0 comparisons.

(** What the handler of [compare_clusters] returns: the JSON result or the
    rendered text. *)
Inductive CompareOutput :=
| CompareJSON (total reachable : Z) (clusters : list ComparisonData)
| CompareText (text : string).

(** The loop of the handler over [params.Contexts]: one probe after the
    other, the call at position [i] in environment [envs i]. *)
Fixpoint compareLoop (envs : nat -> Env) (ctx : Go.Context) (i : nat)
    (contexts : list string) (st : Provider * list ComparisonData * list Event)
  : Provider * list ComparisonData * list Event :=
  match contexts with
  | [] => st
  | contextName :: rest =>
      let '(p, comparisons, log) := st in
      let '((p', data), s') := buildComparisonData (envs i) p ctx contextName start in
      compareLoop envs ctx (S i) rest (p', comparisons ++ [data], log ++ calls s')
  end.

Fixpoint writeComparisonEntries (result : string) (i : Z) (comparisons : list ComparisonData)
  : string :=
  match comparisons with
  | [] => result
  | comp :: rest =>
      writeComparisonEntries (writeComparisonEntry result i comp) (Go.int64 (i + 1)) rest
  end.

Definition compareClusters (envs : nat -> Env) (p : Provider) (outputFormat : string)
    (contexts : list string) : Provider * result CompareOutput * list Event :=
  if bool_decide (length contexts = 0%nat)
  then (p, Err "at least one context must be provided", [])
  else
    let ctx := Go.Background in
    let '(p', comparisons, log) := compareLoop envs ctx 0 contexts (p, [], []) in
    if isJSONOutput outputFormat then
      let reachable := countReachableClusters comparisons in
      (p', Ok (CompareJSON (Z.of_nat (length comparisons)) reachable comparisons), log)
    else
      let result := "Cluster Comparison (" +:+ Go.itoa (Z.of_nat (length contexts))
                      +:+ " clusters)" +:+ nl in
      let result := result +:+ Repeat "=" 80 +:+ nl +:+ nl in
      let result := writeComparisonEntries result 0 comparisons in
      let reachable := countReachableClusters comparisons in
      let result := result +:+ "Summary: " +:+ Go.itoa reachable +:+ "/"
                      +:+ Go.itoa (Z.of_nat (length comparisons))
                      +:+ " clusters reachable" +:+ nl in
      (p', Ok (CompareText result), log).

(** [writeHealthSummary] and [writeIssues]. *)
Definition writeHealthSummary (result : string) (summary : clusterHealthSummary)
    (totalClusters : Z) : string :=
  let result := result +:+ "Summary: " +:+ Go.itoa (reachableCount summary) +:+ "/"
                  +:+ Go.itoa totalClusters +:+ " clusters reachable, "
                  +:+ Go.itoa (healthyCount summary) +:+ " fully healthy" in
  let result := if bool_decide (0 < totalUnhealthyPods summary)
                then result +:+ ", " +:+ Go.itoa (totalUnhealthyPods summary)
                       +:+ " unhealthy pods across all clusters"
                else result in
  result +:+ nl +:+ nl.

Definition writeIssues (result : string) (issues : list string) : string :=
  if bool_decide (0 < length issues)%nat then
    let result := result +:+ warnIcon +:+ "  Issues Found:" +:+ nl in
    let result := foldl (fun result issue => result +:+ "  " +:+ issue +:+ nl)
                        result issues in
    result +:+ nl
  else result +:+ okIcon +:+ " All clusters are healthy!" +:+ nl +:+ nl.

Definition getClusterStatusIcon (status : ClusterStatus) : string :=
  if negb (IsReachable (Info status)) then crossIcon
  else if bool_decide (HealthyNodes status < NodeCount status)
          || bool_decide (HealthyPods status < PodCount status)
       then warnIcon
       else okIcon.

End Tools.

(** ** Predicates on the fleet summary *)
Module Fleet.
Import K8s Agent Tools.

Definition reachable (st : ClusterStatus) : bool := IsReachable (Info st).

(** The issue lines one status contributes. *)
Definition issuesOf (st : ClusterStatus) : list string :=
  if reachable st then
    (if hasNodeIssue st then [nodeIssue st] else [])
    ++ (if hasPodIssue st
        then [podIssue st (Go.int64 (PodCount st - HealthyPods st))] else [])
  else [unreachableIssue st].

(** The status is counted as fully healthy. *)
Definition fullyHealthy (st : ClusterStatus) : bool :=
  reachable st && negb (hasNodeIssue st) && negb (hasPodIssue st)
  && bool_decide (0 < NodeCount st).

(** The unhealthy pods one status adds to the fleet-wide count. *)
Definition unhealthyOf (st : ClusterStatus) : Z :=
  if reachable st && hasPodIssue st then PodCount st - HealthyPods st else 0.

Definition sumZ (l : list Z) : Z := foldr Z.add 0 l.

(** The result of a probe is a status marked reachable. *)
Definition reachableResult (r : result ClusterStatus) : bool :=
  match r with
  | Ok st => reachable st
  | Err _ => false
  end.

(** The results of probing [contexts] one after the other, the call at
    position [i] in environment [envs i], from provider [p] on. *)
Fixpoint probeResults (envs : nat -> Env) (ctx : Go.Context) (i : nat)
    (contexts : list string) (p : Provider) : list (result ClusterStatus) :=
  match contexts with
  | [] => []
  | contextName :: rest =>
      (GetClusterStatus (envs i) p ctx contextName start).1.2
      :: probeResults envs ctx (S i) rest
           (GetClusterStatus (envs i) p ctx contextName start).1.1
  end.

(** A status about which the analyzer has nothing to report. *)
Definition quiet (st : ClusterStatus) : Prop :=
  reachable st = true /\ hasNodeIssue st = false /\ hasPodIssue st = false.

(** The statuses that [GetAllClusterStatuses] returns for the sample
    provider. *)
Definition probedFleet : list ClusterStatus :=
  omap id (GetAllClusterStatuses [0%nat; 1%nat] Sample.sampleEnvs Sample.sampleProvider
             Go.Background).2.

(** The comparison entry is one that [countReachableClusters] counts. *)
Definition counted (comp : ComparisonData) : bool :=
  Strings.Contains (cdStatus comp) "Reachable" || Strings.Contains (cdStatus comp) "Degraded".

(** The pods of a reachable status that it lists as unhealthy. *)
Definition listedUnhealthy (st : ClusterStatus) : Z :=
  if reachable st then Z.of_nat (length (UnhealthyPods st)) else 0.

End Fleet.

(** ** package [agent]: execution modes and the [kubectl_exec] tool *)
Module Exec.
Import K8s Strings Tools.

(** [ExecutionMode] is an [int]; the two named modes are 0 and 1. *)
Definition ModeReadOnly : Z := 0.
Definition ModeInteractive : Z := 1.

(** [agentState]: the two fields that the tools and the mode switch read
    and write. *)
Record agentState := {
  mode : Z;
  outputFormat : string;
}.

Definition ExecutionMode_String (m : Z) : string :=
  if m =? ModeReadOnly then "read-only"
  else if m =? ModeInteractive then "interactive"
  else "unknown".

Definition esc : string := String (ascii_of_N 27) EmptyString.
Definition colorReset : string := esc +:+ "[0m".
Definition colorRed : string := esc +:+ "[31m".
Definition colorGreen : string := esc +:+ "[32m".
Definition colorYellow : string := esc +:+ "[33m".
Definition colorCyan : string := esc +:+ "[36m".
Definition colorBold : string := esc +:+ "[1m".

Definition readOnlyCommands : list string :=
  [ "get"; "describe"; "logs"; "top"; "explain";
    "api-resources"; "api-versions"; "cluster-info";
    "version"; "config"; "diff"; "auth" ].

Definition isReadOnlyCommand (args : list string) : bool :=
  match args with
  | [] => false
  | cmd :: _ => existsb (fun readOnlyCmd => String.eqb cmd readOnlyCmd) readOnlyCommands
  end.

Definition getAvailableContexts (p : Provider) : string :=
  let contexts := map Context (GetClusters p) in
  if bool_decide (length contexts = 0%nat) then "none" else Join contexts ", ".

Record KubectlExecParams := {
  kxContext : string;
  kxArgs : list string;
}.

Record KubectlExecResult := {
  rCluster : string;
  rContext : string;
  rCommand : string;
  rOutput : string;
  rExitCode : option Z;
  rError : string;
}.

(** The error of a command that was run: its text, and its exit code when
    it is an [*exec.ExitError]. *)
Record ExecError := {
  errText : string;
  errExitCode : option Z;
}.

(** What the handler meets outside the program: the line that
    [ReadString] reads from standard input (or its error), and what
    [kubectl] answers to an argument list. *)
Record World := {
  ReadString : result string;
  CombinedOutput : list string -> string * option ExecError;
}.

(** What the handler does to the outside, in order. *)
Inductive Effect :=
| Print (text : string)
| ReadStdin
| RunKubectl (cmdArgs : list string).

(** The value a tool handler returns as [any]. *)
Inductive ExecValue :=
| ExecJSON (r : KubectlExecResult)
| ExecText (text : string).

Definition validateKubectlExecParams (params : KubectlExecParams) : result unit :=
  if String.eqb (kxContext params) "" then Err "context is required"
  else if bool_decide (length (kxArgs params) = 0%nat)
       then Err "kubectl arguments are required"
       else Ok tt.

Definition getClusterForContext (p : Provider) (contextName : string)
  : result ClusterInfo :=
  match GetClusterByContext p contextName with
  | Err _ =>
      Err ("cluster not found - context '" +:+ contextName
             +:+ "' does not exist in your kubeconfig. Available contexts: "
             +:+ getAvailableContexts p)
  | Ok cluster => Ok cluster
  end.

Definition buildKubectlCommand (contextName : string) (args : list string)
  : string * list string :=
  ("kubectl --context " +:+ contextName +:+ " " +:+ Join args " ",
   ["--context"; contextName] ++ args).

Definition printExecutionHeader (state : agentState) (isReadOnly : bool)
    (fullCommand : string) : list Effect :=
  if isJSONOutput (outputFormat state) then []
  else if isReadOnly
       then [Print (nl +:+ colorCyan +:+ "üîç Executing:" +:+ colorReset +:+ " "
                      +:+ colorBold +:+ fullCommand +:+ colorReset +:+ nl +:+ nl)]
       else [Print (nl +:+ colorYellow +:+ "‚ö° Executing:" +:+ colorReset +:+ " "
                      +:+ colorBold +:+ fullCommand +:+ colorReset +:+ nl +:+ nl)].

Definition execFailure (clusterName contextName : string) (e : ExecError) : string :=
  "kubectl command failed on cluster " +:+ clusterName +:+ " (" +:+ contextName
    +:+ "): " +:+ errText e.

Definition buildKubectlJSONResult (clusterName contextName fullCommand output : string)
    (execErr : option ExecError) : option ExecValue * option string :=
  match execErr with
  | Some e =>
      (Some (ExecJSON {| rCluster := clusterName; rContext := contextName;
                         rCommand := fullCommand; rOutput := output;
                         rExitCode := errExitCode e; rError := errText e |}),
       Some (execFailure clusterName contextName e))
  | None =>
      (Some (ExecJSON {| rCluster := clusterName; rContext := contextName;
                         rCommand := fullCommand; rOutput := output;
                         rExitCode := None; rError := "" |}),
       None)
  end.

Definition buildKubectlTextResult (clusterName contextName fullCommand output : string)
    (execErr : option ExecError) : option ExecValue * option string :=
  let result := "Cluster: " +:+ clusterName +:+ " (" +:+ contextName +:+ ")" +:+ nl in
  let result := result +:+ "Command: " +:+ fullCommand +:+ nl +:+ nl in
  let result :=
    match execErr with
    | Some e =>
        let result := result +:+ "‚ùå Error executing command on cluster " +:+ clusterName +:+ ":" +:+ nl
                        +:+ errText e +:+ nl +:+ nl in
        match errExitCode e with
        | Some code => result +:+ "Exit code: " +:+ Go.itoa code +:+ nl
        | None => result
        end
    | None => result
    end in
  let result := result +:+ "Output:" +:+ nl in
  let result := result +:+ output in
  match execErr with
  | Some e => (Some (ExecText result), Some (execFailure clusterName contextName e))
  | None => (Some (ExecText result), None)
  end.

Section Normalise.

(** [strings.ToLower] and [strings.TrimSpace], which work on Unicode code
    points; the handlers are modelled for any two such functions. *)
Variable ToLower : string -> string.
Variable TrimSpace : string -> string.

Definition confirmWriteOperation (w : World) (state : agentState) (fullCommand : string)
  : result bool * list Effect :=
  let text := negb (isJSONOutput (outputFormat state)) in
  let log :=
    (if text
     then [Print (nl +:+ colorYellow +:+ "‚ö†Ô∏è  Write Operation:" +:+ colorReset +:+ " "
                    +:+ colorBold +:+ fullCommand +:+ colorReset +:+ nl);
           Print (colorYellow +:+ "This will modify the cluster state." +:+ colorReset
                    +:+ nl)]
     else [])
    ++ [Print "Do you want to proceed? (yes/no): "; ReadStdin] in
  match ReadString w with
  | Err err => (Err ("failed to read confirmation: " +:+ err), log)
  | Ok response =>
      let response := TrimSpace (ToLower response) in
      if negb (String.eqb response "yes") && negb (String.eqb response "y")
      then (Ok false,
            log ++ (if text
                    then [Print (nl +:+ colorRed +:+ "‚ùå Operation cancelled by user" +:+ colorReset
                                   +:+ nl +:+ nl)]
                    else []))
      else (Ok true, log ++ (if text then [Print nl] else []))
  end.

(** [enforceExecutionMode] returns [(proceed, cancelResult, err)]. *)
Definition enforceExecutionMode (w : World) (state : agentState) (isReadOnly : bool)
    (clusterName contextName fullCommand operation : string)
  : (bool * option ExecValue * option string) * list Effect :=
  if negb isReadOnly && (mode state =? ModeReadOnly) then
    ((false, None,
      Some ("write operation blocked in read-only mode." +:+ nl +:+ nl
              +:+ "Cluster: " +:+ clusterName +:+ " (" +:+ contextName +:+ ")" +:+ nl
              +:+ "Command: " +:+ fullCommand +:+ nl
              +:+ "Operation: " +:+ operation +:+ nl +:+ nl
              +:+ "This command would modify cluster state. Use /interactive to enable write operations with confirmation")),
     if negb (isJSONOutput (outputFormat state))
     then [Print (nl +:+ colorRed +:+ "üîí Blocked:" +:+ colorReset +:+ " "
                    +:+ colorBold +:+ fullCommand +:+ colorReset +:+ nl)]
     else [])
  else if negb isReadOnly && (mode state =? ModeInteractive) then
    match confirmWriteOperation w state fullCommand with
    | (Err err, log) => ((false, None, Some err), log)
    | (Ok proceed, log) =>
        if negb proceed
        then ((false, Some (ExecText "Operation cancelled by user"), None), log)
        else ((true, None, None), log)
    end
  else ((true, None, None), []).

Definition handleKubectlExec (w : World) (p : Provider) (state : agentState)
    (params : KubectlExecParams) : (option ExecValue * option string) * list Effect :=
  match validateKubectlExecParams params with
  | Err err => ((None, Some err), [])
  | Ok _ =>
      match getClusterForContext p (kxContext params) with
      | Err err => ((None, Some err), [])
      | Ok cluster =>
          let clusterName := Name cluster in
          let '(fullCommand, cmdArgs) :=
            buildKubectlCommand (kxContext params) (kxArgs params) in
          let isReadOnly := isReadOnlyCommand (kxArgs params) in
          match enforceExecutionMode w state isReadOnly clusterName (kxContext params)
                  fullCommand (hd "" (kxArgs params)) with
          | ((_, _, Some err), log) => ((None, Some err), log)
          | ((false, cancelResult, None), log) => ((cancelResult, None), log)
          | ((true, _, None), log) =>
              let log := log ++ printExecutionHeader state isReadOnly fullCommand in
              let '(output, execErr) := CombinedOutput w cmdArgs in
              let log := log ++ [RunKubectl cmdArgs] in
              if isJSONOutput (outputFormat state)
              then (buildKubectlJSONResult clusterName (kxContext params) fullCommand
                      output execErr, log)
              else (buildKubectlTextResult clusterName (kxContext params) fullCommand
                      output execErr, log)
          end
      end
  end.

Definition isExitCommand (input : string) : bool :=
  let lower := ToLower input in
  String.eqb lower "exit" || String.eqb lower "quit".

(** [handleModeSwitch]: the state afterwards, whether the input was a mode
    command, and what was printed. *)
Definition handleModeSwitch (input : string) (state : agentState)
  : agentState * bool * list Effect :=
  let lower := TrimSpace (ToLower input) in
  if String.eqb lower "/readonly" || String.eqb lower "/readonly on" then
    if mode state =? ModeReadOnly
    then (state, true,
          [Print ("  " +:+ colorYellow +:+ "●" +:+ colorReset
                    +:+ " Already in read-only mode" +:+ nl)])
    else ({| mode := ModeReadOnly; outputFormat := outputFormat state |}, true,
          [Print ("  " +:+ colorGreen +:+ "●" +:+ colorReset +:+ " Switched to "
                    +:+ colorYellow +:+ "🔒 read-only" +:+ colorReset +:+ " mode" +:+ nl)])
  else if String.eqb lower "/interactive" || String.eqb lower "/interactive on" then
    if mode state =? ModeInteractive
    then (state, true,
          [Print ("  " +:+ colorYellow +:+ "●" +:+ colorReset
                    +:+ " Already in interactive mode" +:+ nl)])
    else ({| mode := ModeInteractive; outputFormat := outputFormat state |}, true,
          [Print ("  " +:+ colorGreen +:+ "●" +:+ colorReset +:+ " Switched to "
                    +:+ colorGreen +:+ "🔓 interactive" +:+ colorReset +:+ " mode" +:+ nl)])
  else if String.eqb lower "/mode" || String.eqb lower "/status" then
    let modeIcon := if mode state =? ModeInteractive then "🔓" else "🔒" in
    let modeColor := if mode state =? ModeInteractive then colorGreen else colorYellow in
    (state, true,
     [Print ("  " +:+ modeColor +:+ "●" +:+ colorReset +:+ " Current mode: "
               +:+ modeIcon +:+ modeColor +:+ " " +:+ ExecutionMode_String (mode state)
               +:+ colorReset +:+ nl)])
  else (state, false, []).

End Normalise.

(** The effects that run [kubectl], and the reads of standard input. *)
Definition runs (log : list Effect) : list (list string) :=
  omap (fun ev => match ev with RunKubectl cmdArgs => Some cmdArgs | _ => None end) log.

Definition reads (log : list Effect) : nat :=
  length (List.filter (fun ev => match ev with ReadStdin => true | _ => false end) log).

(** The text counts as a yes to the confirmation prompt. *)
Definition yes (ToLower TrimSpace : string -> string) (line : string) : Prop :=
  TrimSpace (ToLower line) = "yes" \/ TrimSpace (ToLower line) = "y".

(** The answer read from standard input is a yes. *)
Definition confirms (ToLower TrimSpace : string -> string) (w : World) : Prop :=
  exists line, ReadString w = Ok line /\ yes ToLower TrimSpace line.

(** What [kubectl] is run with for [params]. *)
Definition commandLine (params : KubectlExecParams) : list string :=
  ["--context"; kxContext params] ++ kxArgs params.

(** The ways in which [handleKubectlExec] ends. *)
Inductive ExecOutcome (ToLower TrimSpace : string -> string) (w : World) (p : Provider)
    (state : agentState) (params : KubectlExecParams)
  : (option ExecValue * option string) * list Effect -> Prop :=
| Exec_invalid err :
    validateKubectlExecParams params = Err err ->
    ExecOutcome ToLower TrimSpace w p state params ((None, Some err), [])
| Exec_unknown err :
    validateKubectlExecParams params = Ok tt ->
    GetClusterByContext p (kxContext params) = Err err ->
    ExecOutcome ToLower TrimSpace w p state params
      ((None, Some ("cluster not found - context '" +:+ kxContext params
                      +:+ "' does not exist in your kubeconfig. Available contexts: "
                      +:+ getAvailableContexts p)), [])
| Exec_blocked cluster err log :
    validateKubectlExecParams params = Ok tt ->
    GetClusterByContext p (kxContext params) = Ok cluster ->
    isReadOnlyCommand (kxArgs params) = false ->
    mode state = ModeReadOnly ->
    runs log = [] -> reads log = 0%nat ->
    ExecOutcome ToLower TrimSpace w p state params ((None, Some err), log)
| Exec_read_failed cluster e log :
    validateKubectlExecParams params = Ok tt ->
    GetClusterByContext p (kxContext params) = Ok cluster ->
    isReadOnlyCommand (kxArgs params) = false ->
    mode state = ModeInteractive ->
    ReadString w = Err e ->
    runs log = [] -> reads log = 1%nat ->
    ExecOutcome ToLower TrimSpace w p state params
      ((None, Some ("failed to read confirmation: " +:+ e)), log)
| Exec_declined cluster line log :
    validateKubectlExecParams params = Ok tt ->
    GetClusterByContext p (kxContext params) = Ok cluster ->
    isReadOnlyCommand (kxArgs params) = false ->
    mode state = ModeInteractive ->
    ReadString w = Ok line -> ~ yes ToLower TrimSpace line ->
    runs log = [] -> reads log = 1%nat ->
    ExecOutcome ToLower TrimSpace w p state params
      ((Some (ExecText "Operation cancelled by user"), None), log)
| Exec_ran cluster log :
    validateKubectlExecParams params = Ok tt ->
    GetClusterByContext p (kxContext params) = Ok cluster ->
    (isReadOnlyCommand (kxArgs params) = true /\ reads log = 0%nat
     \/ isReadOnlyCommand (kxArgs params) = false /\ mode state = ModeInteractive
        /\ confirms ToLower TrimSpace w /\ reads log = 1%nat
     \/ isReadOnlyCommand (kxArgs params) = false /\ mode state <> ModeReadOnly
        /\ mode state <> ModeInteractive /\ reads log = 0%nat) ->
    runs log = [commandLine params] ->
    ExecOutcome ToLower TrimSpace w p state params
      ((if isJSONOutput (outputFormat state)
        then buildKubectlJSONResult else buildKubectlTextResult)
         (Name cluster) (kxContext params)
         (buildKubectlCommand (kxContext params) (kxArgs params)).1
         (CombinedOutput w (commandLine params)).1
         (CombinedOutput w (commandLine params)).2,
       log).

(** [strings.ToLower] and [strings.TrimSpace] on ASCII text, to run the
    handlers on examples. *)
Definition asciiLower (c : ascii) : ascii :=
  let n := N_of_ascii c in
  if (65 <=? n)%N && (n <=? 90)%N then ascii_of_N (n + 32) else c.

Fixpoint asciiToLower (s : string) : string :=
  match s with
  | EmptyString => EmptyString
  | String c rest => String (asciiLower c) (asciiToLower rest)
  end.

Definition asciiSpace (c : ascii) : bool :=
  let n := N_of_ascii c in
  ((9 <=? n)%N && (n <=? 13)%N) || (n =? 32)%N.

Fixpoint dropSpaces (l : list ascii) : list ascii :=
  match l with
  | c :: rest => if asciiSpace c then dropSpaces rest else l
  | [] => []
  end.

Definition asciiTrimSpace (s : string) : string :=
  String.string_of_list_ascii
    (rev (dropSpaces (rev (dropSpaces (String.list_ascii_of_string s))))).

(** A terminal at which the user types a yes, and a [kubectl] that
    succeeds. *)
Definition sampleWorld : World :=
  {| ReadString := Ok ("  Yes" +:+ nl);
     CombinedOutput := fun _ => ("deployment.apps/web scaled" +:+ nl, None) |}.

End Exec.

(** ** package [agent]: the argument sanitizer of the command validation *)
Module Validation.

(** The three tests of [sanitizeKubectlArgs] on one argument. *)
Definition isCredentialAssignment (arg : string) : bool :=
  Go.HasPrefix arg "--kubeconfig="
  || Go.HasPrefix arg "--token="
  || Go.HasPrefix arg "--certificate-authority="
  || Go.HasPrefix arg "--client-certificate="
  || Go.HasPrefix arg "--client-key=".

Definition isCredentialFlag (arg : string) : bool :=
  String.eqb arg "--kubeconfig" || String.eqb arg "--token"
  || String.eqb arg "--certificate-authority"
  || String.eqb arg "--client-certificate" || String.eqb arg "--client-key".

Definition isWatchFlag (arg : string) : bool :=
  String.eqb arg "-w" || String.eqb arg "--watch".

(** The loop of [sanitizeKubectlArgs] over the remaining arguments, with
    its two variables [skipNext] and [sanitized]. *)
Fixpoint sanitizeLoop (args : list string) (skipNext : bool) (sanitized : list string)
  : list string :=
  match args with
  | [] => sanitized
  | arg :: rest =>
      if skipNext then sanitizeLoop rest false sanitized
      else if isCredentialAssignment arg then sanitizeLoop rest false sanitized
      else if isCredentialFlag arg then sanitizeLoop rest true sanitized
      else if isWatchFlag arg then sanitizeLoop rest false sanitized
      else sanitizeLoop rest false (sanitized ++ [arg])
  end.

Definition sanitizeKubectlArgs (args : list string) : list string :=
  sanitizeLoop args false [].

(** An argument that the sanitizer lets through where it looks at it. *)
Definition clean (arg : string) : bool :=
  negb (isCredentialAssignment arg) && negb (isCredentialFlag arg)
  && negb (isWatchFlag arg).

End Validation.

(** ** package [agent]: the [check_all_clusters] tool *)
Module CheckAll.
Import K8s Agent Strings Tools.

Definition writeUnreachableClusterDetails (result : string) (status : ClusterStatus)
  : string :=
  let result := result +:+ "   Status: UNREACHABLE" +:+ nl in
  let result := result +:+ "   Server: " +:+ Server (Info status) +:+ nl in
  result +:+ "   Error: " +:+ Error status +:+ nl.

Definition writeUnhealthyPods (result : string) (pods : list PodInfo) : string :=
  if bool_decide (length pods = 0%nat) then result
  else
    let result := result +:+ "   Unhealthy Pods (" +:+ Go.itoa (Z.of_nat (length pods))
                    +:+ "):" +:+ nl in
    foldl (fun result pod =>
             let result := result +:+ "     - " +:+ piNamespace pod +:+ "/"
                             +:+ piName pod +:+ ": " +:+ piStatus pod in
             let result := if negb (String.eqb (piReason pod) "")
                           then result +:+ " (" +:+ piReason pod +:+ ")" else result in
             let result := if bool_decide (0 < piRestarts pod)
                           then result +:+ " [" +:+ Go.itoa (piRestarts pod)
                                  +:+ " restarts]"
                           else result in
             result +:+ nl)
          result pods.

Definition writeReachableClusterDetails (result : string) (status : ClusterStatus)
  : string :=
  let healthStatus :=
    if bool_decide (HealthyNodes status < NodeCount status)
       || bool_decide (HealthyPods status < PodCount status)
    then "DEGRADED" else "HEALTHY" in
  let result := result +:+ "   Status: " +:+ healthStatus +:+ nl in
  let result := result +:+ "   Version: " +:+ Version status +:+ nl in
  let result := result +:+ "   Nodes: " +:+ Go.itoa (NodeCount status) +:+ " total, "
                  +:+ Go.itoa (HealthyNodes status) +:+ " healthy" +:+ nl in
  let result := result +:+ "   Pods: " +:+ Go.itoa (PodCount status) +:+ " total, "
                  +:+ Go.itoa (HealthyPods status) +:+ " healthy" +:+ nl in
  let result := result +:+ "   Server: " +:+ APIServerURL status +:+ nl in
  let result := if negb (String.eqb (Namespace (Info status)) "")
                then result +:+ "   Default Namespace: " +:+ Namespace (Info status) +:+ nl
                else result in
  writeUnhealthyPods result (UnhealthyPods status).

Definition writeClusterDetails (result : string) (status : ClusterStatus) : string :=
  let statusIcon := getClusterStatusIcon status in
  let result := result +:+ nl +:+ statusIcon +:+ " " +:+ Context (Info status) +:+ nl in
  if negb (IsReachable (Info status))
  then writeUnreachableClusterDetails result status
  else writeReachableClusterDetails result status.

(** What the handler of [check_all_clusters] returns: the JSON result or
    the rendered text. *)
Inductive CheckAllOutput :=
| CheckAllJSON (totalClusters reachable fullyHealthy unhealthyPods : Z)
    (issues : list string) (clusters : list ClusterStatus)
| CheckAllText (text : string).

(** The handler of [check_all_clusters].  [order] is the order in which
    the listing of [GetAllClusterStatuses] visits the contexts and [sched]
    the order in which its goroutines take their turn.  A slot that was
    left [nil] makes [analyzeClusterHealth] dereference a nil pointer: the
    handler then has no result ([None]). *)
Definition checkAllClusters (order : list string) (sched : list nat)
    (envs : nat -> Env) (p : Provider) (outputFormat : string)
  : Provider * option CheckAllOutput :=
  let ctx := Go.Background in
  let '(p', slots) := GetAllClusterStatusesIn order sched envs p ctx in
  match mapM id slots with
  | None => (p', None)
  | Some statuses =>
      let summary := analyzeClusterHealth statuses in
      if isJSONOutput outputFormat then
        (p', Some (CheckAllJSON (Z.of_nat (length statuses)) (reachableCount summary)
                     (healthyCount summary) (totalUnhealthyPods summary)
                     (issues summary) statuses))
      else
        let result := "Health Check Results for " +:+ Go.itoa (Z.of_nat (length statuses))
                        +:+ " Clusters" +:+ nl in
        let result := result +:+ Repeat "=" 80 +:+ nl +:+ nl in
        let result := writeHealthSummary result summary (Z.of_nat (length statuses)) in
        let result := writeIssues result (issues summary) in
        let result := result +:+ "Cluster Details:" +:+ nl in
        let result := result +:+ Repeat "-" 80 +:+ nl in
        let result := foldl writeClusterDetails result statuses in
        (p', Some (CheckAllText result))
  end.

End CheckAll.

(** * Properties *)

Import CoreV1 K8s Sample Spec.

(** ** Pod health classification *)

Lemma eqb_true (a b : string) : String.eqb a b = true <-> a = b.
Proof. apply String.eqb_eq. Qed.

Lemma allReady_loop (phase : string) (css : list ContainerStatus) :
  (fix loop (css : list ContainerStatus) : bool :=
     match css with
     | [] => String.eqb phase PodRunning
     | cs :: rest => if negb (csReady cs) then false else loop rest
     end) css
  = forallb csReady css && String.eqb phase PodRunning.
Proof.
  induction css as [|cs rest IH]; simpl; [reflexivity|].
  destruct (csReady cs); simpl; [exact IH | reflexivity].
Qed.

Lemma isPodHealthy_spec (pod : Pod) :
  isPodHealthy pod
  = String.eqb (podPhase pod) PodRunning && forallb csReady (podContainerStatuses pod).
Proof.
  unfold isPodHealthy. rewrite allReady_loop.
  destruct (String.eqb (podPhase pod) PodRunning) eqn:Hrun; simpl.
  - rewrite andb_true_r. reflexivity.
  - destruct (String.eqb (podPhase pod) PodSucceeded); simpl;
      [apply andb_false_r | reflexivity].
Qed.

Lemma int64_small (x : Z) :
  Go.minInt64 <= x <= Go.maxInt64 -> Go.int64 x = x.
Proof.
  unfold Go.int64, Go.wrap, Go.minInt64, Go.maxInt64. intros H.
  rewrite Z.mod_small; lia.
Qed.

Lemma classifyPods_spec (pods : list Pod) (h : Z) (u : list PodInfo) :
  0 <= h -> h + Z.of_nat (length pods) <= Go.maxInt64 ->
  classifyPods pods h u
  = (h + Z.of_nat (length (List.filter isPodHealthy pods)),
     u ++ map extractPodInfo (List.filter (fun pod => negb (isPodHealthy pod)) pods)).
Proof.
  revert h u. induction pods as [|pod rest IH]; intros h u Hh Hmax.
  - simpl. rewrite app_nil_r, Z.add_0_r. reflexivity.
  - cbn [classifyPods List.filter]. cbn [length] in Hmax.
    assert (Hmin : Go.minInt64 <= 0) by (unfold Go.minInt64; lia).
    destruct (isPodHealthy pod) eqn:Hp; cbn [negb].
    + rewrite int64_small by lia. rewrite IH by lia.
      cbn [length]. f_equal. lia.
    + rewrite IH by lia. cbn [map]. rewrite <- app_assoc. reflexivity.
Qed.

Lemma filter_split_length {A} (f : A -> bool) (l : list A) :
  (length (List.filter f l) + length (List.filter (fun x => negb (f x)) l))%nat
  = length l.
Proof.
  induction l as [|x l IH]; simpl; [reflexivity|].
  destruct (f x); simpl; lia.
Qed.

(** C4. A pod is classified healthy exactly when its phase is Running and
    every container status is ready; Succeeded, Pending and Failed pods are
    unhealthy whatever their containers report; and a successful
    [collectPodHealth] reports the number of listed pods, one [PodInfo] per
    unhealthy pod (in listing order), with healthy count plus the length of
    the unhealthy list equal to the total. *)
Theorem C4_pod_health_classification
    (ctx : Go.Context) (clientset : Clientset) (pods : list Pod) (s : PState) :
  ListPods clientset = Ok pods ->
  Z.of_nat (length pods) <= Go.maxInt64 ->
  (forall pod : Pod,
     isPodHealthy pod = true <->
     podPhase pod = PodRunning /\
     (forall cs, In cs (podContainerStatuses pod) -> csReady cs = true))
  /\ (forall pod : Pod, podPhase pod = PodSucceeded -> isPodHealthy pod = false)
  /\ (forall pod : Pod,
        podPhase pod = PodPending \/ podPhase pod = PodFailed ->
        isPodHealthy pod = false)
  /\ exists healthy unhealthy,
       fst (collectPodHealth ctx clientset s)
       = Ok (Z.of_nat (length pods), healthy, unhealthy)
       /\ unhealthy
          = map extractPodInfo (List.filter (fun pod => negb (isPodHealthy pod)) pods)
       /\ healthy + Z.of_nat (length unhealthy) = Z.of_nat (length pods).
Proof.
  intros Hlist Hmax. repeat split.
  - rewrite isPodHealthy_spec in H. apply andb_true_iff in H as [H _].
    apply eqb_true in H. exact H.
  - intros cs Hin. rewrite isPodHealthy_spec in H.
    apply andb_true_iff in H as [_ H].
    rewrite forallb_forall in H. apply H, Hin.
  - intros [Hrun Hall]. rewrite isPodHealthy_spec.
    apply andb_true_iff. split.
    + apply eqb_true, Hrun.
    + apply forallb_forall. exact Hall.
  - intros pod Hs. rewrite isPodHealthy_spec, Hs. reflexivity.
  - intros pod [Hs | Hs]; rewrite isPodHealthy_spec, Hs; reflexivity.
  - unfold collectPodHealth, bind, call, ret. rewrite Hlist.
    rewrite classifyPods_spec by lia. cbn [fst].
    eexists _, _. split; [reflexivity|]. split; [rewrite app_nil_l; reflexivity|].
    rewrite app_nil_l, length_map, Z.add_0_l, <- Nat2Z.inj_add.
    rewrite filter_split_length. reflexivity.
Qed.

Lemma C4_pod_health_witness :
  exists healthy unhealthy,
    fst (collectPodHealth Go.Background sampleClientset start)
    = Ok (4, healthy, unhealthy)
    /\ unhealthy
       = map extractPodInfo
           (List.filter (fun pod => negb (isPodHealthy pod)) samplePods)
    /\ healthy + Z.of_nat (length unhealthy) = 4.
Proof.
  apply (C4_pod_health_classification Go.Background sampleClientset samplePods start);
    [reflexivity | vm_compute; discriminate].
Defined.

(** ** Health analyzer *)

Lemma healthyCount_processReachableCluster
    (status : ClusterStatus) (summary : Agent.clusterHealthSummary) :
  Agent.healthyCount (Agent.processReachableCluster status summary)
  = if negb (Agent.hasNodeIssue status) && negb (Agent.hasPodIssue status)
       && bool_decide (0 < NodeCount status)
    then Go.int64 (Agent.healthyCount summary + 1)
    else Agent.healthyCount summary.
Proof.
  unfold Agent.processReachableCluster.
  destruct (Agent.hasNodeIssue status), (Agent.hasPodIssue status); reflexivity.
Qed.

(** C8. On three reachable clusters (2/2 nodes and 5/5 pods; 1/2 nodes
    and no pod issue; 3/3 nodes and 4/5 pods) followed by one unreachable
    cluster, the analyzer counts 3 reachable, 1 fully healthy and 1
    unhealthy pod, and lists exactly three issues in input order: the node
    issue, the pod issue, the unreachable issue.  In general a reachable
    status adds to the fully-healthy count exactly when it has neither a
    node issue nor a pod issue and its node count is positive. *)
Theorem C8_health_analyzer_scenario (s1 s2 s3 s4 : ClusterStatus) :
  IsReachable (Info s1) = true -> NodeCount s1 = 2 -> HealthyNodes s1 = 2 ->
  PodCount s1 = 5 -> HealthyPods s1 = 5 ->
  IsReachable (Info s2) = true -> NodeCount s2 = 2 -> HealthyNodes s2 = 1 ->
  Agent.hasPodIssue s2 = false ->
  IsReachable (Info s3) = true -> NodeCount s3 = 3 -> HealthyNodes s3 = 3 ->
  PodCount s3 = 5 -> HealthyPods s3 = 4 ->
  IsReachable (Info s4) = false ->
  let summary := Agent.analyzeClusterHealth [s1; s2; s3; s4] in
  Agent.reachableCount summary = 3
  /\ Agent.healthyCount summary = 1
  /\ Agent.totalUnhealthyPods summary = 1
  /\ Agent.issues summary
     = [Agent.nodeIssue s2; Agent.podIssue s3 1; Agent.unreachableIssue s4]
  /\ length (Agent.issues summary) = 3%nat
  /\ forall (status : ClusterStatus) (acc : Agent.clusterHealthSummary),
       Agent.healthyCount (Agent.processReachableCluster status acc)
       = Go.int64 (Agent.healthyCount acc + 1)
         /\ negb (Agent.hasNodeIssue status) && negb (Agent.hasPodIssue status)
            && bool_decide (0 < NodeCount status) = true
       \/ Agent.healthyCount (Agent.processReachableCluster status acc)
          = Agent.healthyCount acc
          /\ negb (Agent.hasNodeIssue status) && negb (Agent.hasPodIssue status)
             && bool_decide (0 < NodeCount status) = false.
Proof.
  intros R1 N1 H1 P1 Q1 R2 N2 H2 I2 R3 N3 H3 P3 Q3 R4 summary.
  assert (Hsum : summary =
    {| Agent.reachableCount := 3; Agent.healthyCount := 1;
       Agent.totalUnhealthyPods := 1;
       Agent.issues := [Agent.nodeIssue s2; Agent.podIssue s3 1;
                        Agent.unreachableIssue s4] |}).
  { subst summary. unfold Agent.analyzeClusterHealth. cbn [foldl].
    rewrite R1, R2, R3, R4.
    unfold Agent.processReachableCluster.
    rewrite I2. unfold Agent.hasNodeIssue, Agent.hasPodIssue.
    rewrite N1, H1, P1, Q1, N2, H2, N3, H3, P3, Q3.
    reflexivity. }
  rewrite Hsum. cbn.
  repeat (split; [reflexivity|]).
  intros status acc. rewrite healthyCount_processReachableCluster.
  destruct (negb (Agent.hasNodeIssue status) && negb (Agent.hasPodIssue status)
            && bool_decide (0 < NodeCount status)); [left | right]; split; reflexivity.
Qed.

Lemma C8_health_analyzer_witness :
  Agent.reachableCount (Agent.analyzeClusterHealth fleet) = 3
  /\ Agent.healthyCount (Agent.analyzeClusterHealth fleet) = 1
  /\ Agent.totalUnhealthyPods (Agent.analyzeClusterHealth fleet) = 1
  /\ length (Agent.issues (Agent.analyzeClusterHealth fleet)) = 3%nat.
Proof.
  pose proof (C8_health_analyzer_scenario
                (mkStatus "prod" true 2 2 5 5 "")
                (mkStatus "staging" true 2 1 0 0 "")
                (mkStatus "dev" true 3 3 5 4 "")
                (mkStatus "edge" false 0 0 0 0 "Failed to reach cluster: timeout")
                eq_refl eq_refl eq_refl eq_refl eq_refl eq_refl eq_refl eq_refl
                eq_refl eq_refl eq_refl eq_refl eq_refl eq_refl eq_refl) as H.
  cbv zeta in H. destruct H as (H1 & H2 & H3 & _ & H5 & _).
  exact (conj H1 (conj H2 (conj H3 H5))).
Defined.

(** ** Configuration loading *)

Lemma NewProvider_Ok (LoadFromFile : string -> result Config) (path : string) (raw : Config) :
  LoadFromFile path = Ok raw ->
  exists p, NewProvider LoadFromFile path = Ok p
    /\ kubeconfigPath p = path /\ rawConfig p = raw
    /\ currentContext p = CurrentContext raw
    /\ cache p = ∅ /\ cacheTTL p = 60 * Go.Second
    /\ forall k, clusters p !! k = Contexts raw !! k ≫= loadedEntry raw k.
Proof.
  intros Hload. unfold NewProvider. rewrite Hload.
  eexists. split; [reflexivity|]. cbn.
  repeat (split; [reflexivity|]).
  intros k.
  apply (map_fold_weak_ind (fun (r : gmap string ClusterInfo) m =>
           r !! k = m !! k ≫= loadedEntry raw k)).
  - rewrite !lookup_empty. reflexivity.
  - intros j y m r Hj IH. unfold loadedEntry in *.
    rewrite (lookup_insert m). destruct (decide (j = k)) as [->|Hne]; simpl.
    + destruct (Clusters raw !! ctxCluster y).
      * rewrite lookup_insert_eq. reflexivity.
      * rewrite IH, Hj. reflexivity.
    + destruct (Clusters raw !! ctxCluster y);
        rewrite ?lookup_insert_ne by done; exact IH.
Qed.

Lemma GetClusters_values (p : Provider) :
  GetClusters p = reverse ((map_to_list (clusters p)).*2).
Proof.
  unfold GetClusters. rewrite map_fold_foldr.
  induction (map_to_list (clusters p)) as [|[k c] l IH]; [reflexivity|].
  rewrite fmap_cons, reverse_cons, <- IH. reflexivity.
Qed.

Lemma elem_of_GetClusters (p : Provider) (c : ClusterInfo) :
  c ∈ GetClusters p <-> exists k, clusters p !! k = Some c.
Proof.
  rewrite GetClusters_values, elem_of_reverse, list_elem_of_fmap. split.
  - intros [[k c'] [-> Hin]]. exists k. apply elem_of_map_to_list in Hin. exact Hin.
  - intros [k Hk]. exists (k, c). split; [reflexivity|].
    apply elem_of_map_to_list. exact Hk.
Qed.

Lemma length_GetClusters (p : Provider) :
  length (GetClusters p) = size (clusters p).
Proof.
  rewrite GetClusters_values, length_reverse, length_fmap, length_map_to_list.
  reflexivity.
Qed.

Lemma NoDup_GetClusters_contexts (p : Provider) :
  keyed p -> NoDup (Context <$> GetClusters p).
Proof.
  intros Hk. rewrite GetClusters_values, fmap_reverse, reverse_Permutation.
  assert (Heq : Context <$> (map_to_list (clusters p)).*2 = (map_to_list (clusters p)).*1).
  { rewrite <- list_fmap_compose. apply list_fmap_ext.
    intros i [k c] Hi. apply list_elem_of_lookup_2, elem_of_map_to_list in Hi.
    cbn. apply (Hk k c Hi). }
  rewrite Heq. apply NoDup_fst_map_to_list.
Qed.

Lemma NewProvider_size (raw : Config) (p : Provider) :
  (forall k, clusters p !! k = Contexts raw !! k ≫= loadedEntry raw k) ->
  size (clusters p) = size (filter (resolves raw) (Contexts raw)).
Proof.
  intros Hlk. rewrite <- !size_dom. f_equal. apply set_eq. intros k.
  rewrite !elem_of_dom. unfold is_Some.
  setoid_rewrite map_lookup_filter_Some. rewrite Hlk.
  destruct (Contexts raw !! k) as [ci|] eqn:Hk.
  - change (Some ci ≫= loadedEntry raw k) with (loadedEntry raw k ci).
    unfold loadedEntry, resolves.
    destruct (Clusters raw !! ctxCluster ci) as [cl|] eqn:Hcl; split.
    + intros _. exists ci. split; [reflexivity|].
      change (is_Some (Clusters raw !! ctxCluster ci)). rewrite Hcl. eexists; reflexivity.
    + intros _. eexists; reflexivity.
    + intros [? ?]; discriminate.
    + intros (x & [= <-] & [cl' Hcl']).
      change (Clusters raw !! ctxCluster ci = Some cl') in Hcl'. congruence.
  - split; [intros [? ?]; discriminate | intros [? [? _]]; discriminate].
Qed.

(** C6. [NewProvider] fails exactly when the file cannot be loaded.  For a
    loaded configuration it returns a provider that surfaces the
    current-context name, has no entry for an undeclared context or for a
    context whose cluster definition is absent, and has for every context
    whose cluster resolves one entry stored under, and carrying, that
    context name, with [IsCurrent] set exactly for the current context;
    [GetClusters] lists as many entries as there are resolving contexts,
    with pairwise distinct context names. *)
Theorem C6_configuration_loading (LoadFromFile : string -> result Config) (path : string) :
  match LoadFromFile path with
  | Err msg =>
      NewProvider LoadFromFile path = Err ("failed to load kubeconfig: " +:+ msg)
  | Ok raw =>
      exists p, NewProvider LoadFromFile path = Ok p
        /\ GetCurrentContext p = CurrentContext raw
        /\ (forall k, Contexts raw !! k = None -> clusters p !! k = None)
        /\ (forall k ci, Contexts raw !! k = Some ci ->
              Clusters raw !! ctxCluster ci = None -> clusters p !! k = None)
        /\ (forall k ci cl, Contexts raw !! k = Some ci ->
              Clusters raw !! ctxCluster ci = Some cl ->
              clusters p !! k
              = Some {| Name := ctxCluster ci; Server := clServer cl; Context := k;
                        User := ctxAuthInfo ci; Namespace := ctxNamespace ci;
                        IsCurrent := String.eqb k (CurrentContext raw);
                        IsReachable := false |})
        /\ length (GetClusters p) = size (filter (resolves raw) (Contexts raw))
        /\ NoDup (Context <$> GetClusters p)
        /\ (forall c, c ∈ GetClusters p ->
              (IsCurrent c = true <-> Context c = CurrentContext raw))
  end.
Proof.
  destruct (LoadFromFile path) as [raw|msg] eqn:Hload.
  - destruct (NewProvider_Ok LoadFromFile path raw Hload)
      as (p & Hp & _ & _ & Hcur & _ & _ & Hlk).
    assert (Hentry : forall k c, clusters p !! k = Some c ->
              Context c = k /\ IsCurrent c = String.eqb k (CurrentContext raw)).
    { intros k c. rewrite Hlk. unfold loadedEntry.
      destruct (Contexts raw !! k) as [ci|]; cbn; [|discriminate].
      destruct (Clusters raw !! ctxCluster ci); [|discriminate].
      intros [= <-]. cbn. split; reflexivity. }
    exists p. split; [exact Hp|]. split; [exact Hcur|].
    split; [|split; [|split; [|split; [|split]]]].
    + intros k Hk. rewrite Hlk, Hk. reflexivity.
    + intros k ci Hk Hcl. rewrite Hlk, Hk. cbn. unfold loadedEntry.
      rewrite Hcl. reflexivity.
    + intros k ci cl Hk Hcl. rewrite Hlk, Hk. cbn. unfold loadedEntry.
      rewrite Hcl. reflexivity.
    + rewrite length_GetClusters. apply NewProvider_size, Hlk.
    + apply NoDup_GetClusters_contexts. intros k c Hc. apply (Hentry k c Hc).
    + intros c Hc. apply elem_of_GetClusters in Hc as [k Hk].
      destruct (Hentry k c Hk) as [-> ->]. apply eqb_true.
  - unfold NewProvider. rewrite Hload. reflexivity.
Qed.

(** ** The status assembler and the cache *)

Lemma getCachedStatus_hit (e : Env) (p : Provider) (contextName : string)
    (s : PState) (cached : CachedClusterStatus) :
  cache p !! contextName = Some cached ->
  clock e (ticks s) <= ExpiresAt cached ->
  getCachedStatus e p contextName s = (Some (Status cached), ticked s).
Proof.
  intros Hc Ht. unfold getCachedStatus, bind, now, ret, Go.After. rewrite Hc.
  rewrite bool_decide_eq_false_2 by lia. reflexivity.
Qed.

Lemma getCachedStatus_Some (e : Env) (p : Provider) (contextName : string)
    (s s1 : PState) (status : ClusterStatus) :
  getCachedStatus e p contextName s = (Some status, s1) ->
  exists cached, cache p !! contextName = Some cached
    /\ clock e (ticks s) <= ExpiresAt cached
    /\ status = Status cached /\ s1 = ticked s.
Proof.
  unfold getCachedStatus, bind, now, ret, Go.After.
  destruct (cache p !! contextName) as [cached|]; [|discriminate].
  case_bool_decide; [discriminate|]. intros [= <- <-].
  exists cached. repeat split. lia.
Qed.

Lemma getCachedStatus_None (e : Env) (p : Provider) (contextName : string)
    (s s1 : PState) :
  getCachedStatus e p contextName s = (None, s1) ->
  stale p contextName (clock e (ticks s)) /\ calls s1 = calls s
  /\ (ticks s <= ticks s1)%nat.
Proof.
  unfold getCachedStatus, bind, now, ret, Go.After, stale.
  destruct (cache p !! contextName) as [cached|].
  - case_bool_decide; [|discriminate]. intros [= <-]. cbn.
    split; [lia | split; [reflexivity | lia]].
  - intros [= <-]. split; [exact I | split; [reflexivity | lia]].
Qed.

Lemma stale_miss (e : Env) (p : Provider) (contextName : string) (s : PState) :
  stale p contextName (clock e (ticks s)) ->
  exists s1, getCachedStatus e p contextName s = (None, s1) /\ calls s1 = calls s.
Proof.
  unfold getCachedStatus, bind, now, ret, Go.After, stale.
  destruct (cache p !! contextName) as [cached|]; intros H.
  - rewrite bool_decide_eq_true_2 by lia. eexists. split; reflexivity.
  - eexists. split; reflexivity.
Qed.

Lemma nodeLoop_calls (e : Env) (items : list Node) (acc : list NodeInfo) (h : Z)
    (s : PState) :
  calls (nodeLoop e items acc h s).2 = calls s.
Proof.
  revert acc h s. induction items as [|node rest IH]; intros acc h s; [reflexivity|].
  cbn [nodeLoop]. unfold bind at 1. unfold now at 1.
  destruct (nodeReadiness (nodeConditions node)) as [st ready].
  rewrite IH. reflexivity.
Qed.

Lemma nodeLoop_ticks (e : Env) (items : list Node) (acc : list NodeInfo) (h : Z)
    (s : PState) :
  ticks (nodeLoop e items acc h s).2 = (ticks s + length items)%nat.
Proof.
  revert acc h s. induction items as [|node rest IH]; intros acc h s.
  - cbn. lia.
  - cbn [nodeLoop]. unfold bind at 1. unfold now at 1.
    destruct (nodeReadiness (nodeConditions node)) as [st ready].
    rewrite IH. cbn. lia.
Qed.

(** Every invocation ends in one of the terminal states of [Outcome]. *)
Lemma GetClusterStatus_outcome (e : Env) (p : Provider) (ctx : Go.Context)
    (contextName : string) (s : PState) :
  Outcome e p ctx contextName s (GetClusterStatus e p ctx contextName s).
Proof.
  unfold GetClusterStatus. unfold bind at 1.
  destruct (getCachedStatus e p contextName s) as [[status|] s1] eqn:Hc.
  - apply getCachedStatus_Some in Hc as (cached & Hc & Ht & -> & ->).
    apply CacheHit; assumption.
  - apply getCachedStatus_None in Hc as (Hstale & Hs1 & Hticks).
    unfold GetClusterByContext.
    destruct (clusters p !! contextName) as [ci|] eqn:Hci;
      [|apply NotFound; assumption].
    unfold createClientset, bind, call, ret.
    destruct (ClientConfig e) as [restConfig|msg] eqn:Hcc;
      [|eapply ConfigFailed; eauto; cbn; rewrite Hs1; reflexivity].
    destruct (NewForConfig e) as [clientset|msg] eqn:Hnc;
      [|eapply ClientsetFailed; eauto; cbn; rewrite Hs1, <- app_assoc; reflexivity].
    unfold getClusterVersion, WithTimeout, bind, call, ret, now. cbn [ticks calls].
    destruct (ServerVersion clientset) as [version|msg] eqn:Hv.
    2:{ eapply (VersionFailed _ _ _ _ _ _ _ _ _ (ticks s1)); eauto.
        cbn. rewrite Hs1, <- !app_assoc. reflexivity. }
    unfold collectNodeInfo, bind, call, ret. cbn [ticks calls].
    destruct (ListNodes clientset) as [items|msg] eqn:Hn.
    2:{ eapply (NodesFailed _ _ _ _ _ _ _ _ _ _ (ticks s1)); eauto.
        cbn. rewrite Hs1, <- !app_assoc. reflexivity. }
    match goal with
    | |- context [nodeLoop e items [] 0 ?s0] =>
        pose proof (nodeLoop_calls e items [] 0 s0) as Hcalls;
        pose proof (nodeLoop_ticks e items [] 0 s0) as Htk;
        destruct (nodeLoop e items [] 0 s0) as [[nodeInfos healthyNodes] s2]
    end.
    cbn [fst snd ticks calls] in Hcalls, Htk.
    unfold collectNamespaceList, collectPodHealth, cacheStatus, bind, call, ret, now.
    cbn [ticks calls].
    assert (Hgate : calls s2 = calls s ++
              gateCalls p ctx contextName
                (Go.WithTimeout ctx (clock e (ticks s1)) (10 * Go.Second))
                (Go.WithTimeout
                   (Go.WithTimeout ctx (clock e (ticks s1)) (10 * Go.Second))
                   (clock e (S (ticks s1))) DiscoveryTimeout)
              ++ [CallListNodes
                    (Go.WithTimeout ctx (clock e (ticks s1)) (10 * Go.Second))]).
    { rewrite Hcalls, Hs1, <- !app_assoc. reflexivity. }
    clear Hcalls.
    destruct (ListNamespaces clientset) as [names|nsmsg] eqn:Hns;
      destruct (ListPods clientset) as [pods|podmsg] eqn:Hp;
      try destruct (classifyPods pods 0 []) as [healthyPods unhealthyPods] eqn:Hcl;
      cbn [ticks calls];
      match goal with
      | |- Outcome _ _ _ _ _ (_, _, ?sf) =>
          pose proof (Populated e p ctx contextName s ci restConfig clientset version
                        items nodeInfos healthyNodes (ticks s1) (ticks s2) sf
                        Hstale Hci Hcc Hnc Hv Hn Hticks) as HO
      end;
      cbv zeta in HO; unfold withPods, withNamespaces in HO;
      rewrite Hns, Hp in HO; rewrite ?Hcl in HO; cbn [fst snd] in HO;
      (apply HO; [lia | cbn [calls]; rewrite Hgate, <- !app_assoc; reflexivity]).
Qed.

(** *** The provider invariant *)

Lemma enriched_fields (clientset : Clientset) (st : ClusterStatus) :
  let st' := withPods clientset (withNamespaces clientset st) in
  Info st' = Info st /\ Error st' = Error st /\ Version st' = Version st
  /\ NodeCount st' = NodeCount st /\ HealthyNodes st' = HealthyNodes st
  /\ Nodes st' = Nodes st /\ APIServerURL st' = APIServerURL st.
Proof.
  unfold withPods, withNamespaces.
  destruct (ListPods clientset), (ListNamespaces clientset); cbn; repeat split.
Qed.

Lemma NewProvider_wf (V : string -> Prop) (LoadFromFile : string -> result Config)
    (path : string) (p : Provider) :
  NewProvider LoadFromFile path = Ok p -> wf V p.
Proof.
  intros Hp. destruct (LoadFromFile path) as [raw|msg] eqn:Hload.
  - destruct (NewProvider_Ok LoadFromFile path raw Hload)
      as (p' & Hp' & _ & _ & _ & Hcache & _ & Hlk).
    assert (p' = p) as -> by congruence. split.
    + intros k c. rewrite Hlk.
      destruct (Contexts raw !! k) as [ci|]; [|discriminate].
      change (Some ci ≫= loadedEntry raw k) with (loadedEntry raw k ci).
      unfold loadedEntry.
      destruct (Clusters raw !! ctxCluster ci); [|discriminate].
      intros [= <-]. split; reflexivity.
    + intros k c. rewrite Hcache, lookup_empty. discriminate.
  - unfold NewProvider in Hp. rewrite Hload in Hp. discriminate.
Qed.

Lemma GetClusterStatus_wf (V : string -> Prop) (e : Env) (p : Provider)
    (ctx : Go.Context) (contextName : string) (s : PState) :
  wf V p -> reports V e -> wf V (GetClusterStatus e p ctx contextName s).1.1.
Proof.
  intros [Hcl Hca] Hrep.
  destruct (GetClusterStatus_outcome e p ctx contextName s)
    as [ | | | | | |ci restConfig clientset version items nodeInfos healthyNodes
                    n1 n3 s' Hstale Hci Hcc Hnc Hv Hn Hle queryCtx discoveryCtx
                    status Hlt Hcalls];
    cbn [fst]; try (split; assumption).
  split; [exact Hcl|]. intros k c. cbn [cache set_cache].
  rewrite lookup_insert. destruct (decide (contextName = k)) as [<-|Hne].
  - intros [= <-]. cbn [Status]. subst status.
    destruct (enriched_fields clientset
                (set_Nodes nodeInfos (Z.of_nat (length nodeInfos)) healthyNodes
                   (reachedStatus ci version restConfig)))
      as (-> & -> & -> & _).
    cbn. destruct (Hcl _ _ Hci) as [-> _].
    repeat split. eapply Hrep; eassumption.
  - apply Hca.
Qed.

Lemma SetCurrentContext_wf (V : string -> Prop) (p : Provider) (contextName : string) :
  wf V p -> wf V (SetCurrentContext p contextName).1.
Proof.
  intros [Hcl Hca]. unfold SetCurrentContext.
  destruct (clusters p !! contextName) as [target|]; [|split; assumption].
  split; [|exact Hca]. intros k c. cbn [fst clusters].
  rewrite lookup_fmap. destruct (clusters p !! k) as [c0|] eqn:Hk; [|discriminate].
  intros [= <-]. cbn. apply (Hcl k c0 Hk).
Qed.

Lemma ClearCache_wf (V : string -> Prop) (p : Provider) : wf V p -> wf V (ClearCache p).
Proof.
  intros [Hcl Hca]. split; [exact Hcl|]. intros k c. cbn.
  rewrite lookup_empty. discriminate.
Qed.

Lemma SetCacheTTL_wf (V : string -> Prop) (p : Provider) (ttl : Z) :
  wf V p -> wf V (SetCacheTTL p ttl).
Proof. intros [Hcl Hca]. split; assumption. Qed.

Lemma Reach_wf (V : string -> Prop) (p : Provider) : Reach V p -> wf V p.
Proof.
  induction 1.
  - eapply NewProvider_wf; eassumption.
  - apply GetClusterStatus_wf; assumption.
  - apply SetCurrentContext_wf; assumption.
  - apply ClearCache_wf; assumption.
  - apply SetCacheTTL_wf; assumption.
Qed.

Example sampleProvider_loaded : NewProvider sampleLoad samplePath = Ok sampleProvider.
Proof. vm_compute. reflexivity. Qed.

Example healthy_run :
  let run := GetClusterStatus envHealthy sampleProvider Go.Background "prod" start in
  exists st, run.1.2 = Ok st
    /\ IsReachable (Info st) = true /\ Version st = "v1.28.0" /\ Error st = ""
    /\ NodeCount st = 2 /\ HealthyNodes st = 1
    /\ Nodes st = [ {| niName := "n1"; niStatus := "Ready";
                       niRoles := ["control-plane"]; niAge := "72h0m0s" |};
                    {| niName := "n2"; niStatus := "NotReady";
                       niRoles := ["worker"]; niAge := "72h0m0s" |} ]
    /\ PodCount st = 4 /\ HealthyPods st = 1
    /\ map piReason (UnhealthyPods st) = ["Completed"; "CrashLoopBackOff"; ""].
Proof. vm_compute. eexists. repeat split. Qed.

Lemma stale_hit_absurd (p : Provider) (contextName : string) (t : Z)
    (cached : CachedClusterStatus) :
  stale p contextName t -> cache p !! contextName = Some cached ->
  t <= ExpiresAt cached -> False.
Proof. unfold stale. intros Hs Hc Ht. rewrite Hc in Hs. lia. Qed.

(** Case analysis on the terminal state of a run whose oracle answers are
    hypotheses of the goal: the cases that contradict them are closed. *)
Ltac outcome_cases e p ctx contextName s :=
  destruct (GetClusterStatus_outcome e p ctx contextName s)
    as [ cached Hhit Hlive
       | s' Hstale' Hnone Hcalls
       | ci' msg' s' Hstale' Hci' Hcc' Hcalls
       | ci' restConfig' msg' s' Hstale' Hci' Hcc' Hnc' Hcalls
       | ci' restConfig' clientset' msg' n1 s' Hstale' Hci' Hcc' Hnc' Hv' Hle
           queryCtx discoveryCtx Hcalls
       | ci' restConfig' clientset' version' msg' n1 s' Hstale' Hci' Hcc' Hnc' Hv'
           Hn' Hle queryCtx discoveryCtx Hcalls
       | ci' restConfig' clientset' version' items' nodeInfos healthyNodes n1 n3 s'
           Hstale' Hci' Hcc' Hnc' Hv' Hn' Hle queryCtx discoveryCtx status Hlt Hcalls ];
  try (exfalso; first [ congruence | eapply stale_hit_absurd; eassumption ]).

Lemma append_nonempty (a b : string) : a <> "" -> a +:+ b <> "".
Proof. destruct a; [congruence | discriminate]. Qed.

(** C3. In an assembly that passed the version probe: when the node
    listing fails the returned status is reachable, its error is the
    non-empty node-listing message, its node fields are zero, the provider
    is unchanged and neither the namespace nor the pod listing is called;
    when the node listing succeeds, a failing namespace listing leaves the
    namespace list empty, a failing pod listing leaves the pod fields zero,
    the error stays empty, both listings are called and the status is
    cached and returned. *)
Theorem C3_partial_collection_failure
    (e : Env) (p : Provider) (ctx : Go.Context) (contextName : string) (s : PState)
    (ci : ClusterInfo) (restConfig : RestConfig) (clientset : Clientset)
    (version : string) :
  stale p contextName (clock e (ticks s)) ->
  clusters p !! contextName = Some ci ->
  ClientConfig e = Ok restConfig ->
  NewForConfig e = Ok clientset ->
  ServerVersion clientset = Ok version ->
  let run := GetClusterStatus e p ctx contextName s in
  exists st, run.1.2 = Ok st
    /\ IsReachable (Info st) = true
    /\ (forall msg, ListNodes clientset = Err msg ->
          Error st = "Failed to list nodes: " +:+ msg /\ Error st <> ""
          /\ NodeCount st = 0 /\ HealthyNodes st = 0 /\ Nodes st = []
          /\ run.1.1 = p
          /\ exists new, calls (run.2) = calls s ++ new
               /\ forall c, (CallListNamespaces c ∉ new) /\ (CallListPods c ∉ new))
    /\ (forall items, ListNodes clientset = Ok items ->
          Error st = ""
          /\ (forall msg, ListNamespaces clientset = Err msg -> NamespaceList st = [])
          /\ (forall msg, ListPods clientset = Err msg ->
                PodCount st = 0 /\ HealthyPods st = 0 /\ UnhealthyPods st = [])
          /\ (exists new c, calls (run.2)
                            = calls s ++ new ++ [CallListNamespaces c; CallListPods c])
          /\ exists cached, cache (run.1.1) !! contextName = Some cached
               /\ Status cached = st).
Proof.
  intros Hstale Hci Hcc Hnc Hv run. subst run.
  outcome_cases e p ctx contextName s; cbn [fst snd].
  - (* node listing failed *)
    eexists. split; [reflexivity|]. split; [reflexivity|]. split.
    + intros msg Hn. assert (msg = msg') as -> by congruence.
      split; [reflexivity|]. split; [apply append_nonempty; discriminate|].
      repeat (split; [reflexivity|]).
      eexists. split; [exact Hcalls|].
      intros c. unfold gateCalls. rewrite !elem_of_app, !elem_of_cons, !elem_of_nil.
      split; intros Hin; decompose [or] Hin; congruence.
    + intros items Hn. congruence.
  - (* populated *)
    assert (clientset' = clientset) as -> by congruence.
    destruct (enriched_fields clientset
                (set_Nodes nodeInfos (Z.of_nat (length nodeInfos)) healthyNodes
                   (reachedStatus ci' version' restConfig')))
      as (HI & HE & _).
    exists status. split; [reflexivity|]. split; [subst status; rewrite HI; reflexivity|].
    split; [intros msg Hn; congruence|].
    intros items Hn. split; [subst status; rewrite HE; reflexivity|].
    split; [|split; [|split]].
    + intros msg Hns. subst status. unfold withPods, withNamespaces. rewrite Hns.
      destruct (ListPods clientset); reflexivity.
    + intros msg Hp. subst status. unfold withPods, withNamespaces. rewrite Hp.
      destruct (ListNamespaces clientset); repeat split.
    + exists (gateCalls p ctx contextName queryCtx discoveryCtx ++ [CallListNodes queryCtx]),
        queryCtx.
      rewrite Hcalls, <- !app_assoc. reflexivity.
    + eexists. split; [apply lookup_insert_eq | reflexivity].
Qed.

Lemma C3_partial_collection_failure_witness :
  let run := GetClusterStatus envNodesFail sampleProvider Go.Background "prod" start in
  exists st, run.1.2 = Ok st /\ IsReachable (Info st) = true
    /\ Error st = "Failed to list nodes: nodes is forbidden"
    /\ NodeCount st = 0 /\ run.1.1 = sampleProvider.
Proof.
  destruct (C3_partial_collection_failure envNodesFail sampleProvider Go.Background
              "prod" start prodInfo {| Host := "https://prod.example.com" |}
              {| ServerVersion := Ok "v1.28.0"; ListNodes := Err "nodes is forbidden";
                 ListNamespaces := Ok ["default"]; ListPods := Ok samplePods |}
              "v1.28.0" I eq_refl eq_refl eq_refl eq_refl)
    as (st & Hr & Hreach & Hfail & _).
  destruct (Hfail "nodes is forbidden" eq_refl) as (He & _ & Hn & _ & _ & Hp & _).
  exists st. repeat split; assumption.
Defined.

Lemma stale_mono (p : Provider) (contextName : string) (t t' : Z) :
  stale p contextName t -> t <= t' -> stale p contextName t'.
Proof.
  unfold stale. destruct (cache p !! contextName); [lia | trivial].
Qed.

(** A run that misses the cache for a configured context starts a probe:
    its first call is the client configuration for that context. *)
Lemma miss_probes (e : Env) (p : Provider) (ctx : Go.Context) (contextName : string)
    (s : PState) :
  stale p contextName (clock e (ticks s)) ->
  is_Some (clusters p !! contextName) ->
  exists new, calls (GetClusterStatus e p ctx contextName s).2
              = calls s ++ CallClientConfig (kubeconfigPath p) contextName :: new.
Proof.
  intros Hstale [ci Hci].
  outcome_cases e p ctx contextName s; cbn [snd]; rewrite Hcalls;
    unfold gateCalls; eexists; cbn [app]; reflexivity.
Qed.

(** C10. An invocation that misses the cache and whose probe fails (client
    construction, version probe or node listing) returns a status with a
    non-empty error and leaves the provider, hence the cache, exactly as it
    was; at any later instant the cache still has no live entry for the
    context, and a call for a configured context then starts a fresh
    probe.  No entry of the cache of a provider produced by the exported
    operations holds a failure status. *)
Theorem C10_failures_not_cached
    (e : Env) (p : Provider) (ctx : Go.Context) (contextName : string) (s : PState) :
  Reach anyVersion p ->
  stale p contextName (clock e (ticks s)) ->
  is_Some (clusters p !! contextName) ->
  probeFails e ->
  let run := GetClusterStatus e p ctx contextName s in
  run.1.1 = p
  /\ (exists st, run.1.2 = Ok st /\ Error st <> "")
  /\ (forall e2 ctx2 s2,
        clock e (ticks s) <= clock e2 (ticks s2) ->
        stale (run.1.1) contextName (clock e2 (ticks s2))
        /\ exists new,
             calls (GetClusterStatus e2 (run.1.1) ctx2 contextName s2).2
             = calls s2 ++ CallClientConfig (kubeconfigPath p) contextName :: new)
  /\ (forall k cached, cache p !! k = Some cached ->
        IsReachable (Info (Status cached)) = true /\ Error (Status cached) = "").
Proof.
  intros HR Hstale Hsome Hfail run.
  assert (Hp : run.1.1 = p /\ exists st, run.1.2 = Ok st /\ Error st <> "").
  { subst run. destruct Hsome as [ci Hci]. unfold probeFails in Hfail.
    outcome_cases e p ctx contextName s; cbn [fst snd];
      try (split; [reflexivity|]; eexists; split; [reflexivity|];
           cbn; apply append_nonempty; discriminate).
    rewrite Hcc', Hnc', Hv', Hn' in Hfail. destruct Hfail. }
  destruct Hp as [Hp Hst]. split; [exact Hp|]. split; [exact Hst|]. split.
  - intros e2 ctx2 s2 Hle. rewrite Hp.
    assert (Hstale2 : stale p contextName (clock e2 (ticks s2)))
      by (eapply stale_mono; eassumption).
    split; [exact Hstale2|]. apply miss_probes; assumption.
  - intros k cached Hk. destruct (Reach_wf _ _ HR) as [_ Hca].
    destruct (Hca k cached Hk) as (_ & Hr & He & _). split; assumption.
Qed.

Lemma C10_failures_not_cached_witness :
  (GetClusterStatus envVersionFails sampleProvider Go.Background "prod" start).1.1
  = sampleProvider.
Proof.
  refine (proj1 (C10_failures_not_cached envVersionFails sampleProvider Go.Background
                   "prod" start _ I _ I)).
  - exact (Reach_new anyVersion sampleLoad samplePath sampleProvider eq_refl).
  - exists prodInfo. reflexivity.
Defined.

(** ** Caching idempotence *)

(** C5 as stated fails: a first call whose version probe fails caches
    nothing, so a second call one second later probes again and returns a
    different status. *)
Lemma C5_caching_idempotence_counterexample :
  ~ cachingIdempotent sampleProvider envVersionFails envLater Go.Background "prod".
Proof.
  unfold cachingIdempotent. intros H.
  assert (Hwin : clock envVersionFails 0 <= clock envLater 0
                 <= clock envVersionFails 0 + cacheTTL sampleProvider)
    by (vm_compute; split; discriminate).
  destruct (H Hwin) as [_ Hcalls]. vm_compute in Hcalls. discriminate.
Qed.

(** C5, amended. A call that misses the cache for a configured context
    and whose probe does not fail stores the returned status under the
    context, expiring one TTL after the instant of the store; a call that
    hits the cache returns the cached status.  In both cases every call for
    that context whose lookup is not later than the expiry returns the
    identical status, leaves the provider as it is and makes no call to
    the cluster. *)
Theorem C5_caching_idempotence_amended
    (e1 : Env) (p : Provider) (ctx : Go.Context) (contextName : string) (s1 : PState) :
  is_Some (clusters p !! contextName) ->
  let run1 := GetClusterStatus e1 p ctx contextName s1 in
  (stale p contextName (clock e1 (ticks s1)) -> ~ probeFails e1 ->
   exists st n,
     run1.1.2 = Ok st /\ (ticks s1 < n)%nat
     /\ cache (run1.1.1) !! contextName
        = Some {| Status := st; ExpiresAt := Go.Add (clock e1 n) (cacheTTL p) |}
     /\ forall e2 ctx2 s2,
          clock e2 (ticks s2) <= Go.Add (clock e1 n) (cacheTTL p) ->
          GetClusterStatus e2 (run1.1.1) ctx2 contextName s2
          = (run1.1.1, Ok st, ticked s2))
  /\ (forall cached,
        cache p !! contextName = Some cached ->
        clock e1 (ticks s1) <= ExpiresAt cached ->
        run1 = (p, Ok (Status cached), ticked s1)
        /\ forall e2 ctx2 s2,
             clock e2 (ticks s2) <= ExpiresAt cached ->
             GetClusterStatus e2 (run1.1.1) ctx2 contextName s2
             = (run1.1.1, Ok (Status cached), ticked s2)).
Proof.
  intros [ci Hci] run1.
  assert (Hserved : forall e2 p2 ctx2 s2 cached,
            cache p2 !! contextName = Some cached ->
            clock e2 (ticks s2) <= ExpiresAt cached ->
            GetClusterStatus e2 p2 ctx2 contextName s2
            = (p2, Ok (Status cached), ticked s2)).
  { intros e2 p2 ctx2 s2 cached Hc Ht. unfold GetClusterStatus. unfold bind at 1.
    rewrite (getCachedStatus_hit e2 p2 contextName s2 cached Hc Ht). reflexivity. }
  split.
  - intros Hstale Hok. subst run1. unfold probeFails in Hok.
    outcome_cases e1 p ctx contextName s1; cbn [fst snd];
      try (exfalso; apply Hok; rewrite ?Hcc', ?Hnc', ?Hv', ?Hn'; exact I).
    exists status, n3. split; [reflexivity|]. split; [lia|].
    split; [apply lookup_insert_eq|].
    intros e2 ctx2 s2 Ht.
    apply (Hserved e2 _ ctx2 s2 {| Status := status;
                               ExpiresAt := Go.Add (clock e1 n3) (cacheTTL p) |});
      [apply lookup_insert_eq | exact Ht].
  - intros cached Hc Ht.
    assert (Hrun : run1 = (p, Ok (Status cached), ticked s1))
      by (apply Hserved; assumption).
    split; [exact Hrun|]. rewrite Hrun. cbn [fst].
    intros e2 ctx2 s2 Ht2. apply Hserved; assumption.
Qed.

Lemma C5_caching_idempotence_witness :
  exists st,
    (GetClusterStatus envHealthy sampleProvider Go.Background "prod" start).1.2 = Ok st
    /\ (GetClusterStatus envLater
          (GetClusterStatus envHealthy sampleProvider Go.Background "prod" start).1.1
          Go.Background "prod" start).1.2 = Ok st.
Proof.
  destruct (proj1 (C5_caching_idempotence_amended envHealthy sampleProvider
                     Go.Background "prod" start (ex_intro _ prodInfo eq_refl))
              I (fun H : probeFails envHealthy => H))
    as (st & n & Hr & Hn & Hc & Hsecond).
  exists st. split; [exact Hr|].
  rewrite (Hsecond envLater Go.Background start); [reflexivity|].
  change (sampleClock 0 + Go.Second <= sampleClock n + 60 * Go.Second).
  unfold sampleClock, Go.Hour, Go.Minute, Go.Second, Go.Millisecond,
    Go.Microsecond, Go.Nanosecond. lia.
Defined.

(** ** Reachability, error and version of a status *)

(** C2 as stated fails: when the node listing fails after a successful
    version probe the status is reachable and yet carries an error. *)
Lemma C2_mutual_exclusivity_counterexample :
  exists st,
    (GetClusterStatus envNodesFail sampleProvider Go.Background "prod" start).1.2 = Ok st
    /\ IsReachable (Info st) = true /\ Error st <> "" /\ ~ exclusive st.
Proof.
  eexists. split; [vm_compute; reflexivity|].
  split; [reflexivity|]. split; [discriminate|].
  intros [_ H]. destruct (H eq_refl) as [He _]. discriminate He.
Qed.

(** C2, amended. For a provider produced by the exported operations and
    environments whose clusters report versions accepted by [V]: a
    returned status that is not reachable has a non-empty error, an empty
    version and zero node, namespace and pod fields; a returned status that
    is reachable has a version accepted by [V], and its error is empty
    unless the node listing failed, in which case the error is the
    node-listing message and the node, namespace and pod fields are zero. *)
Theorem C2_mutual_exclusivity_amended
    (V : string -> Prop) (e : Env) (p : Provider) (ctx : Go.Context)
    (contextName : string) (s : PState) (st : ClusterStatus) :
  Reach V p -> reports V e ->
  (GetClusterStatus e p ctx contextName s).1.2 = Ok st ->
  (IsReachable (Info st) = false ->
     Error st <> "" /\ Version st = "" /\ noInventory st)
  /\ (IsReachable (Info st) = true ->
        V (Version st)
        /\ (Error st = ""
            \/ exists msg, Error st = "Failed to list nodes: " +:+ msg
                 /\ noInventory st)).
Proof.
  intros HR Hrep Hrun. destruct (Reach_wf V p HR) as [Hcl Hca].
  revert Hrun.
  outcome_cases e p ctx contextName s; cbn [fst snd]; intros [= <-].
  - (* served from the cache *)
    destruct (Hca _ _ Hhit) as (_ & Hr & He & Hv).
    split; [congruence|]. intros _. split; [exact Hv | left; exact He].
  - (* client configuration failed *)
    destruct (Hcl _ _ Hci') as [_ Hr]. cbn. split; [|congruence].
    intros _. split; [discriminate|]. repeat split.
  - (* clientset construction failed *)
    destruct (Hcl _ _ Hci') as [_ Hr]. cbn. split; [|congruence].
    intros _. split; [discriminate|]. repeat split.
  - (* version probe failed *)
    cbn. split; [|discriminate]. intros _. split; [discriminate|]. repeat split.
  - (* node listing failed *)
    cbn. split; [discriminate|]. intros _.
    split; [eapply Hrep; eassumption|]. right. eexists. repeat split.
  - (* populated *)
    destruct (enriched_fields clientset'
                (set_Nodes nodeInfos (Z.of_nat (length nodeInfos)) healthyNodes
                   (reachedStatus ci' version' restConfig')))
      as (HI & HE & HV & _).
    subst status. rewrite HI, HE, HV. cbn. split; [discriminate|]. intros _.
    split; [eapply Hrep; eassumption | left; reflexivity].
Qed.

Lemma C2_mutual_exclusivity_witness :
  exists st,
    (GetClusterStatus envVersionFails sampleProvider Go.Background "prod" start).1.2 = Ok st
    /\ Error st <> "" /\ Version st = "".
Proof.
  eexists. split; [vm_compute; reflexivity|].
  refine (let H := proj1 (C2_mutual_exclusivity_amended nonEmpty envVersionFails
                            sampleProvider Go.Background "prod" start _ _ _ eq_refl)
                     eq_refl in conj (proj1 H) (proj1 (proj2 H))).
  - exact (Reach_new nonEmpty sampleLoad samplePath sampleProvider eq_refl).
  - intros clientset v [= <-] [=].
Defined.

(** ** Entries of the loaded cluster set *)

Lemma GetClusterStatus_clusters (e : Env) (p : Provider) (ctx : Go.Context)
    (contextName : string) (s : PState) :
  clusters (GetClusterStatus e p ctx contextName s).1.1 = clusters p.
Proof.
  destruct (GetClusterStatus_outcome e p ctx contextName s); reflexivity.
Qed.

(** C9 as stated fails: [SetCurrentContext] rewrites the [IsCurrent] flag
    of the loaded entries. *)
Lemma C9_entries_immutable_counterexample :
  clusters (SetCurrentContext sampleProvider "dev").1 !! "prod"
  <> clusters sampleProvider !! "prod".
Proof. vm_compute. discriminate. Qed.

(** ** Fleet-wide aggregation *)

Lemma reports_any (e : Env) : reports anyVersion e.
Proof. intros clientset v _ _. exact I. Qed.

Lemma goroutine_spec (envs : nat -> Env) (ctx : Go.Context) (idx : nat)
    (contextName : string) (q : Provider) (statuses : list (option ClusterStatus)) :
  goroutine envs ctx idx contextName (q, statuses)
  = ((GetClusterStatus (envs idx) q ctx contextName start).1.1,
     <[idx := Some (slotOf contextName
                      (GetClusterStatus (envs idx) q ctx contextName start).1.2)]>
       statuses).
Proof.
  unfold goroutine.
  destruct (GetClusterStatus (envs idx) q ctx contextName start) as [[q' r] s'].
  destruct r; reflexivity.
Qed.

(** The loop of goroutines, started in any intermediate state. *)
Lemma goroutines_inv (envs : nat -> Env) (ctx : Go.Context) (p : Provider)
    (sched : list nat) :
  forall (q : Provider) (statuses : list (option ClusterStatus)),
    clusters q = clusters p ->
    (wf anyVersion p -> wf anyVersion q) ->
    length statuses = length (GetClusters p) ->
    let res :=
      foldl (fun st idx =>
               match GetClusters p !! idx with
               | Some cluster => goroutine envs ctx idx (Context cluster) st
               | None => st
               end) (q, statuses) sched in
    clusters res.1 = clusters p
    /\ (wf anyVersion p -> wf anyVersion res.1)
    /\ length res.2 = length (GetClusters p)
    /\ forall i, (i < length (GetClusters p))%nat ->
         i ∈ sched \/ filled envs ctx p statuses i ->
         filled envs ctx p res.2 i.
Proof.
  induction sched as [|idx rest IH]; intros q statuses Hq Hwf Hlen.
  - cbn. split; [exact Hq|]. split; [exact Hwf|]. split; [exact Hlen|].
    intros i _ [Hin|Hf]; [inversion Hin | exact Hf].
  - cbn [foldl]. destruct (GetClusters p !! idx) as [c|] eqn:Hidx.
    + rewrite goroutine_spec.
      set (run := GetClusterStatus (envs idx) q ctx (Context c) start).
      assert (Hq' : clusters run.1.1 = clusters p)
        by (subst run; rewrite GetClusterStatus_clusters; exact Hq).
      assert (Hwf' : wf anyVersion p -> wf anyVersion run.1.1).
      { intros Hp. subst run. apply GetClusterStatus_wf; [auto | apply reports_any]. }
      assert (Hlen' : length (<[idx := Some (slotOf (Context c) run.1.2)]> statuses)
                      = length (GetClusters p))
        by (rewrite length_insert; exact Hlen).
      destruct (IH _ _ Hq' Hwf' Hlen') as (H1 & H2 & H3 & H4).
      split; [exact H1|]. split; [exact H2|]. split; [exact H3|].
      intros i Hi Hcase. apply H4; [exact Hi|].
      destruct (decide (i = idx)) as [->|Hne].
      * right. exists c, q. split; [exact Hidx|]. split; [exact Hq|].
        split; [exact Hwf|]. apply list_lookup_insert_eq. lia.
      * destruct Hcase as [Hin|Hf].
        -- apply elem_of_cons in Hin as [->|Hin]; [congruence | left; exact Hin].
        -- right. destruct Hf as (c' & q' & Hc' & Hq2 & Hw2 & Hs).
           exists c', q'. split; [exact Hc'|]. split; [exact Hq2|].
           split; [exact Hw2|].
           rewrite list_lookup_insert_ne by congruence. exact Hs.
    + destruct (IH _ _ Hq Hwf Hlen) as (H1 & H2 & H3 & H4).
      split; [exact H1|]. split; [exact H2|]. split; [exact H3|].
      intros i Hi [Hin|Hf]; apply H4; try assumption.
      * apply elem_of_cons in Hin as [->|Hin]; [|left; exact Hin].
        apply lookup_ge_None in Hidx. lia.
      * right. exact Hf.
Qed.

Lemma GetClusterStatus_context (V : string -> Prop) (e : Env) (p : Provider)
    (ctx : Go.Context) (contextName : string) (s : PState) (st : ClusterStatus) :
  wf V p ->
  (GetClusterStatus e p ctx contextName s).1.2 = Ok st ->
  Context (Info st) = contextName.
Proof.
  intros [Hcl Hca]. 
  destruct (GetClusterStatus_outcome e p ctx contextName s)
    as [ cached Hhit Hlive | | | | | |
         ci restConfig clientset version items nodeInfos healthyNodes n1 n3 s'
         Hstale Hci Hcc Hnc Hv Hn Hle queryCtx discoveryCtx status Hlt Hcalls ];
    cbn [fst snd]; intros [= <-];
    try (cbn; match goal with
              | H : clusters p !! contextName = Some ?ci |- _ =>
                  apply (Hcl _ _ H)
              end).
  - apply (Hca _ _ Hhit).
  - subst status.
    destruct (enriched_fields clientset
                (set_Nodes nodeInfos (Z.of_nat (length nodeInfos)) healthyNodes
                   (reachedStatus ci version restConfig))) as (-> & _).
    cbn. apply (Hcl _ _ Hci).
Qed.

Example all_statuses_run :
  (fun o => option_map (fun st => (Context (Info st), IsReachable (Info st), Error st)) o)
    <$> (GetAllClusterStatusesIn ["prod"; "dev"] [1%nat; 0%nat] sampleEnvs sampleProvider
           Go.Background).2
  = [ Some ("prod", true, "");
      Some ("dev", false, "Failed to reach cluster: dial tcp: i/o timeout") ].
Proof. vm_compute. reflexivity. Qed.

(** C9, amended. Probing one context or all of them, clearing the cache and
    setting the TTL leave every entry as it is.  [SetCurrentContext] for an
    unknown context changes nothing; for a known one it keeps the set of
    entries and every field of every entry except [IsCurrent], which becomes
    true exactly for the entry of the new current context. *)
Theorem C9_entries_immutable_amended :
  (forall e p ctx contextName s,
     clusters (GetClusterStatus e p ctx contextName s).1.1 = clusters p)
  /\ (forall sched envs p ctx,
        clusters (GetAllClusterStatuses sched envs p ctx).1 = clusters p)
  /\ (forall p, clusters (ClearCache p) = clusters p)
  /\ (forall p ttl, clusters (SetCacheTTL p ttl) = clusters p)
  /\ (forall p contextName,
        clusters p !! contextName = None -> (SetCurrentContext p contextName).1 = p)
  /\ (forall p contextName k,
        is_Some (clusters p !! contextName) ->
        match clusters p !! k, clusters (SetCurrentContext p contextName).1 !! k with
        | Some c, Some c' =>
            Name c' = Name c /\ Server c' = Server c /\ Context c' = Context c
            /\ User c' = User c /\ Namespace c' = Namespace c
            /\ IsReachable c' = IsReachable c
            /\ IsCurrent c' = String.eqb (Context c) contextName
        | None, None => True
        | _, _ => False
        end).
Proof.
  split; [apply GetClusterStatus_clusters|].
  split.
  { intros sched envs p ctx.
    assert (Hlen0 : length (replicate (length (GetClusters p)) (@None ClusterStatus))
                    = length (GetClusters p)) by apply length_replicate.
    destruct (goroutines_inv envs ctx p sched p _ eq_refl (fun H => H) Hlen0)
      as (Hcl & _). exact Hcl. }
  split; [reflexivity|]. split; [reflexivity|]. split.
  - intros p contextName Hnone. unfold SetCurrentContext. rewrite Hnone. reflexivity.
  - intros p contextName k [target Ht]. unfold SetCurrentContext. rewrite Ht.
    cbn [fst clusters]. rewrite lookup_fmap.
    destruct (clusters p !! k) as [c|]; cbn; [repeat split | exact I].
Qed.

(** ** Deadlines *)

Lemma WithTimeout_deadline (parent : Go.Context) (t d : Z) :
  exists dl, Go.WithTimeout parent t d = Some dl
    /\ dl <= t + d
    /\ (forall tc, parent = Some tc -> dl <= tc)
    /\ (parent = None -> dl = t + d).
Proof.
  unfold Go.WithTimeout, Go.Add. destruct parent as [cur|].
  - case_bool_decide; eexists; (split; [reflexivity|]);
      (split; [lia|]); (split; [intros tc [= <-]; lia | discriminate]).
  - eexists. split; [reflexivity|]. split; [lia|].
    split; [discriminate | reflexivity].
Qed.

(** C7 as stated fails: in a probe started without caller deadline every
    listing runs under a deadline of 10 seconds, not 30; the discovery
    context has the same deadline as the query context, not a strictly
    earlier one; and the discovery call is given no context at all. *)
Lemma C7_probe_deadlines_counterexample :
  let tr := calls (GetClusterStatus envHealthy sampleProvider Go.Background "prod" start).2 in
  let t0 := clock envHealthy 0 in
  tr = [ CallClientConfig samplePath "prod"; CallNewForConfig;
         CallWithTimeout None (10 * Go.Second) (Some (t0 + 10 * Go.Second));
         CallWithTimeout (Some (t0 + 10 * Go.Second)) DiscoveryTimeout
           (Some (t0 + 10 * Go.Second));
         CallServerVersion;
         CallListNodes (Some (t0 + 10 * Go.Second));
         CallListNamespaces (Some (t0 + 10 * Go.Second));
         CallListPods (Some (t0 + 10 * Go.Second)) ]
  /\ ~ deadlinesAsSpecified t0 tr.
Proof.
  split; [vm_compute; reflexivity|].
  intros (overall & sub & _ & _ & _ & _ & Hbound).
  assert (Hin : CallServerVersion ∈ calls
            (GetClusterStatus envHealthy sampleProvider Go.Background "prod" start).2).
  { vm_compute. repeat constructor. }
  specialize (Hbound Hin). discriminate Hbound.
Qed.

(** C7, amended. A probe that reaches the version probe derives from the
    caller's context a query context that expires at most 10 seconds after
    its creation and not after the caller's deadline, and from it a
    discovery context with [DiscoveryTimeout] = 10 s (shorter than
    [DefaultAPITimeout] = 30 s) whose deadline is never later than the
    query context's, and the same when the clock does not run backwards.
    The discovery call is given no context, so no deadline bounds it; every
    listing that follows is given the query context.  A failed version
    probe surfaces as an unreachable status with a [Failed to reach
    cluster] error for that context, the provider being left as it was. *)
Theorem C7_probe_deadlines_amended
    (e : Env) (p : Provider) (ctx : Go.Context) (contextName : string) (s : PState)
    (ci : ClusterInfo) (restConfig : RestConfig) (clientset : Clientset) :
  stale p contextName (clock e (ticks s)) ->
  clusters p !! contextName = Some ci ->
  ClientConfig e = Ok restConfig ->
  NewForConfig e = Ok clientset ->
  let run := GetClusterStatus e p ctx contextName s in
  exists (n1 : nat) (tq td : Z) (more : list Event),
    (ticks s <= n1)%nat
    /\ Go.WithTimeout ctx (clock e n1) (10 * Go.Second) = Some tq
    /\ Go.WithTimeout (Some tq) (clock e (S n1)) DiscoveryTimeout = Some td
    /\ tq <= clock e n1 + 10 * Go.Second
    /\ (forall tc, ctx = Some tc -> tq <= tc)
    /\ td <= tq
    /\ (clock e n1 <= clock e (S n1) -> td = tq)
    /\ calls (run.2) = calls s ++ gateCalls p ctx contextName (Some tq) (Some td) ++ more
    /\ deadlineOf CallServerVersion = None
    /\ (forall ev, ev ∈ more -> deadlineOf ev = Some tq)
    /\ (forall msg, ServerVersion clientset = Err msg ->
          run.1.1 = p
          /\ exists st, run.1.2 = Ok st /\ IsReachable (Info st) = false
               /\ Error st = "Failed to reach cluster: " +:+ msg)
    /\ DiscoveryTimeout = 10 * Go.Second
    /\ DefaultAPITimeout = 30 * Go.Second
    /\ DiscoveryTimeout < DefaultAPITimeout.
Proof.
  intros Hstale Hci Hcc Hnc run. subst run.
  assert (Hdl : forall n1 : nat,
            exists tq td,
              Go.WithTimeout ctx (clock e n1) (10 * Go.Second) = Some tq
              /\ Go.WithTimeout (Some tq) (clock e (S n1)) DiscoveryTimeout = Some td
              /\ tq <= clock e n1 + 10 * Go.Second
              /\ (forall tc, ctx = Some tc -> tq <= tc)
              /\ td <= tq
              /\ (clock e n1 <= clock e (S n1) -> td = tq)).
  { intros n1.
    destruct (WithTimeout_deadline ctx (clock e n1) (10 * Go.Second))
      as (tq & Hq & Hq1 & Hq2 & _).
    destruct (WithTimeout_deadline (Some tq) (clock e (S n1)) DiscoveryTimeout)
      as (td & Hd & Hd1 & Hd2 & _).
    exists tq, td. repeat (split; [assumption|]). split; [apply Hd2; reflexivity|].
    intros Hmono. revert Hd. unfold Go.WithTimeout, Go.Add, DiscoveryTimeout.
    case_bool_decide; intros [= <-]; lia. }
  outcome_cases e p ctx contextName s; cbn [fst snd];
    destruct (Hdl n1) as (tq & td & Hq & Hd & H1 & H2 & H3 & H4);
    subst queryCtx discoveryCtx; rewrite ?Hq in *; rewrite ?Hd in *;
    exists n1, tq, td.
  - exists []. repeat (split; [first [assumption | reflexivity]|]).
    split; [intros ev Hev; inversion Hev|].
    split; [|repeat split; vm_compute; reflexivity].
    intros msg Hv. assert (msg = msg') as -> by congruence.
    split; [reflexivity|]. eexists. repeat split.
  - exists [CallListNodes (Some tq)]. repeat (split; [first [assumption | reflexivity]|]).
    split; [intros ev Hev; apply list_elem_of_singleton in Hev as ->; reflexivity|].
    split; [intros msg Hv; congruence|]. repeat split; vm_compute; reflexivity.
  - exists [CallListNodes (Some tq); CallListNamespaces (Some tq); CallListPods (Some tq)].
    repeat (split; [first [assumption | reflexivity]|]).
    split.
    { intros ev Hev. rewrite !elem_of_cons, elem_of_nil in Hev.
      decompose [or] Hev; subst; try reflexivity; contradiction. }
    split; [intros msg Hv; congruence|]. repeat split; vm_compute; reflexivity.
Qed.

Lemma C7_probe_deadlines_witness :
  exists st,
    (GetClusterStatus envVersionFails sampleProvider Go.Background "prod" start).1.2 = Ok st
    /\ IsReachable (Info st) = false
    /\ Error st = "Failed to reach cluster: dial tcp: i/o timeout".
Proof.
  destruct (C7_probe_deadlines_amended envVersionFails sampleProvider Go.Background
              "prod" start prodInfo {| Host := "https://prod.example.com" |}
              {| ServerVersion := Err "dial tcp: i/o timeout"; ListNodes := Ok sampleNodes;
                 ListNamespaces := Ok ["default"]; ListPods := Ok samplePods |}
              I eq_refl eq_refl eq_refl)
    as (n1 & tq & td & more & _ & _ & _ & _ & _ & _ & _ & _ & _ & _ & Hfail & _).
  destruct (Hfail "dial tcp: i/o timeout" eq_refl) as (_ & st & Hr & Hreach & Herr).
  exists st. repeat split; assumption.
Defined.

(** ** The repository's unit tests, replayed on the model *)

(** [TestIsPodHealthy]. *)
Example test_isPodHealthy :
  let pod phase ready :=
    {| podName := ""; podNamespace := ""; podPhase := phase; podReason := "";
       podContainerStatuses :=
         map (fun r => {| csReady := r; csRestartCount := 0; csWaiting := None;
                          csTerminated := None |}) ready |} in
  isPodHealthy (pod PodRunning [true]) = true
  /\ isPodHealthy (pod PodRunning [false]) = false
  /\ isPodHealthy (pod PodPending []) = false
  /\ isPodHealthy (pod PodFailed []) = false
  /\ isPodHealthy (pod PodSucceeded []) = false.
Proof. repeat split. Qed.

(** Node readiness: the [Ready] condition decides, its absence is
    [Unknown]. *)
Example test_nodeReadiness :
  nodeReadiness [ {| ncType := "Ready"; ncStatus := "True" |} ] = ("Ready", true)
  /\ nodeReadiness [ {| ncType := "Ready"; ncStatus := "False" |} ] = ("NotReady", false)
  /\ nodeReadiness [ {| ncType := "DiskPressure"; ncStatus := "True" |} ]
     = ("Unknown", false).
Proof. repeat split. Qed.

(** [TestSetCurrentContext]. *)
Example test_SetCurrentContext :
  let p := (SetCurrentContext sampleProvider "dev").1 in
  GetCurrentContext p = "dev"
  /\ IsCurrent <$> clusters p !! "dev" = Some true
  /\ IsCurrent <$> clusters p !! "prod" = Some false
  /\ (SetCurrentContext sampleProvider "does-not-exist").2
     = Err ("cluster context " +:+ Go.quote "does-not-exist" +:+ " not found").
Proof. vm_compute. repeat split. Qed.

(** [TestGetClusterStatusInvalidContext]. *)
Example test_GetClusterStatus_invalid_context :
  GetClusterStatus envHealthy sampleProvider Go.Background "non-existent-context" start
  = (sampleProvider,
     Err ("cluster context " +:+ Go.quote "non-existent-context" +:+ " not found"),
     start).
Proof. vm_compute. reflexivity. Qed.

(** [TestCacheExpiration]: an entry stored with a TTL of 10 ms is served
    at once and gone 15 ms later. *)
Example test_cache_expiration :
  let p := SetCacheTTL sampleProvider (10 * Go.Millisecond) in
  let st := newStatus prodInfo in
  let p' := (cacheStatus envHealthy p "prod" st start).1 in
  (getCachedStatus envHealthy p' "prod" (ticked start)).1 = Some st
  /\ (getCachedStatus envHealthy p' "prod" {| ticks := 15; calls := [] |}).1 = None.
Proof. vm_compute. split; reflexivity. Qed.

(** * Further properties of the code *)

Import Inventory.

(** ** Collectors *)

Lemma nodeReadiness_status (conds : list NodeCondition) :
  ((nodeReadiness conds).1 = "Ready" /\ (nodeReadiness conds).2 = true)
  \/ (((nodeReadiness conds).1 = "NotReady" \/ (nodeReadiness conds).1 = "Unknown")
      /\ (nodeReadiness conds).2 = false).
Proof.
  induction conds as [|c rest IH]; cbn.
  - right. split; [right; reflexivity | reflexivity].
  - destruct (String.eqb (ncType c) NodeReady); [|exact IH].
    destruct (String.eqb (ncStatus c) ConditionTrue); cbn.
    + left. split; reflexivity.
    + right. split; [left; reflexivity | reflexivity].
Qed.

Lemma nodeLoop_cons (e : Env) (node : Node) (rest : list Node)
    (acc : list NodeInfo) (h : Z) (s : PState) :
  nodeLoop e (node :: rest) acc h s
  = nodeLoop e rest
      (acc ++ [ {| niName := nodeName node;
                   niStatus := (nodeReadiness (nodeConditions node)).1;
                   niRoles := getNodeRoles node;
                   niAge := Go.DurationString
                              (Go.Round (Go.Sub (clock e (ticks s))
                                           (nodeCreationTimestamp node)) Go.Hour) |} ])
      (if readyNode node then Go.int64 (h + 1) else h)
      (ticked s).
Proof.
  cbn [nodeLoop]. unfold bind, now, readyNode.
  destruct (nodeReadiness (nodeConditions node)) as [st ready]. reflexivity.
Qed.

Lemma nodeLoop_spec (e : Env) (items : list Node) :
  forall (acc : list NodeInfo) (h : Z) (s : PState),
    0 <= h -> h + Z.of_nat (length items) <= Go.maxInt64 ->
    map niName (nodeLoop e items acc h s).1.1 = map niName acc ++ map nodeName items
    /\ map niStatus (nodeLoop e items acc h s).1.1
       = map niStatus acc ++ map (fun n => (nodeReadiness (nodeConditions n)).1) items
    /\ map niRoles (nodeLoop e items acc h s).1.1
       = map niRoles acc ++ map getNodeRoles items
    /\ (nodeLoop e items acc h s).1.2
       = h + Z.of_nat (length (List.filter readyNode items)).
Proof.
  induction items as [|node rest IH]; intros acc h s Hh Hmax.
  - cbn. rewrite !app_nil_r, Z.add_0_r. repeat split.
  - rewrite nodeLoop_cons. cbn [length] in Hmax. cbn [List.filter].
    assert (Hmin : Go.minInt64 <= 0) by (unfold Go.minInt64; lia).
    assert (Hh' : (if readyNode node then Go.int64 (h + 1) else h)
                  = h + (if readyNode node then 1 else 0)).
    { destruct (readyNode node); [apply int64_small|]; lia. }
    rewrite Hh'.
    match goal with
    | |- context [nodeLoop e rest ?acc' ?h' ?s'] =>
        destruct (IH acc' h' s') as (H1 & H2 & H3 & H4);
          [destruct (readyNode node); lia | destruct (readyNode node); lia |]
    end.
    rewrite H1, H2, H3, H4, !map_app. cbn [map niName niStatus niRoles].
    rewrite <- !app_assoc. cbn [app].
    repeat (split; [reflexivity|]).
    destruct (readyNode node); cbn [length]; lia.
Qed.

Lemma filter_ext_map {A B} (f : A -> B) (g : B -> bool) (l : list A) :
  List.filter g (map f l) = map f (List.filter (fun x => g (f x)) l).
Proof.
  induction l as [|x l IH]; cbn; [reflexivity|].
  destruct (g (f x)); cbn; rewrite IH; reflexivity.
Qed.

Lemma length_filter_map_status (g : string -> bool) (l : list NodeInfo) :
  length (List.filter (fun ni => g (niStatus ni)) l)
  = length (List.filter g (map niStatus l)).
Proof. rewrite filter_ext_map, length_map. reflexivity. Qed.

Lemma readyNode_status (node : Node) :
  String.eqb (nodeReadiness (nodeConditions node)).1 "Ready" = readyNode node.
Proof.
  unfold readyNode.
  destruct (nodeReadiness_status (nodeConditions node)) as [[-> ->]|[[->| ->] ->]];
    reflexivity.
Qed.

Lemma length_filter_le {A} (f : A -> bool) (l : list A) :
  (length (List.filter f l) <= length l)%nat.
Proof. induction l as [|x l IH]; cbn; [lia|]. destruct (f x); cbn; lia. Qed.

(** X1. A successful node listing of [n] nodes (no more than a slice can
    hold) yields [n] node infos in listing order, named and given roles
    after the nodes; each status is Ready, NotReady or Unknown, decided by
    the first condition of type Ready; the healthy count is the number of
    infos with status Ready, hence between 0 and [n].  A failed listing is
    returned as that error. *)
Theorem X1_collectNodeInfo_inventory
    (e : Env) (ctx : Go.Context) (clientset : Clientset) (s : PState) :
  (forall items, ListNodes clientset = Ok items ->
     Z.of_nat (length items) <= Go.maxInt64 ->
     exists nodeInfos healthy,
       (collectNodeInfo e ctx clientset s).1 = Ok (nodeInfos, healthy)
       /\ length nodeInfos = length items
       /\ map niName nodeInfos = map nodeName items
       /\ map niRoles nodeInfos = map getNodeRoles items
       /\ map niStatus nodeInfos
          = map (fun n => (nodeReadiness (nodeConditions n)).1) items
       /\ Forall (fun ni => niStatus ni = "Ready" \/ niStatus ni = "NotReady"
                            \/ niStatus ni = "Unknown") nodeInfos
       /\ healthy
          = Z.of_nat (length (List.filter (fun ni => String.eqb (niStatus ni) "Ready")
                                nodeInfos))
       /\ 0 <= healthy <= Z.of_nat (length nodeInfos))
  /\ (forall msg, ListNodes clientset = Err msg ->
        (collectNodeInfo e ctx clientset s).1 = Err msg).
Proof.
  split.
  - intros items Hn Hmax. unfold collectNodeInfo, bind, call, ret. rewrite Hn.
    match goal with
    | |- context [nodeLoop e items [] 0 ?s0] =>
        destruct (nodeLoop_spec e items [] 0 s0) as (H1 & H2 & H3 & H4); [lia | lia |];
        destruct (nodeLoop e items [] 0 s0) as [[nodeInfos healthy] s1]
    end.
    cbn [fst snd map app] in *. exists nodeInfos, healthy.
    assert (Hlen : length nodeInfos = length items).
    { rewrite <- (length_map niName nodeInfos), H1, length_map. reflexivity. }
    assert (Hcount : healthy
              = Z.of_nat (length (List.filter (fun ni => String.eqb (niStatus ni) "Ready")
                                    nodeInfos))).
    { rewrite H4, Z.add_0_l.
      rewrite (length_filter_map_status (fun st => String.eqb st "Ready")), H2.
      rewrite filter_ext_map, length_map. do 2 f_equal.
      clear. induction items as [|n l IH]; cbn; [reflexivity|].
      rewrite readyNode_status, IH. reflexivity. }
    split; [reflexivity|]. split; [exact Hlen|]. split; [exact H1|].
    split; [exact H3|]. split; [exact H2|]. split; [|split; [exact Hcount|]].
    + apply Forall_forall. intros ni Hin.
      assert (Hst : niStatus ni ∈ map niStatus nodeInfos)
        by (apply list_elem_of_fmap; exists ni; split; [reflexivity|exact Hin]).
      rewrite H2 in Hst. apply list_elem_of_fmap in Hst as (n & -> & _).
      destruct (nodeReadiness_status (nodeConditions n)) as [[-> _]|[[->| ->] _]]; auto.
    + rewrite Hcount. split; [lia|].
      apply inj_le, length_filter_le.
  - intros msg Hn. unfold collectNodeInfo, bind, call, ret. rewrite Hn. reflexivity.
Qed.

Lemma substring_all (s : string) : String.substring 0 (String.length s) s = s.
Proof. induction s as [|c s IH]; cbn; [reflexivity | rewrite IH; reflexivity]. Qed.

Lemma HasPrefix_split (s p : string) :
  Go.HasPrefix s p = true -> s = p +:+ Go.TrimPrefix s p.
Proof.
  unfold Go.TrimPrefix. intros H. rewrite H. unfold Go.HasPrefix in H.
  revert s H. induction p as [|c p IH]; intros s H.
  - cbn. rewrite Nat.sub_0_r, substring_all. reflexivity.
  - destruct s as [|d s]; cbn in H; [discriminate|].
    destruct (Ascii.ascii_dec c d) as [->|]; [|discriminate].
    change (String d s
            = String d (p +:+ String.substring (String.length p)
                                (String.length s - String.length p) s)).
    f_equal. apply IH, H.
Qed.

Lemma collectRoles_spec (labels : list string) :
  forall roles, collectRoles labels roles = roles ++ omap roleOf labels.
Proof.
  induction labels as [|label rest IH]; intros roles; cbn.
  - rewrite app_nil_r. reflexivity.
  - unfold roleOf at 1.
    destruct (Go.HasPrefix label roleLabelPrefix); [|apply IH].
    destruct (String.eqb (Go.TrimPrefix label roleLabelPrefix) ""); cbn; [apply IH|].
    rewrite IH, <- app_assoc. reflexivity.
Qed.

(** X2. The role list of a node is never empty: it is [worker] alone
    when no label is the role prefix followed by a non-empty role, and
    otherwise the roles of such labels, in the order the labels are
    visited, each role being what follows the prefix in its label. *)
Theorem X2_getNodeRoles_never_empty (node : Node) :
  getNodeRoles node <> []
  /\ (omap roleOf (nodeLabels node) = [] -> getNodeRoles node = ["worker"])
  /\ (omap roleOf (nodeLabels node) <> [] ->
        getNodeRoles node = omap roleOf (nodeLabels node))
  /\ (forall label role, roleOf label = Some role ->
        label = roleLabelPrefix +:+ role /\ role <> "").
Proof.
  unfold getNodeRoles. rewrite collectRoles_spec, app_nil_l.
  split; [|split; [|split]].
  - destruct (omap roleOf (nodeLabels node)); cbn; discriminate.
  - intros ->. reflexivity.
  - intros Hne. destruct (omap roleOf (nodeLabels node)); [congruence | reflexivity].
  - intros label role. unfold roleOf.
    destruct (Go.HasPrefix label roleLabelPrefix) eqn:Hp; [|discriminate].
    destruct (String.eqb (Go.TrimPrefix label roleLabelPrefix) "") eqn:He; [discriminate|].
    intros [= <-]. split; [apply HasPrefix_split, Hp|].
    intros Hr. rewrite Hr in He. discriminate.
Qed.

(** ** The cache *)

(** X3. Round trip of the cache: after [cacheStatus] stores a status for a
    context at instant [t], a lookup for that context returns exactly that
    status as long as the lookup instant is not after [t] plus the TTL, and
    nothing once it is; lookups for every other context answer as before;
    a second store for the same context replaces the first. *)
Theorem X3_cache_round_trip
    (e : Env) (p : Provider) (contextName : string) (st : ClusterStatus) (s : PState) :
  let p' := (cacheStatus e p contextName st s).1 in
  let expiry := Go.Add (clock e (ticks s)) (cacheTTL p) in
  (forall e2 s2, clock e2 (ticks s2) <= expiry ->
     getCachedStatus e2 p' contextName s2 = (Some st, ticked s2))
  /\ (forall e2 s2, expiry < clock e2 (ticks s2) ->
        getCachedStatus e2 p' contextName s2 = (None, ticked s2))
  /\ (forall k e2 s2, k <> contextName ->
        getCachedStatus e2 p' k s2 = getCachedStatus e2 p k s2)
  /\ (forall e2 st2 s2,
        cache (cacheStatus e2 p' contextName st2 s2).1 !! contextName
        = Some {| Status := st2;
                  ExpiresAt := Go.Add (clock e2 (ticks s2)) (cacheTTL p) |})
  /\ sameButCache p p'.
Proof.
  intros p' expiry. subst p' expiry.
  unfold cacheStatus, bind, now, ret. cbn [fst].
  split; [|split; [|split; [|split]]].
  - intros e2 s2 Ht.
    apply (getCachedStatus_hit e2 _ contextName s2
             {| Status := st; ExpiresAt := Go.Add (clock e (ticks s)) (cacheTTL p) |});
      [apply lookup_insert_eq | exact Ht].
  - intros e2 s2 Ht. unfold getCachedStatus, bind, now, ret, Go.After.
    cbn [cache set_cache]. rewrite lookup_insert_eq. cbn [ExpiresAt].
    rewrite bool_decide_eq_true_2 by exact Ht. reflexivity.
  - intros k e2 s2 Hne. unfold getCachedStatus. cbn [cache set_cache].
    rewrite lookup_insert_ne by congruence. reflexivity.
  - intros e2 st2 s2. cbn. apply lookup_insert_eq.
  - repeat split.
Qed.

(** X4. [ClearCache] forgets every entry and touches nothing else: each
    lookup misses without reading the clock, and the next
    [GetClusterStatus] for a configured context starts a fresh probe, at
    whatever instant it is made. *)
Theorem X4_ClearCache_forgets
    (p : Provider) (e : Env) (ctx : Go.Context) (contextName : string) (s : PState) :
  getCachedStatus e (ClearCache p) contextName s = (None, s)
  /\ sameButCache p (ClearCache p)
  /\ (is_Some (clusters p !! contextName) ->
      exists new,
        calls (GetClusterStatus e (ClearCache p) ctx contextName s).2
        = calls s ++ CallClientConfig (kubeconfigPath p) contextName :: new).
Proof.
  split; [|split].
  - unfold getCachedStatus, ClearCache. cbn. rewrite lookup_empty. reflexivity.
  - repeat split.
  - intros Hsome.
    apply (miss_probes e (ClearCache p) ctx contextName s); [|exact Hsome].
    unfold stale, ClearCache. cbn. rewrite lookup_empty. exact I.
Qed.

Lemma X4_ClearCache_witness :
  exists new,
    calls (GetClusterStatus envLater
             (ClearCache (GetClusterStatus envHealthy sampleProvider Go.Background
                            "prod" start).1.1)
             Go.Background "prod" start).2
    = CallClientConfig samplePath "prod" :: new.
Proof.
  refine (proj2 (proj2 (X4_ClearCache_forgets
            (GetClusterStatus envHealthy sampleProvider Go.Background "prod" start).1.1
            envLater Go.Background "prod" start)) _).
  exists prodInfo. rewrite GetClusterStatus_clusters. reflexivity.
Defined.

(** A probe that misses the cache and does not fail stores what it returns. *)
Lemma populated_run (e : Env) (p : Provider) (ctx : Go.Context) (contextName : string)
    (s : PState) :
  stale p contextName (clock e (ticks s)) ->
  is_Some (clusters p !! contextName) ->
  ~ probeFails e ->
  exists st n,
    (ticks s < n)%nat
    /\ (GetClusterStatus e p ctx contextName s).1
       = (set_cache (<[contextName :=
                         {| Status := st;
                            ExpiresAt := Go.Add (clock e n) (cacheTTL p) |}]> (cache p)) p,
          Ok st).
Proof.
  intros Hstale [ci Hci] Hok. unfold probeFails in Hok.
  outcome_cases e p ctx contextName s; cbn [fst snd];
    try (exfalso; apply Hok; rewrite ?Hcc', ?Hnc', ?Hv', ?Hn'; exact I).
  exists status, n3. split; [lia | reflexivity].
Qed.

(** X5. [SetCacheTTL] changes the TTL and nothing else: lookups answer as
    before, so entries already cached keep their expiry.  A probe that then
    misses the cache and succeeds stores its status with the new TTL from
    the instant of the store: a call whose lookup is later than that
    instant plus the TTL probes the cluster again. *)
Theorem X5_SetCacheTTL_future_puts_only
    (p : Provider) (ttl : Z) (e : Env) (ctx : Go.Context) (contextName : string)
    (s : PState) :
  is_Some (clusters p !! contextName) ->
  getCachedStatus e (SetCacheTTL p ttl) contextName s = getCachedStatus e p contextName s
  /\ cache (SetCacheTTL p ttl) = cache p
  /\ (stale p contextName (clock e (ticks s)) -> ~ probeFails e ->
      let run := GetClusterStatus e (SetCacheTTL p ttl) ctx contextName s in
      exists st n,
        (ticks s < n)%nat
        /\ run.1.2 = Ok st
        /\ cache (run.1.1) !! contextName
           = Some {| Status := st; ExpiresAt := Go.Add (clock e n) ttl |}
        /\ forall e2 ctx2 s2,
             Go.Add (clock e n) ttl < clock e2 (ticks s2) ->
             exists new,
               calls (GetClusterStatus e2 (run.1.1) ctx2 contextName s2).2
               = calls s2 ++ CallClientConfig (kubeconfigPath p) contextName :: new).
Proof.
  intros Hsome. split; [reflexivity|]. split; [reflexivity|].
  intros Hstale Hok run. subst run.
  destruct (populated_run e (SetCacheTTL p ttl) ctx contextName s Hstale Hsome Hok)
    as (st & n & Hn & Hrun).
  rewrite Hrun. cbn [fst snd]. exists st, n.
  split; [exact Hn|]. split; [reflexivity|].
  split; [apply lookup_insert_eq|].
  intros e2 ctx2 s2 Hlate.
  match goal with
  | |- context [GetClusterStatus e2 ?q ctx2 contextName s2] =>
      apply (miss_probes e2 q ctx2 contextName s2); [|exact Hsome]
  end.
  unfold stale. cbn [cache set_cache]. rewrite lookup_insert_eq. exact Hlate.
Qed.

Lemma X5_SetCacheTTL_witness :
  getCachedStatus envHealthy (SetCacheTTL sampleProvider (10 * Go.Millisecond)) "prod" start
  = getCachedStatus envHealthy sampleProvider "prod" start.
Proof.
  exact (proj1 (X5_SetCacheTTL_future_puts_only sampleProvider (10 * Go.Millisecond)
                  envHealthy Go.Background "prod" start
                  (ex_intro _ prodInfo eq_refl))).
Defined.

(** ** What a probe changes *)

Lemma GetClusterStatus_cache_other (e : Env) (p : Provider) (ctx : Go.Context)
    (contextName : string) (s : PState) (k : string) :
  k <> contextName ->
  cache (GetClusterStatus e p ctx contextName s).1.1 !! k = cache p !! k.
Proof.
  intros Hne.
  destruct (GetClusterStatus_outcome e p ctx contextName s); cbn [fst]; try reflexivity.
  cbn. rewrite lookup_insert_ne by congruence. reflexivity.
Qed.

(** X6. [GetClusterStatus] changes nothing of the provider but the cache
    entry of the probed context: path, configuration, entries, current
    context, TTL and every other cache entry are as before; the entry of
    the probed context is either as before or holds exactly the status
    that is returned. *)
Theorem X6_GetClusterStatus_frame
    (e : Env) (p : Provider) (ctx : Go.Context) (contextName : string) (s : PState) :
  let run := GetClusterStatus e p ctx contextName s in
  sameButCache p (run.1.1)
  /\ (forall k, k <> contextName -> cache (run.1.1) !! k = cache p !! k)
  /\ (cache (run.1.1) !! contextName = cache p !! contextName
      \/ exists st expiry,
           run.1.2 = Ok st
           /\ cache (run.1.1) !! contextName
              = Some {| Status := st; ExpiresAt := expiry |}).
Proof.
  intros run. subst run.
  destruct (GetClusterStatus_outcome e p ctx contextName s); cbn [fst snd];
    try (split; [repeat split|]; split; [reflexivity | left; reflexivity]).
  split; [repeat split|]. split.
  - intros k Hne. cbn. rewrite lookup_insert_ne by congruence. reflexivity.
  - right. eexists _, _. split; [reflexivity|]. cbn. apply lookup_insert_eq.
Qed.

(** ** Invariants of the provider *)

Lemma NewProvider_entry (LoadFromFile : string -> result Config) (path : string)
    (p : Provider) (k : string) (c : ClusterInfo) :
  NewProvider LoadFromFile path = Ok p -> clusters p !! k = Some c ->
  Context c = k /\ IsCurrent c = String.eqb k (currentContext p) /\ cache p = ∅.
Proof.
  intros Hp. destruct (LoadFromFile path) as [raw|msg] eqn:Hload.
  - destruct (NewProvider_Ok LoadFromFile path raw Hload)
      as (p' & Hp' & _ & _ & Hcur & Hcache & _ & Hlk).
    assert (p' = p) as -> by congruence.
    rewrite Hlk, Hcur.
    destruct (Contexts raw !! k) as [ci|]; [|discriminate].
    change (Some ci ≫= loadedEntry raw k) with (loadedEntry raw k ci).
    unfold loadedEntry. destruct (Clusters raw !! ctxCluster ci); [|discriminate].
    intros [= <-]. repeat split. exact Hcache.
  - unfold NewProvider in Hp. rewrite Hload in Hp. discriminate.
Qed.

Lemma Reach_cacheKnown (V : string -> Prop) (p : Provider) :
  Reach V p -> cacheKnown p.
Proof.
  induction 1 as [load path p Hp | p e ctx contextName s HR IH Hrep
                 | p contextName HR IH | p HR IH | p ttl HR IH].
  - intros k c Hk. destruct (load path) eqn:Hl.
    + destruct (NewProvider_Ok _ _ _ Hl) as (p' & Hp' & _ & _ & _ & Hcache & _).
      assert (p' = p) as -> by congruence.
      rewrite Hcache, lookup_empty in Hk. discriminate.
    + unfold NewProvider in Hp. rewrite Hl in Hp. discriminate.
  - intros k c. rewrite GetClusterStatus_clusters.
    destruct (decide (k = contextName)) as [->|Hne].
    + destruct (GetClusterStatus_outcome e p ctx contextName s); cbn [fst];
        try (apply IH); intros _; eexists; eassumption.
    + rewrite (GetClusterStatus_cache_other e p ctx contextName s k Hne). apply IH.
  - intros k c. unfold SetCurrentContext.
    destruct (clusters p !! contextName); cbn [fst]; [|apply IH].
    cbn [cache clusters]. rewrite lookup_fmap. intros Hk.
    destruct (IH k c Hk) as [ci ->]. eexists. reflexivity.
  - intros k c. cbn. rewrite lookup_empty. discriminate.
  - exact IH.
Qed.

(** X7. For a provider produced by the exported operations,
    [GetClusterStatus] returns an error value exactly for a context that is
    not configured: it then returns the error of [GetClusterByContext] at
    once, without reading the clock or calling anything and with the
    provider as it was; for a configured context it always returns a
    status, whatever the cluster answers. *)
Theorem X7_error_iff_unknown_context
    (V : string -> Prop) (e : Env) (p : Provider) (ctx : Go.Context)
    (contextName : string) (s : PState) :
  Reach V p ->
  ((exists msg, (GetClusterStatus e p ctx contextName s).1.2 = Err msg)
   <-> clusters p !! contextName = None)
  /\ (clusters p !! contextName = None ->
      exists msg,
        GetClusterByContext p contextName = Err msg
        /\ GetClusterStatus e p ctx contextName s = (p, Err msg, s))
  /\ (is_Some (clusters p !! contextName) ->
        exists st, (GetClusterStatus e p ctx contextName s).1.2 = Ok st).
Proof.
  intros HR.
  assert (Hnone : clusters p !! contextName = None ->
                  exists msg,
                    GetClusterByContext p contextName = Err msg
                    /\ GetClusterStatus e p ctx contextName s = (p, Err msg, s)).
  { intros Hnone.
    assert (Hc : cache p !! contextName = None).
    { destruct (cache p !! contextName) as [c|] eqn:Hc; [|reflexivity].
      destruct (Reach_cacheKnown V p HR contextName c Hc) as [ci Hci]. congruence. }
    eexists. split.
    - unfold GetClusterByContext. rewrite Hnone. reflexivity.
    - unfold GetClusterStatus, bind, getCachedStatus, ret, GetClusterByContext.
      rewrite Hc, Hnone. reflexivity. }
  assert (Hsome : is_Some (clusters p !! contextName) ->
                  exists st, (GetClusterStatus e p ctx contextName s).1.2 = Ok st).
  { intros [ci Hci].
    destruct (GetClusterStatus_outcome e p ctx contextName s); cbn [fst snd];
      try (eexists; reflexivity). congruence. }
  split; [|split; [exact Hnone | exact Hsome]].
  split.
  - intros [msg Hmsg].
    destruct (clusters p !! contextName) as [ci|] eqn:Hci; [|reflexivity].
    destruct (Hsome (ex_intro _ ci eq_refl)) as [st Hst]. congruence.
  - intros Hn. destruct (Hnone Hn) as (msg & _ & Hrun). exists msg.
    rewrite Hrun. reflexivity.
Qed.

Lemma X7_error_iff_unknown_context_witness :
  exists st,
    (GetClusterStatus envNoClient sampleProvider Go.Background "dev" start).1.2 = Ok st.
Proof.
  refine (proj2 (proj2 (X7_error_iff_unknown_context anyVersion envNoClient
                          sampleProvider Go.Background "dev" start _)) _).
  - exact (Reach_new anyVersion sampleLoad samplePath sampleProvider eq_refl).
  - exists devInfo. reflexivity.
Defined.

Lemma Reach_currentOk (V : string -> Prop) (p : Provider) :
  Reach V p -> currentOk p.
Proof.
  induction 1 as [load path p Hp | p e ctx contextName s HR IH Hrep
                 | p contextName HR IH | p HR IH | p ttl HR IH].
  - intros k c Hk. destruct (NewProvider_entry load path p k c Hp Hk) as (-> & -> & _).
    reflexivity.
  - intros k c. rewrite GetClusterStatus_clusters.
    destruct (GetClusterStatus_outcome e p ctx contextName s); cbn [fst]; apply IH.
  - intros k c. unfold SetCurrentContext.
    destruct (clusters p !! contextName); cbn [fst]; [|apply IH].
    cbn [clusters currentContext]. rewrite lookup_fmap.
    destruct (clusters p !! k) as [entry|]; [|discriminate].
    intros [= <-]. reflexivity.
  - exact IH.
  - exact IH.
Qed.

(** X8. In every provider produced by the exported operations the entries
    listed by [GetClusters] are exactly those [GetClusterByContext] finds:
    looking up the context name of a listed entry returns that entry, and
    every entry found is listed; an entry is flagged current exactly when
    its context name is the one [GetCurrentContext] returns, so at most one
    listed entry is flagged. *)
Theorem X8_listing_lookup_current
    (V : string -> Prop) (p : Provider) :
  Reach V p ->
  (forall c, c ∈ GetClusters p -> GetClusterByContext p (Context c) = Ok c)
  /\ (forall k c, GetClusterByContext p k = Ok c -> c ∈ GetClusters p /\ Context c = k)
  /\ (forall c, c ∈ GetClusters p ->
        (IsCurrent c = true <-> Context c = GetCurrentContext p))
  /\ (forall c1 c2, c1 ∈ GetClusters p -> c2 ∈ GetClusters p ->
        IsCurrent c1 = true -> IsCurrent c2 = true -> c1 = c2).
Proof.
  intros HR. destruct (Reach_wf V p HR) as [Hcl _].
  pose proof (Reach_currentOk V p HR) as Hcur.
  assert (Hlook : forall c, c ∈ GetClusters p -> clusters p !! Context c = Some c).
  { intros c Hc. apply elem_of_GetClusters in Hc as [k Hk].
    destruct (Hcl k c Hk) as [-> _]. exact Hk. }
  assert (Hflag : forall c, c ∈ GetClusters p ->
            (IsCurrent c = true <-> Context c = GetCurrentContext p)).
  { intros c Hc. rewrite (Hcur _ c (Hlook c Hc)). apply eqb_true. }
  split; [|split; [|split]].
  - intros c Hc. unfold GetClusterByContext. rewrite (Hlook c Hc). reflexivity.
  - intros k c. unfold GetClusterByContext.
    destruct (clusters p !! k) as [c0|] eqn:Hk; [|discriminate].
    intros [= <-]. split; [apply elem_of_GetClusters; eauto | apply (Hcl k c0 Hk)].
  - exact Hflag.
  - intros c1 c2 H1 H2 F1 F2.
    apply Hflag in F1; [|exact H1]. apply Hflag in F2; [|exact H2].
    pose proof (Hlook c1 H1) as L1. pose proof (Hlook c2 H2) as L2.
    rewrite F1 in L1. rewrite F2 in L2. congruence.
Qed.

Lemma X8_listing_lookup_current_witness :
  GetClusterByContext sampleProvider (Context prodInfo) = Ok prodInfo.
Proof.
  refine (proj1 (X8_listing_lookup_current anyVersion sampleProvider
                   (Reach_new anyVersion sampleLoad samplePath sampleProvider eq_refl))
            prodInfo _).
  apply elem_of_GetClusters. exists "prod". reflexivity.
Defined.

(** X9. [SetCurrentContext] for a configured context succeeds and makes
    it the current context; what was current before does not matter: the
    outcome is the same after any earlier [SetCurrentContext], successful
    or not, so in particular setting the same context twice is setting it
    once. *)
Theorem X9_SetCurrentContext_last_wins (p : Provider) (a b : string) :
  is_Some (clusters p !! b) ->
  (SetCurrentContext p b).2 = Ok tt
  /\ GetCurrentContext (SetCurrentContext p b).1 = b
  /\ (SetCurrentContext (SetCurrentContext p a).1 b).1 = (SetCurrentContext p b).1
  /\ (SetCurrentContext (SetCurrentContext p b).1 b).1 = (SetCurrentContext p b).1.
Proof.
  intros [cb Hb].
  assert (Hlast : forall a, (SetCurrentContext (SetCurrentContext p a).1 b).1
                            = (SetCurrentContext p b).1).
  { intros a'. unfold SetCurrentContext at 2.
    destruct (clusters p !! a') as [ca|]; cbn [fst]; [|reflexivity].
    unfold SetCurrentContext. cbn [clusters]. rewrite lookup_fmap, Hb. cbn.
    f_equal. rewrite <- map_fmap_compose. apply map_fmap_ext.
    intros k c _. reflexivity. }
  split; [|split; [|split]].
  - unfold SetCurrentContext. rewrite Hb. reflexivity.
  - unfold SetCurrentContext. rewrite Hb. reflexivity.
  - apply Hlast.
  - apply Hlast.
Qed.

Lemma X9_SetCurrentContext_witness :
  GetCurrentContext (SetCurrentContext sampleProvider "dev").1 = "dev".
Proof.
  exact (proj1 (proj2 (X9_SetCurrentContext_last_wins sampleProvider "prod" "dev"
                         (ex_intro _ devInfo eq_refl)))).
Defined.

(** ** Counters of a status *)

Lemma GetClusterStatus_nodes (e : Env) (p : Provider) (ctx : Go.Context)
    (contextName : string) (s : PState) (ci : ClusterInfo) (restConfig : RestConfig)
    (clientset : Clientset) (version : string) (items : list Node) :
  stale p contextName (clock e (ticks s)) ->
  clusters p !! contextName = Some ci ->
  ClientConfig e = Ok restConfig ->
  NewForConfig e = Ok clientset ->
  ServerVersion clientset = Ok version ->
  ListNodes clientset = Ok items ->
  exists s0 st,
    (GetClusterStatus e p ctx contextName s).1.2 = Ok st
    /\ Nodes st = (nodeLoop e items [] 0 s0).1.1
    /\ HealthyNodes st = (nodeLoop e items [] 0 s0).1.2
    /\ NodeCount st = Z.of_nat (length (Nodes st)).
Proof.
  intros Hstale Hci Hcc Hnc Hv Hn.
  destruct (stale_miss e p contextName s Hstale) as (s1 & Hc & _).
  unfold GetClusterStatus. unfold bind at 1. rewrite Hc.
  unfold GetClusterByContext. rewrite Hci.
  unfold createClientset, bind, call, ret. rewrite Hcc, Hnc.
  unfold getClusterVersion, WithTimeout, bind, call, ret, now. cbn [ticks calls].
  rewrite Hv. unfold collectNodeInfo, bind, call, ret. cbn [ticks calls]. rewrite Hn.
  match goal with
  | |- context [nodeLoop e items [] 0 ?s0] =>
      exists s0; destruct (nodeLoop e items [] 0 s0) as [[nodeInfos healthyNodes] s2]
  end.
  unfold collectNamespaceList, collectPodHealth, cacheStatus, bind, call, ret, now.
  destruct (ListNamespaces clientset), (ListPods clientset) as [pods|];
    try destruct (classifyPods pods 0 []);
    eexists; cbn; repeat split.
Qed.

Lemma withPods_counts (clientset : Clientset) (st : ClusterStatus) :
  boundedClientset clientset ->
  PodCount st = 0 -> HealthyPods st = 0 -> UnhealthyPods st = [] ->
  0 <= HealthyPods (withPods clientset st)
  /\ PodCount (withPods clientset st)
     = HealthyPods (withPods clientset st)
       + Z.of_nat (length (UnhealthyPods (withPods clientset st))).
Proof.
  intros [_ Hmax] H1 H2 H3. unfold withPods.
  destruct (ListPods clientset) as [pods|] eqn:Hp.
  - specialize (Hmax pods eq_refl).
    rewrite classifyPods_spec by lia.
    cbn [fst snd set_Pods PodCount HealthyPods UnhealthyPods].
    rewrite app_nil_l, length_map, Z.add_0_l.
    pose proof (filter_split_length isPodHealthy pods). lia.
  - rewrite H1, H2, H3. cbn. split; lia.
Qed.

Lemma nodeLoop_counts (e : Env) (items : list Node) (s0 : PState) :
  Z.of_nat (length items) <= Go.maxInt64 ->
  length (nodeLoop e items [] 0 s0).1.1 = length items
  /\ (nodeLoop e items [] 0 s0).1.2
     = Z.of_nat (length (List.filter (fun ni => String.eqb (niStatus ni) "Ready")
                           (nodeLoop e items [] 0 s0).1.1)).
Proof.
  intros Hmax.
  destruct (nodeLoop_spec e items [] 0 s0) as (H1 & H2 & _ & H4); [lia | lia |].
  cbn [map app] in H1, H2. split.
  - rewrite <- (length_map niName), H1, length_map. reflexivity.
  - rewrite H4, Z.add_0_l.
    rewrite (length_filter_map_status (fun st => String.eqb st "Ready")), H2.
    rewrite filter_ext_map, length_map. do 2 f_equal.
    clear. induction items as [|n l IH]; cbn; [reflexivity|].
    rewrite readyNode_status, IH. reflexivity.
Qed.

Lemma countsOk_zero (st : ClusterStatus) :
  NodeCount st = 0 -> HealthyNodes st = 0 -> Nodes st = [] ->
  PodCount st = 0 -> HealthyPods st = 0 -> UnhealthyPods st = [] ->
  countsOk st.
Proof.
  intros H1 H2 H3 H4 H5 H6. unfold countsOk.
  rewrite H1, H2, H3, H4, H5, H6. cbn. repeat split; lia.
Qed.

(** The status a probe assembles has counters that agree with its lists. *)
Lemma fresh_countsOk (e : Env) (p : Provider) (ctx : Go.Context) (contextName : string)
    (s : PState) (st : ClusterStatus) :
  boundedEnv e ->
  stale p contextName (clock e (ticks s)) ->
  (GetClusterStatus e p ctx contextName s).1.2 = Ok st ->
  countsOk st.
Proof.
  intros Hb Hstale Hst.
  remember (GetClusterStatus e p ctx contextName s) as run eqn:Hrun.
  pose proof (GetClusterStatus_outcome e p ctx contextName s) as HO.
  rewrite <- Hrun in HO.
  destruct HO
    as [ cached Hhit Hlive | | | | | |
         ci restConfig clientset version items nodeInfos healthyNodes n1 n3 s'
         Hstale' Hci Hcc Hnc Hv Hn Hle queryCtx discoveryCtx status Hlt Hcalls ];
    cbn [fst snd] in Hst; try discriminate Hst; injection Hst as <-;
    try (apply countsOk_zero; reflexivity).
  - exfalso. eapply stale_hit_absurd; eassumption.
  - destruct (GetClusterStatus_nodes e p ctx contextName s ci restConfig clientset
                version items Hstale Hci Hcc Hnc Hv Hn)
      as (s0 & st & Hst & HN & HH & HC).
    rewrite <- Hrun in Hst. cbn [fst snd] in Hst. injection Hst as <-.
    destruct (Hb clientset Hnc) as [Hnodes Hpods].
    destruct (nodeLoop_counts e items s0 (Hnodes items Hn)) as [Hlen Hcount].
    assert (Hp : 0 <= HealthyPods status
                 /\ PodCount status
                    = HealthyPods status + Z.of_nat (length (UnhealthyPods status))).
    { subst status. apply withPods_counts; [split; assumption | | |];
        unfold withNamespaces; destruct (ListNamespaces clientset); reflexivity. }
    unfold countsOk. rewrite HC, HH, HN, Hcount.
    split; [reflexivity|]. split; [reflexivity|]. split; [|exact Hp].
    split; [lia|]. apply inj_le, length_filter_le.
Qed.

Lemma ReachIn_counts (p : Provider) :
  ReachIn boundedEnv p -> forall k c, cache p !! k = Some c -> countsOk (Status c).
Proof.
  induction 1 as [load path p Hp | p e ctx contextName s HR IH Hb
                 | p contextName HR IH | p HR IH | p ttl HR IH]; intros k c.
  - destruct (load path) eqn:Hl.
    + destruct (NewProvider_Ok _ _ _ Hl) as (p' & Hp' & _ & _ & _ & Hcache & _).
      assert (p' = p) as -> by congruence.
      rewrite Hcache, lookup_empty. discriminate.
    + unfold NewProvider in Hp. rewrite Hl in Hp. discriminate.
  - destruct (decide (k = contextName)) as [->|Hne].
    + pose proof (fresh_countsOk e p ctx contextName s) as Hfresh.
      remember (GetClusterStatus e p ctx contextName s) as run eqn:Hrun.
      pose proof (GetClusterStatus_outcome e p ctx contextName s) as HO.
      rewrite <- Hrun in HO.
      destruct HO; cbn [fst snd] in *; try (apply IH).
      cbn. rewrite lookup_insert_eq. intros [= <-]. cbn [Status].
      eapply Hfresh; [exact Hb | assumption | reflexivity].
    + rewrite (GetClusterStatus_cache_other e p ctx contextName s k Hne). apply IH.
  - unfold SetCurrentContext. destruct (clusters p !! contextName); apply IH.
  - cbn. rewrite lookup_empty. discriminate.
  - apply IH.
Qed.

(** X10. In a provider produced by the exported operations in
    environments whose listings fit a slice, every status that
    [GetClusterStatus] returns, fresh or cached, has counters that agree
    with its lists: the node count is the length of the node list, the
    healthy-node count is the number of listed nodes with status Ready and
    so lies between 0 and the node count, and the pod count is the
    healthy-pod count plus the length of the unhealthy-pod list. *)
Theorem X10_status_counters_consistent
    (e : Env) (p : Provider) (ctx : Go.Context) (contextName : string) (s : PState)
    (st : ClusterStatus) :
  ReachIn boundedEnv p -> boundedEnv e ->
  (GetClusterStatus e p ctx contextName s).1.2 = Ok st ->
  countsOk st.
Proof.
  intros HR Hb Hst.
  remember (GetClusterStatus e p ctx contextName s) as run eqn:Hrun.
  pose proof (GetClusterStatus_outcome e p ctx contextName s) as HO.
  rewrite <- Hrun in HO.
  destruct HO as [cached Hhit Hlive | | | | | | ];
    try (apply (fresh_countsOk e p ctx contextName s st Hb); [assumption|];
         rewrite <- Hrun; exact Hst).
  cbn [fst snd] in Hst. injection Hst as <-.
  apply (ReachIn_counts p HR contextName cached Hhit).
Qed.

Lemma X10_status_counters_witness :
  exists st,
    (GetClusterStatus envHealthy sampleProvider Go.Background "prod" start).1.2 = Ok st
    /\ countsOk st.
Proof.
  eexists. split; [vm_compute; reflexivity|].
  refine (X10_status_counters_consistent envHealthy sampleProvider Go.Background "prod"
            start _ _ _ eq_refl).
  - exact (ReachIn_new boundedEnv sampleLoad samplePath sampleProvider eq_refl).
  - intros clientset [= <-]. split; intros items [= <-]; vm_compute; discriminate.
Defined.

(** ** Independence of the order of the goroutines *)

Lemma rebase_same (contextName : string) (p q : Provider) :
  cache q !! contextName = cache p !! contextName -> rebase contextName p q = q.
Proof.
  intros H. unfold rebase. rewrite <- H, partial_alter_self.
  destruct q. reflexivity.
Qed.

Lemma rebase_insert (contextName : string) (c : CachedClusterStatus)
    (m : gmap string CachedClusterStatus) (p q : Provider) :
  rebase contextName (set_cache (<[contextName := c]> m) p) q
  = set_cache (<[contextName := c]> (cache q)) q.
Proof.
  unfold rebase. cbn [cache set_cache]. rewrite lookup_insert_eq. reflexivity.
Qed.

(** A probe sees of the provider only what [agreeAt] compares, and writes
    only the cache entry of its context. *)
Lemma GetClusterStatus_local (e : Env) (p q : Provider) (ctx : Go.Context)
    (contextName : string) (s : PState) :
  agreeAt contextName p q ->
  GetClusterStatus e q ctx contextName s
  = (rebase contextName (GetClusterStatus e p ctx contextName s).1.1 q,
     (GetClusterStatus e p ctx contextName s).1.2,
     (GetClusterStatus e p ctx contextName s).2).
Proof.
  intros (Hc & Hi & Hp & Ht).
  unfold GetClusterStatus, getCachedStatus, GetClusterByContext, createClientset,
    cacheStatus, bind, ret, call, now.
  rewrite Hc, Hi, Hp, Ht.
  repeat match goal with
         | |- context [match ?x with _ => _ end] => destruct x eqn:?
         end;
    cbn [fst snd];
    try (rewrite rebase_same by exact Hc; reflexivity).
  all: rewrite rebase_insert; reflexivity.
Qed.

Lemma GetClusterStatus_sameButCache (e : Env) (p : Provider) (ctx : Go.Context)
    (contextName : string) (s : PState) :
  sameButCache p (GetClusterStatus e p ctx contextName s).1.1.
Proof.
  destruct (GetClusterStatus_outcome e p ctx contextName s); repeat split.
Qed.

Lemma agreeAt_after (e : Env) (q : Provider) (ctx : Go.Context) (ni nj : string)
    (s : PState) :
  ni <> nj -> agreeAt nj q (GetClusterStatus e q ctx ni s).1.1.
Proof.
  intros Hne.
  destruct (GetClusterStatus_sameButCache e q ctx ni s) as (Hp & _ & Hcl & _ & Ht).
  split; [apply GetClusterStatus_cache_other; congruence|].
  split; [rewrite Hcl; reflexivity|]. split; assumption.
Qed.

Lemma agreeAt_refl (contextName : string) (q : Provider) : agreeAt contextName q q.
Proof. repeat split. Qed.

Lemma rebase_commute (ni nj : string) (Pi Pj q : Provider) :
  ni <> nj ->
  rebase nj Pj (rebase ni Pi q) = rebase ni Pi (rebase nj Pj q).
Proof.
  intros Hne. unfold rebase, set_cache. cbn. f_equal.
  apply partial_alter_partial_alter_ne. congruence.
Qed.

(** Two goroutines for different contexts and slots commute. *)
Lemma goroutine_commute (envs : nat -> Env) (ctx : Go.Context) (i j : nat)
    (ni nj : string) (st : Provider * list (option ClusterStatus)) :
  i <> j -> ni <> nj ->
  goroutine envs ctx j nj (goroutine envs ctx i ni st)
  = goroutine envs ctx i ni (goroutine envs ctx j nj st).
Proof.
  intros Hij Hn. destruct st as [q sts]. rewrite !goroutine_spec.
  rewrite (GetClusterStatus_local (envs j) q _ ctx nj start
             (agreeAt_after (envs i) q ctx ni nj start Hn)).
  rewrite (GetClusterStatus_local (envs i) q _ ctx ni start
             (agreeAt_after (envs j) q ctx nj ni start (not_eq_sym Hn))).
  cbn [fst snd].
  rewrite (GetClusterStatus_local (envs i) q q ctx ni start (agreeAt_refl ni q)) at 1.
  rewrite (GetClusterStatus_local (envs j) q q ctx nj start (agreeAt_refl nj q)) at 3.
  cbn [fst snd]. f_equal.
  - apply rebase_commute. exact Hn.
  - apply list_insert_insert_ne. congruence.
Qed.

Lemma turn_commute (entries : list ClusterInfo) (envs : nat -> Env) (ctx : Go.Context)
    (st : Provider * list (option ClusterStatus)) (i j : nat) :
  NoDup (Context <$> entries) ->
  turn entries envs ctx (turn entries envs ctx st i) j
  = turn entries envs ctx (turn entries envs ctx st j) i.
Proof.
  intros Hnd. destruct (decide (i = j)) as [->|Hij]; [reflexivity|].
  unfold turn.
  destruct (entries !! i) as [ci|] eqn:Hi, (entries !! j) as [cj|] eqn:Hj;
    try reflexivity.
  apply goroutine_commute; [exact Hij|].
  intros Heq. apply Hij.
  apply (NoDup_lookup (Context <$> entries) i j (Context ci)); [exact Hnd | |].
  - rewrite list_lookup_fmap, Hi. reflexivity.
  - rewrite list_lookup_fmap, Hj, Heq. reflexivity.
Qed.

Lemma foldl_commute_perm {A B} (f : A -> B -> A) (l1 l2 : list B) :
  (forall a x y, f (f a x) y = f (f a y) x) ->
  l1 ≡ₚ l2 -> forall a, foldl f a l1 = foldl f a l2.
Proof.
  intros Hf. induction 1 as [|x l1 l2 _ IH|x y l|l1 l2 l3 _ IH1 _ IH2]; intros a.
  - reflexivity.
  - cbn. apply IH.
  - cbn. rewrite Hf. reflexivity.
  - rewrite IH1. apply IH2.
Qed.

(** X11. The order in which the goroutines of [GetAllClusterStatuses]
    take their turn does not matter: for a provider produced by the
    exported operations, any two orders that are rearrangements of one
    another give the same list of statuses and the same provider. *)
Theorem X11_schedule_independent
    (V : string -> Prop) (sched1 sched2 : list nat) (envs : nat -> Env) (p : Provider)
    (ctx : Go.Context) :
  Reach V p -> sched1 ≡ₚ sched2 ->
  GetAllClusterStatuses sched1 envs p ctx = GetAllClusterStatuses sched2 envs p ctx.
Proof.
  intros HR Hperm. destruct (Reach_wf V p HR) as [Hcl _].
  assert (Hnd : NoDup (Context <$> GetClusters p)).
  { apply NoDup_GetClusters_contexts. intros k c Hk. apply (Hcl k c Hk). }
  change (foldl (turn (GetClusters p) envs ctx)
            (p, replicate (length (GetClusters p)) None) sched1
          = foldl (turn (GetClusters p) envs ctx)
              (p, replicate (length (GetClusters p)) None) sched2).
  apply foldl_commute_perm; [|exact Hperm].
  intros a x y. apply turn_commute, Hnd.
Qed.

Lemma X11_schedule_independent_witness :
  GetAllClusterStatuses [0%nat; 1%nat] sampleEnvs sampleProvider Go.Background
  = GetAllClusterStatuses [1%nat; 0%nat] sampleEnvs sampleProvider Go.Background.
Proof.
  apply (X11_schedule_independent anyVersion).
  - exact (Reach_new anyVersion sampleLoad samplePath sampleProvider eq_refl).
  - apply perm_swap.
Defined.

(** ** The listing of a call and the slots of its goroutines *)

Lemma visits_spec (order : list string) (p : Provider) :
  visits order p ->
  NoDup order
  /\ length order = size (clusters p)
  /\ forall k, k ∈ order <-> is_Some (clusters p !! k).
Proof.
  unfold visits. intros Hperm. split; [|split].
  - rewrite Hperm. apply NoDup_fst_map_to_list.
  - rewrite Hperm, length_fmap, length_map_to_list. reflexivity.
  - intros k. rewrite Hperm, list_elem_of_fmap. split.
    + intros [[k' c] [-> Hin]]. apply elem_of_map_to_list in Hin. exists c. exact Hin.
    + intros [c Hc]. exists (k, c). split; [reflexivity|].
      apply elem_of_map_to_list. exact Hc.
Qed.

Lemma omap_total {A B} (f : A -> option B) (l : list A) :
  Forall (fun x => is_Some (f x)) l ->
  length (omap f l) = length l
  /\ forall i x, l !! i = Some x -> omap f l !! i = f x.
Proof.
  induction 1 as [|x l Hx _ IH]; [split; [reflexivity | intros i x Hx; inversion Hx]|].
  destruct Hx as [y Hy]. destruct IH as [IH1 IH2].
  cbn [omap list_omap]. rewrite Hy. cbn [length]. split; [rewrite IH1; reflexivity|].
  intros [|i] x' Hx'; cbn in *.
  - injection Hx' as <-. symmetry. exact Hy.
  - apply IH2, Hx'.
Qed.

Lemma GetClustersIn_spec (order : list string) (p : Provider) :
  visits order p ->
  length (GetClustersIn order p) = length order
  /\ forall i k, order !! i = Some k -> GetClustersIn order p !! i = clusters p !! k.
Proof.
  intros Hv. destruct (visits_spec order p Hv) as (_ & _ & Hin).
  apply omap_total. apply Forall_forall. intros k Hk. apply Hin, Hk.
Qed.

Lemma GetClustersIn_key (order : list string) (p : Provider) (i : nat) (c : ClusterInfo) :
  visits order p -> GetClustersIn order p !! i = Some c ->
  exists k, order !! i = Some k /\ clusters p !! k = Some c.
Proof.
  intros Hv Hc. destruct (GetClustersIn_spec order p Hv) as [Hlen Hlook].
  assert (Hi : (i < length order)%nat)
    by (rewrite <- Hlen; eapply lookup_lt_Some; eassumption).
  destruct (lookup_lt_is_Some_2 order i Hi) as [k Hk].
  exists k. split; [exact Hk|]. rewrite <- (Hlook i k Hk). exact Hc.
Qed.

Lemma GetClustersIn_contexts (order : list string) (p : Provider) :
  keyed p -> visits order p -> Context <$> GetClustersIn order p = order.
Proof.
  intros Hkey Hv. destruct (GetClustersIn_spec order p Hv) as [Hlen Hlook].
  apply list_eq. intros i. rewrite list_lookup_fmap.
  destruct (order !! i) as [k|] eqn:Hk.
  - rewrite (Hlook i k Hk).
    destruct (visits_spec order p Hv) as (_ & _ & Hin).
    destruct (proj1 (Hin k) (list_elem_of_lookup_2 _ _ _ Hk)) as [c Hc].
    rewrite Hc. cbn. f_equal. apply (Hkey k c Hc).
  - apply lookup_ge_None in Hk. rewrite <- Hlen in Hk.
    apply lookup_ge_None in Hk. rewrite Hk. reflexivity.
Qed.

(** The listing of [GetClusters] is the one of the order in which
    [map_fold] visits the map. *)
Lemma GetClusters_In (p : Provider) :
  visits (reverse (map_to_list (clusters p)).*1) p
  /\ GetClusters p = GetClustersIn (reverse (map_to_list (clusters p)).*1) p.
Proof.
  split; [unfold visits; apply reverse_Permutation|].
  rewrite GetClusters_values. unfold GetClustersIn.
  rewrite <- !fmap_reverse.
  assert (H : forall l : list (string * ClusterInfo),
            (forall kc, kc ∈ l -> clusters p !! kc.1 = Some kc.2) ->
            l.*2 = omap (fun contextName => clusters p !! contextName) l.*1).
  { induction l as [|[k c] l IH]; intros Hl; [reflexivity|].
    cbn [fmap list_fmap omap list_omap fst snd].
    assert (Hkc : clusters p !! k = Some c) by (apply (Hl (k, c)); left).
    rewrite Hkc. f_equal.
    apply IH. intros kc Hin. apply Hl. right. exact Hin. }
  apply H. intros [k c] Hin. apply elem_of_reverse, elem_of_map_to_list in Hin. exact Hin.
Qed.

(** [GetAllClusterStatuses] is the call whose listing visits the contexts
    in that order. *)
Lemma GetAllClusterStatuses_In (sched : list nat) (envs : nat -> Env) (p : Provider)
    (ctx : Go.Context) :
  GetAllClusterStatuses sched envs p ctx
  = GetAllClusterStatusesIn (reverse (map_to_list (clusters p)).*1) sched envs p ctx.
Proof.
  unfold GetAllClusterStatuses, GetAllClusterStatusesIn.
  rewrite <- (proj2 (GetClusters_In p)). reflexivity.
Qed.

Lemma agreeAt_trans (contextName : string) (p q r : Provider) :
  agreeAt contextName p q -> agreeAt contextName q r -> agreeAt contextName p r.
Proof.
  intros (H1 & H2 & H3 & H4) (G1 & G2 & G3 & G4). repeat split; congruence.
Qed.

Lemma turn_spec (entries : list ClusterInfo) (envs : nat -> Env) (ctx : Go.Context)
    (q : Provider) (statuses : list (option ClusterStatus)) (idx : nat) (c : ClusterInfo) :
  entries !! idx = Some c ->
  turn entries envs ctx (q, statuses) idx
  = ((GetClusterStatus (envs idx) q ctx (Context c) start).1.1,
     <[idx := Some (slotOf (Context c)
                      (GetClusterStatus (envs idx) q ctx (Context c) start).1.2)]>
       statuses).
Proof. intros H. unfold turn. rewrite H. apply goroutine_spec. Qed.

Lemma turns_length (entries : list ClusterInfo) (envs : nat -> Env) (ctx : Go.Context)
    (l : list nat) :
  forall st, length (foldl (turn entries envs ctx) st l).2 = length st.2.
Proof.
  induction l as [|j l IH]; intros [q sts]; cbn [foldl]; [reflexivity|].
  rewrite IH. unfold turn. destruct (entries !! j) as [cj|]; [|reflexivity].
  rewrite goroutine_spec. cbn [snd]. apply length_insert.
Qed.

Lemma turns_other (entries : list ClusterInfo) (envs : nat -> Env) (ctx : Go.Context)
    (i : nat) (l : list nat) :
  i ∉ l ->
  forall st, (foldl (turn entries envs ctx) st l).2 !! i = st.2 !! i.
Proof.
  induction l as [|j l IH]; intros Hni [q sts]; cbn [foldl]; [reflexivity|].
  apply not_elem_of_cons in Hni as [Hij Hni]. rewrite IH by exact Hni.
  unfold turn. destruct (entries !! j) as [cj|]; [|reflexivity].
  rewrite goroutine_spec. cbn [snd]. apply list_lookup_insert_ne. congruence.
Qed.

(** Turns of other goroutines leave what the probe of entry [i] sees of
    the provider as it was. *)
Lemma turns_agree (entries : list ClusterInfo) (envs : nat -> Env) (ctx : Go.Context)
    (i : nat) (c : ClusterInfo) (l : list nat) :
  NoDup (Context <$> entries) -> entries !! i = Some c -> i ∉ l ->
  forall st, agreeAt (Context c) st.1 (foldl (turn entries envs ctx) st l).1.
Proof.
  intros Hnd Hic. induction l as [|j l IH]; intros Hni [q sts]; cbn [foldl];
    [apply agreeAt_refl|].
  apply not_elem_of_cons in Hni as [Hij Hni].
  eapply agreeAt_trans; [|apply IH, Hni].
  unfold turn. destruct (entries !! j) as [cj|] eqn:Hj; [|apply agreeAt_refl].
  rewrite goroutine_spec. cbn [fst]. apply agreeAt_after.
  intros Heq. apply Hij.
  apply (NoDup_lookup (Context <$> entries) i j (Context c)); [exact Hnd | |].
  - rewrite list_lookup_fmap, Hic. reflexivity.
  - rewrite list_lookup_fmap, Hj, <- Heq. reflexivity.
Qed.

(** The slot of a goroutine holds the outcome of its probe in the provider
    as the turns before its own left it. *)
Lemma slot_pinned (entries : list ClusterInfo) (envs : nat -> Env) (ctx : Go.Context)
    (pre post : list nat) (i : nat) (c : ClusterInfo)
    (st : Provider * list (option ClusterStatus)) :
  i ∉ post -> entries !! i = Some c -> (i < length st.2)%nat ->
  (foldl (turn entries envs ctx) st (pre ++ i :: post)).2 !! i
  = Some (Some (slotOf (Context c)
                  (GetClusterStatus (envs i) (foldl (turn entries envs ctx) st pre).1
                     ctx (Context c) start).1.2)).
Proof.
  intros Hni Hic Hi. rewrite foldl_app. cbn [foldl].
  rewrite turns_other by exact Hni.
  pose proof (turns_length entries envs ctx pre st) as Hlen.
  destruct (foldl (turn entries envs ctx) st pre) as [q sts].
  rewrite (turn_spec entries envs ctx q sts i c Hic). cbn [fst snd] in *.
  apply list_lookup_insert_eq. lia.
Qed.

Lemma sched_split (sched : list nat) (n i : nat) :
  sched ≡ₚ seq 0 n ->
  ((i < n)%nat -> exists pre post, sched = pre ++ i :: post)
  /\ forall pre post, sched = pre ++ i :: post -> (i ∉ pre) /\ (i ∉ post).
Proof.
  intros Hperm. split.
  - intros Hi. apply list_elem_of_split. rewrite Hperm. apply elem_of_seq. lia.
  - intros pre post ->.
    assert (Hnd : NoDup (pre ++ i :: post)) by (rewrite Hperm; apply NoDup_seq).
    apply NoDup_app in Hnd as (_ & Hdis & Hnd).
    apply NoDup_cons in Hnd as [Hpost _]. split; [|exact Hpost].
    intros Hin. apply (Hdis i Hin). left.
Qed.

(** For a well-formed provider every slot holds the status that the probe
    of its context returns from the provider as the call found it. *)
Lemma slot_of_wf (V : string -> Prop) (order : list string) (sched : list nat)
    (envs : nat -> Env) (p : Provider) (ctx : Go.Context) (i : nat) (k : string) :
  wf V p -> visits order p -> sched ≡ₚ seq 0 (length order) ->
  order !! i = Some k ->
  exists st,
    (GetClusterStatus (envs i) p ctx k start).1.2 = Ok st
    /\ (GetAllClusterStatusesIn order sched envs p ctx).2 !! i = Some (Some st)
    /\ Context (Info st) = k.
Proof.
  intros Hwf Hv Hperm Hk. pose proof Hwf as [Hcl _].
  assert (Hkey : keyed p) by (intros k' c' Hc'; apply (Hcl k' c' Hc')).
  destruct (visits_spec order p Hv) as (Hnd & _ & Hin).
  destruct (GetClustersIn_spec order p Hv) as [Hlen Hlook].
  destruct (proj1 (Hin k) (list_elem_of_lookup_2 _ _ _ Hk)) as [c Hc].
  assert (Hic : GetClustersIn order p !! i = Some c) by (rewrite (Hlook i k Hk); exact Hc).
  assert (Hck : Context c = k) by apply (Hkey k c Hc).
  assert (Hi : (i < length order)%nat) by (eapply lookup_lt_Some; eassumption).
  destruct (sched_split sched (length order) i Hperm) as [Hex Hsplit].
  destruct (Hex Hi) as (pre & post & Hs). destruct (Hsplit pre post Hs) as [Hpre Hpost].
  assert (Hndc : NoDup (Context <$> GetClustersIn order p))
    by (rewrite (GetClustersIn_contexts order p Hkey Hv); exact Hnd).
  change ((GetAllClusterStatusesIn order sched envs p ctx).2)
    with (foldl (turn (GetClustersIn order p) envs ctx)
            (p, replicate (length (GetClustersIn order p)) None) sched).2.
  rewrite Hs.
  rewrite (slot_pinned (GetClustersIn order p) envs ctx pre post i c _ Hpost Hic)
    by (cbn [snd]; rewrite length_replicate, Hlen; exact Hi).
  pose proof (turns_agree (GetClustersIn order p) envs ctx i c pre Hndc Hic Hpre
                (p, replicate (length (GetClustersIn order p)) None)) as Hag.
  cbn [fst] in Hag.
  rewrite (GetClusterStatus_local (envs i) p _ ctx (Context c) start Hag). cbn [fst snd].
  rewrite Hck.
  assert (Hok : exists st, (GetClusterStatus (envs i) p ctx k start).1.2 = Ok st).
  { destruct (GetClusterStatus_outcome (envs i) p ctx k start); cbn [fst snd];
      try (eexists; reflexivity). congruence. }
  destruct Hok as [st Hst]. exists st. split; [exact Hst|]. rewrite Hst. cbn [slotOf].
  split; [reflexivity|]. eapply GetClusterStatus_context; eassumption.
Qed.



(** X12. For a provider produced by the exported operations the
    context-not-found error cannot occur in [GetAllClusterStatuses]: once
    every goroutine has run, the slot at each position of the listing holds
    the very status that [GetClusterStatus] returns for the context at
    that position from the provider as the call found it, under that
    context name; no slot holds the synthetic error status, and what the
    other goroutines did before does not change what a slot holds. *)
Theorem X12_fleet_wide_never_not_found
    (V : string -> Prop) (order : list string) (sched : list nat) (envs : nat -> Env)
    (p : Provider) (ctx : Go.Context) :
  Reach V p ->
  visits order p ->
  sched ≡ₚ seq 0 (length order) ->
  forall i k, order !! i = Some k ->
    exists st,
      (GetClusterStatus (envs i) p ctx k start).1.2 = Ok st
      /\ (GetAllClusterStatusesIn order sched envs p ctx).2 !! i = Some (Some st)
      /\ Context (Info st) = k.
Proof.
  intros HR Hv Hperm i k Hk.
  exact (slot_of_wf V order sched envs p ctx i k (Reach_wf V p HR) Hv Hperm Hk).
Qed.

Lemma X12_fleet_wide_witness :
  exists st,
    (GetClusterStatus (sampleEnvs 0) sampleProvider Go.Background "dev" start).1.2 = Ok st
    /\ (GetAllClusterStatusesIn ["dev"; "prod"] [1%nat; 0%nat] sampleEnvs sampleProvider
          Go.Background).2 !! 0%nat = Some (Some st)
    /\ Context (Info st) = "dev".
Proof.
  refine (X12_fleet_wide_never_not_found anyVersion ["dev"; "prod"] [1%nat; 0%nat]
            sampleEnvs sampleProvider Go.Background _ _ _ 0%nat "dev" _).
  - exact (Reach_new anyVersion sampleLoad samplePath sampleProvider eq_refl).
  - unfold visits. vm_compute. first [apply Permutation_refl | apply perm_swap].
  - vm_compute. apply perm_swap.
  - reflexivity.
Defined.

(** ** The health analyzer on any fleet *)

Import Strings Tools Fleet.

Lemma int64_range_small (x : Z) : 0 <= x -> x <= Go.maxInt64 -> Go.int64 x = x.
Proof.
  intros H0 H1. apply int64_small. unfold Go.minInt64. split; [lia | exact H1].
Qed.

Lemma analyze_issues_from (l : list ClusterStatus) :
  forall acc : Agent.clusterHealthSummary,
    Agent.issues
      (foldl (fun summary status =>
                if IsReachable (Info status)
                then Agent.processReachableCluster status summary
                else {| Agent.reachableCount := Agent.reachableCount summary;
                        Agent.healthyCount := Agent.healthyCount summary;
                        Agent.totalUnhealthyPods := Agent.totalUnhealthyPods summary;
                        Agent.issues := Agent.issues summary
                                        ++ [Agent.unreachableIssue status] |})
             acc l)
    = Agent.issues acc ++ flat_map issuesOf l.
Proof.
  induction l as [|st l IH]; intros acc; cbn [foldl flat_map].
  - rewrite app_nil_r. reflexivity.
  - rewrite IH. unfold issuesOf, reachable.
    destruct (IsReachable (Info st)); cbn [Agent.issues].
    + unfold Agent.processReachableCluster.
      destruct (Agent.hasNodeIssue st), (Agent.hasPodIssue st); cbn [Agent.issues];
        rewrite <- ?app_assoc; reflexivity.
    + rewrite <- app_assoc. reflexivity.
Qed.

Lemma analyze_counts_from (l : list ClusterStatus) :
  forall acc : Agent.clusterHealthSummary,
    0 <= Agent.reachableCount acc ->
    Agent.reachableCount acc + Z.of_nat (length l) <= Go.maxInt64 ->
    0 <= Agent.healthyCount acc ->
    Agent.healthyCount acc + Z.of_nat (length l) <= Go.maxInt64 ->
    let r := foldl (fun summary status =>
                if IsReachable (Info status)
                then Agent.processReachableCluster status summary
                else {| Agent.reachableCount := Agent.reachableCount summary;
                        Agent.healthyCount := Agent.healthyCount summary;
                        Agent.totalUnhealthyPods := Agent.totalUnhealthyPods summary;
                        Agent.issues := Agent.issues summary
                                        ++ [Agent.unreachableIssue status] |})
             acc l in
    Agent.reachableCount r
    = Agent.reachableCount acc + Z.of_nat (length (List.filter reachable l))
    /\ Agent.healthyCount r
       = Agent.healthyCount acc + Z.of_nat (length (List.filter fullyHealthy l)).
Proof.
  induction l as [|st l IH]; intros acc R0 R1 H0 H1; cbn [foldl List.filter length].
  - cbn. split; lia.
  - cbn [length] in R1, H1. unfold fullyHealthy at 1.
    change (reachable st) with (IsReachable (Info st)).
    destruct (IsReachable (Info st)) eqn:Hr; cbn [andb].
    + assert (Hrc : Agent.reachableCount (Agent.processReachableCluster st acc)
                    = Agent.reachableCount acc + 1).
      { unfold Agent.processReachableCluster.
        destruct (Agent.hasNodeIssue st), (Agent.hasPodIssue st); cbn;
          apply int64_range_small; lia. }
      assert (Hhc : Agent.healthyCount (Agent.processReachableCluster st acc)
                    = Agent.healthyCount acc
                      + (if negb (Agent.hasNodeIssue st) && negb (Agent.hasPodIssue st)
                            && bool_decide (0 < NodeCount st) then 1 else 0)).
      { rewrite healthyCount_processReachableCluster.
        destruct (negb (Agent.hasNodeIssue st) && negb (Agent.hasPodIssue st)
                  && bool_decide (0 < NodeCount st));
          [apply int64_range_small; lia | lia]. }
      assert (Hb : 0 <= (if negb (Agent.hasNodeIssue st) && negb (Agent.hasPodIssue st)
                            && bool_decide (0 < NodeCount st) then 1 else 0) <= 1)
        by (destruct (negb (Agent.hasNodeIssue st) && negb (Agent.hasPodIssue st)
                      && bool_decide (0 < NodeCount st)); lia).
      destruct (IH (Agent.processReachableCluster st acc)) as [IH1 IH2]; try lia.
      cbv zeta in IH1, IH2. rewrite IH1, IH2, Hrc, Hhc.
      destruct (negb (Agent.hasNodeIssue st) && negb (Agent.hasPodIssue st)
                && bool_decide (0 < NodeCount st)); cbn [length]; split; lia.
    + match goal with
      | |- context [foldl ?f ?a l] =>
          destruct (IH a) as [IH1 IH2]; cbn; try lia
      end.
      cbv zeta in IH1, IH2. cbn in IH1, IH2. split; assumption.
Qed.

Lemma analyze_unhealthy_from (l : list ClusterStatus) :
  forall acc : Agent.clusterHealthSummary,
    0 <= Agent.totalUnhealthyPods acc ->
    Agent.totalUnhealthyPods acc + sumZ (map unhealthyOf l) <= Go.maxInt64 ->
    Agent.totalUnhealthyPods
      (foldl (fun summary status =>
                if IsReachable (Info status)
                then Agent.processReachableCluster status summary
                else {| Agent.reachableCount := Agent.reachableCount summary;
                        Agent.healthyCount := Agent.healthyCount summary;
                        Agent.totalUnhealthyPods := Agent.totalUnhealthyPods summary;
                        Agent.issues := Agent.issues summary
                                        ++ [Agent.unreachableIssue status] |})
             acc l)
    = Agent.totalUnhealthyPods acc + sumZ (map unhealthyOf l).
Proof.
  assert (Hnn : forall st, 0 <= unhealthyOf st).
  { intros st. unfold unhealthyOf, Agent.hasPodIssue.
    destruct (reachable st); cbn [andb]; [|lia].
    destruct (bool_decide (HealthyPods st < PodCount st)) eqn:E1;
      destruct (bool_decide (0 < PodCount st)); cbn [andb]; try lia.
    apply bool_decide_eq_true in E1. lia. }
  assert (Hsum : forall l, 0 <= sumZ (map unhealthyOf l)).
  { clear l. unfold sumZ. induction l as [|st l IH]; cbn [map foldr]; [lia|].
    specialize (Hnn st). lia. }
  induction l as [|st l IH]; intros acc T0 T1; cbn [foldl map sumZ foldr].
  - lia.
  - fold (sumZ (map unhealthyOf l)) in *. cbn [map sumZ foldr] in T1.
    fold (sumZ (map unhealthyOf l)) in T1.
    specialize (Hnn st). specialize (Hsum l).
    assert (Hstep : Agent.totalUnhealthyPods
                      (if IsReachable (Info st)
                       then Agent.processReachableCluster st acc
                       else {| Agent.reachableCount := Agent.reachableCount acc;
                               Agent.healthyCount := Agent.healthyCount acc;
                               Agent.totalUnhealthyPods := Agent.totalUnhealthyPods acc;
                               Agent.issues := Agent.issues acc
                                               ++ [Agent.unreachableIssue st] |})
                    = Agent.totalUnhealthyPods acc + unhealthyOf st).
    { unfold unhealthyOf, reachable in *.
      destruct (IsReachable (Info st)); cbn [andb] in *; [|cbn; lia].
      unfold Agent.processReachableCluster.
      destruct (Agent.hasNodeIssue st), (Agent.hasPodIssue st);
        cbn [Agent.totalUnhealthyPods]; try lia;
        rewrite (int64_range_small (PodCount st - HealthyPods st)) by lia;
        apply int64_range_small; lia. }
    rewrite IH; rewrite Hstep; lia.
Qed.

Lemma filter_length_le_impl {A} (f g : A -> bool) (l : list A) :
  (forall x, f x = true -> g x = true) ->
  (length (List.filter f l) <= length (List.filter g l))%nat.
Proof.
  intros Hfg. induction l as [|x l IH]; cbn; [lia|].
  destruct (f x) eqn:Hf.
  - rewrite (Hfg x Hf). cbn. lia.
  - destruct (g x); cbn; lia.
Qed.

(** X13. On a fleet of any size a slice can have, the analyzer's
    reachable count is the number of statuses marked reachable, and its
    fully-healthy count is the number of reachable statuses with no node
    issue, no pod issue and at least one node; so fully healthy is at most
    reachable, which is at most the size of the fleet. *)
Theorem X13_analyzer_counts (statuses : list ClusterStatus) :
  Z.of_nat (length statuses) <= Go.maxInt64 ->
  let summary := Agent.analyzeClusterHealth statuses in
  Agent.reachableCount summary = Z.of_nat (length (List.filter reachable statuses))
  /\ Agent.healthyCount summary = Z.of_nat (length (List.filter fullyHealthy statuses))
  /\ 0 <= Agent.healthyCount summary <= Agent.reachableCount summary
  /\ Agent.reachableCount summary <= Z.of_nat (length statuses).
Proof.
  intros Hmax summary. subst summary. unfold Agent.analyzeClusterHealth.
  match goal with
  | |- context [foldl ?f ?a statuses] =>
      destruct (analyze_counts_from statuses a) as [H1 H2]; cbn; try lia
  end.
  cbv zeta in H1, H2. cbn in H1, H2. rewrite H1, H2.
  split; [reflexivity|]. split; [reflexivity|].
  pose proof (filter_length_le_impl fullyHealthy reachable statuses) as Hle.
  pose proof (length_filter_le reachable statuses) as Hle2.
  split; [|lia]. split; [lia|]. apply inj_le, Hle.
  intros st. unfold fullyHealthy. intros H.
  apply andb_true_iff in H as [H _]. apply andb_true_iff in H as [H _].
  apply andb_true_iff in H as [H _]. exact H.
Qed.

Lemma X13_analyzer_counts_witness :
  Agent.reachableCount (Agent.analyzeClusterHealth fleet)
  = Z.of_nat (length (List.filter reachable fleet)).
Proof.
  refine (proj1 (X13_analyzer_counts fleet _)). vm_compute. discriminate.
Defined.

Lemma issuesOf_nil (st : ClusterStatus) : issuesOf st = [] <-> quiet st.
Proof.
  unfold issuesOf, quiet.
  destruct (reachable st), (Agent.hasNodeIssue st), (Agent.hasPodIssue st); cbn;
    split; try discriminate; try (intros (? & ? & ?); discriminate);
    intros _; repeat split.
Qed.

Lemma app_assoc_str (a b c : string) : (a +:+ b) +:+ c = a +:+ (b +:+ c).
Proof.
  induction a as [|x a IH]; [reflexivity|].
  change (String x ((a +:+ b) +:+ c) = String x (a +:+ (b +:+ c))). rewrite IH. reflexivity.
Qed.

Lemma app_nil_r_str (a : string) : a +:+ "" = a.
Proof.
  induction a as [|x a IH]; [reflexivity|].
  change (String x (a +:+ "") = String x a). rewrite IH. reflexivity.
Qed.

Lemma write_lines_from (lines : list string) (acc suffix : string) :
  foldl (fun result issue => result +:+ "  " +:+ issue +:+ nl) (acc +:+ suffix) lines
  = acc +:+ foldl (fun result issue => result +:+ "  " +:+ issue +:+ nl) suffix lines.
Proof.
  revert acc suffix. induction lines as [|i l IH]; intros acc suffix; cbn [foldl];
    [reflexivity|].
  rewrite <- IH. f_equal. apply app_assoc_str.
Qed.

(** X14. The issue list of the analyzer is the concatenation, in input
    order, of what each status contributes: one line for an unreachable
    status, and for a reachable one a node line if it has a node issue and
    then a pod line if it has a pod issue.  So analysing two fleets one
    after the other appends their issue lists; the list is empty exactly
    when every status is reachable with neither issue, and that is exactly
    when [writeIssues] writes the all-healthy line instead of the issues
    header. *)
Theorem X14_analyzer_issues (l1 l2 : list ClusterStatus) (text : string) :
  Agent.issues (Agent.analyzeClusterHealth l1) = flat_map issuesOf l1
  /\ Agent.issues (Agent.analyzeClusterHealth (l1 ++ l2))
     = Agent.issues (Agent.analyzeClusterHealth l1)
       ++ Agent.issues (Agent.analyzeClusterHealth l2)
  /\ (Agent.issues (Agent.analyzeClusterHealth l1) = [] <-> Forall quiet l1)
  /\ (Forall quiet l1 ->
      writeIssues text (Agent.issues (Agent.analyzeClusterHealth l1))
      = text +:+ okIcon +:+ " All clusters are healthy!" +:+ nl +:+ nl)
  /\ (~ Forall quiet l1 ->
      exists rest,
        writeIssues text (Agent.issues (Agent.analyzeClusterHealth l1))
        = text +:+ warnIcon +:+ "  Issues Found:" +:+ nl +:+ rest).
Proof.
  assert (Hall : forall l, Agent.issues (Agent.analyzeClusterHealth l) = flat_map issuesOf l).
  { intros l. unfold Agent.analyzeClusterHealth. rewrite analyze_issues_from. reflexivity. }
  assert (Hnil : forall l, flat_map issuesOf l = [] <-> Forall quiet l).
  { induction l as [|st l IH]; cbn [flat_map].
    - split; [constructor | reflexivity].
    - split.
      + intros H. apply app_eq_nil in H as [H1 H2].
        constructor; [apply issuesOf_nil, H1 | apply IH, H2].
      + intros H. inversion H as [|? ? Hq Hl]; subst.
        apply issuesOf_nil in Hq. apply IH in Hl. rewrite Hq, Hl. reflexivity. }
  split; [apply Hall|]. split; [|split; [|split]].
  - rewrite !Hall, flat_map_app. reflexivity.
  - rewrite Hall. apply Hnil.
  - intros Hq. rewrite Hall. apply Hnil in Hq. rewrite Hq. reflexivity.
  - intros Hq. rewrite Hall.
    destruct (flat_map issuesOf l1) as [|i l] eqn:Hf; [exfalso; apply Hq, Hnil, Hf|].
    unfold writeIssues. rewrite bool_decide_eq_true_2 by (cbn; lia). cbv zeta.
    set (header := warnIcon +:+ "  Issues Found:" +:+ nl).
    exists (foldl (fun result issue : string => result +:+ "  " +:+ issue +:+ nl)
                  "" (i :: l) +:+ nl).
    rewrite (write_lines_from (i :: l) text header).
    rewrite <- (app_nil_r_str header) at 1.
    rewrite (write_lines_from (i :: l) header "").
    subst header. rewrite !app_assoc_str. reflexivity.
Qed.

Lemma unhealthyOf_listed (st : ClusterStatus) :
  countsOk st -> unhealthyOf st = listedUnhealthy st.
Proof.
  intros (_ & _ & _ & Hh & Hp). unfold unhealthyOf, listedUnhealthy, Agent.hasPodIssue.
  destruct (reachable st); cbn [andb]; [|reflexivity].
  destruct (UnhealthyPods st) as [|u l] eqn:Hu.
  - cbn [length] in *. rewrite bool_decide_eq_false_2 by lia. reflexivity.
  - cbn [length] in *. rewrite !bool_decide_eq_true_2 by lia. cbn [andb]. lia.
Qed.

Lemma listedUnhealthy_nonneg (st : ClusterStatus) : 0 <= listedUnhealthy st.
Proof. unfold listedUnhealthy. destruct (reachable st); lia. Qed.

Lemma listedUnhealthy_zero (st : ClusterStatus) :
  listedUnhealthy st = 0 <-> (reachable st = true -> UnhealthyPods st = []).
Proof.
  unfold listedUnhealthy. destruct (reachable st).
  - destruct (UnhealthyPods st); cbn [length]; split; intros H; try reflexivity; try lia.
    specialize (H eq_refl). discriminate.
  - split; [discriminate | reflexivity].
Qed.

Lemma sumZ_listed_nonneg (l : list ClusterStatus) : 0 <= sumZ (map listedUnhealthy l).
Proof.
  unfold sumZ. induction l as [|st l IH]; cbn [map foldr]; [lia|].
  pose proof (listedUnhealthy_nonneg st). lia.
Qed.

(** X15. For statuses whose counters agree with their lists, and as long
    as the total fits an int, the analyzer's unhealthy-pod total is the
    number of pods that the reachable statuses list as unhealthy; pods of
    unreachable statuses are never counted.  The total is zero exactly when
    no reachable status lists an unhealthy pod, and only then does the
    summary line leave the unhealthy-pod part out. *)
Theorem X15_analyzer_unhealthy_pods (statuses : list ClusterStatus) (text : string)
    (total : Z) :
  Forall countsOk statuses ->
  sumZ (map listedUnhealthy statuses) <= Go.maxInt64 ->
  let summary := Agent.analyzeClusterHealth statuses in
  Agent.totalUnhealthyPods summary = sumZ (map listedUnhealthy statuses)
  /\ (Agent.totalUnhealthyPods summary = 0
      <-> Forall (fun st => reachable st = true -> UnhealthyPods st = []) statuses)
  /\ (Agent.totalUnhealthyPods summary = 0 ->
      writeHealthSummary text summary total
      = (text +:+ "Summary: " +:+ Go.itoa (Agent.reachableCount summary) +:+ "/"
           +:+ Go.itoa total +:+ " clusters reachable, "
           +:+ Go.itoa (Agent.healthyCount summary) +:+ " fully healthy")
        +:+ nl +:+ nl).
Proof.
  intros Hok Hmax summary.
  assert (Hmap : map unhealthyOf statuses = map listedUnhealthy statuses).
  { clear Hmax summary. induction Hok as [|st l Hst _ IH]; cbn [map]; [reflexivity|].
    rewrite IH, (unhealthyOf_listed st Hst). reflexivity. }
  assert (Htot : Agent.totalUnhealthyPods summary = sumZ (map listedUnhealthy statuses)).
  { subst summary. unfold Agent.analyzeClusterHealth.
    rewrite analyze_unhealthy_from; cbn [Agent.totalUnhealthyPods]; rewrite ?Hmap; lia. }
  split; [exact Htot|]. split.
  - rewrite Htot. clear. induction statuses as [|st l IH]; cbn [map sumZ foldr].
    + split; [constructor | reflexivity].
    + fold (sumZ (map listedUnhealthy l)).
      pose proof (sumZ_listed_nonneg l) as Hl. pose proof (listedUnhealthy_nonneg st) as Hs.
      split.
      * intros H. constructor; [apply listedUnhealthy_zero; lia | apply IH; lia].
      * intros H. inversion H as [|? ? Hst Hrest]; subst. apply IH in Hrest.
        apply listedUnhealthy_zero in Hst. lia.
  - intros Hz. unfold writeHealthSummary. rewrite Hz.
    rewrite bool_decide_eq_false_2 by lia. reflexivity.
Qed.

Lemma X15_analyzer_unhealthy_pods_witness :
  Agent.totalUnhealthyPods (Agent.analyzeClusterHealth probedFleet)
  = sumZ (map listedUnhealthy probedFleet).
Proof.
  refine (proj1 (X15_analyzer_unhealthy_pods probedFleet "" 0 _ _)).
  - vm_compute. repeat first [discriminate | constructor].
  - vm_compute. discriminate.
Defined.

Lemma icons_distinct : okIcon <> warnIcon /\ okIcon <> crossIcon /\ warnIcon <> crossIcon.
Proof.
  split; [|split]; intros H; apply String.eqb_eq in H; vm_compute in H; discriminate.
Qed.

(** X16. For a status whose counters agree with its lists, the icon of
    [getClusterStatusIcon] tells the same story as the analyzer: the cross
    exactly for an unreachable status, the check mark exactly when the
    analyzer has no issue line for the status, the warning sign exactly
    for a reachable status with an issue line.  Being counted as fully
    healthy asks for more than the check mark: at least one node. *)
Theorem X16_icon_agrees_with_analyzer (st : ClusterStatus) :
  countsOk st ->
  (getClusterStatusIcon st = crossIcon <-> reachable st = false)
  /\ (getClusterStatusIcon st = okIcon <-> issuesOf st = [])
  /\ (getClusterStatusIcon st = warnIcon <-> reachable st = true /\ issuesOf st <> [])
  /\ (fullyHealthy st = true <-> getClusterStatusIcon st = okIcon /\ 0 < NodeCount st).
Proof.
  intros (_ & _ & Hn & Hp & _).
  destruct icons_distinct as (How & Hoc & Hwc).
  unfold getClusterStatusIcon, fullyHealthy, issuesOf, reachable,
    Agent.hasNodeIssue, Agent.hasPodIssue.
  destruct (IsReachable (Info st)); cbn [negb andb].
  - repeat case_bool_decide; cbn [andb orb negb app];
      repeat split; intros; try congruence; try lia; try discriminate;
      try (exfalso; intuition congruence); intuition (try congruence; try lia).
  - repeat split; intros; try congruence; try discriminate;
      try (exfalso; intuition congruence); intuition (try congruence; try discriminate).
Qed.

Lemma X16_icon_witness :
  exists st,
    head probedFleet = Some st
    /\ (getClusterStatusIcon st = okIcon <-> issuesOf st = []).
Proof.
  eexists. split; [vm_compute; reflexivity|].
  refine (proj1 (proj2 (X16_icon_agrees_with_analyzer _ _))).
  vm_compute. repeat first [discriminate | constructor].
Defined.

Lemma probeResults_length (envs : nat -> Env) (ctx : Go.Context) (contexts : list string) :
  forall (i : nat) (p : Provider),
    length (probeResults envs ctx i contexts p) = length contexts.
Proof.
  induction contexts as [|c rest IH]; intros i p; cbn [probeResults length];
    [reflexivity|]. rewrite IH. reflexivity.
Qed.

Lemma compareLoop_spec (envs : nat -> Env) (ctx : Go.Context) (contexts : list string) :
  forall (i : nat) (p : Provider) (comparisons : list ComparisonData) (log : list Event),
    (compareLoop envs ctx i contexts (p, comparisons, log)).1.2
    = comparisons ++ zip_with comparisonOf contexts (probeResults envs ctx i contexts p).
Proof.
  induction contexts as [|c rest IH]; intros i p comparisons log;
    cbn [compareLoop probeResults zip_with].
  - rewrite app_nil_r. reflexivity.
  - unfold buildComparisonData.
    destruct (GetClusterStatus (envs i) p ctx c start) as [[p' r] s'].
    cbn [fst snd]. rewrite IH, <- app_assoc. reflexivity.
Qed.

Lemma counted_comparisonOf (contextName : string) (r : result ClusterStatus) :
  counted (comparisonOf contextName r) = reachableResult r.
Proof.
  unfold counted, comparisonOf, reachableResult, reachable.
  destruct r as [st|msg]; [|reflexivity].
  destruct (IsReachable (Info st)); [|reflexivity].
  destruct (bool_decide (HealthyNodes st < NodeCount st)); reflexivity.
Qed.

Lemma countReachable_from (comparisons : list ComparisonData) :
  forall acc : Z,
    0 <= acc -> acc + Z.of_nat (length comparisons) <= Go.maxInt64 ->
    foldl (fun count comp =>
             if Strings.Contains (cdStatus comp) "Reachable"
                || Strings.Contains (cdStatus comp) "Degraded"
             then Go.int64 (count + 1) else count)
          acc comparisons
    = acc + Z.of_nat (length (List.filter counted comparisons)).
Proof.
  induction comparisons as [|d l IH]; intros acc H0 H1; cbn [foldl List.filter length] in *.
  - lia.
  - unfold counted at 1.
    destruct (Strings.Contains (cdStatus d) "Reachable"
              || Strings.Contains (cdStatus d) "Degraded").
    + rewrite (int64_range_small (acc + 1)) by lia. rewrite IH by lia. cbn [length]. lia.
    + rewrite IH by lia. lia.
Qed.

Lemma counted_zip (contexts : list string) :
  forall results : list (result ClusterStatus),
    length results = length contexts ->
    length (List.filter counted (zip_with comparisonOf contexts results))
    = length (List.filter reachableResult results).
Proof.
  induction contexts as [|c rest IH]; intros [|r results] Hlen; cbn [length] in Hlen;
    try discriminate; [reflexivity|].
  cbn [zip_with List.filter]. rewrite counted_comparisonOf.
  destruct (reachableResult r); cbn [length]; rewrite IH by lia; reflexivity.
Qed.

Lemma contexts_zip (contexts : list string) :
  forall results : list (result ClusterStatus),
    length results = length contexts ->
    map cdContext (zip_with comparisonOf contexts results) = contexts.
Proof.
  induction contexts as [|c rest IH]; intros [|r results] Hlen;
    cbn [length] in Hlen; try discriminate; [reflexivity|].
  cbn [zip_with map]. rewrite IH by lia. destruct r as [st|msg]; [|reflexivity].
  cbn [comparisonOf]. destruct (IsReachable (Info st)); reflexivity.
Qed.

(** X17. The handler of [compare_clusters] refuses an empty list of
    contexts without probing anything.  Otherwise it probes the requested
    contexts one after the other and, in JSON mode, answers with one entry
    per requested context, in the order asked (a context asked twice is
    reported twice), the total being the number of contexts asked; the
    reachable count, found by searching the status texts, is exactly the
    number of probes that returned a status marked reachable: neither an
    unreachable status nor a failed lookup is ever counted.  In text mode
    the closing line states the same two numbers. *)
Theorem X17_compareClusters (envs : nat -> Env) (p : Provider) (outputFormat : string)
    (contexts : list string) :
  Z.of_nat (length contexts) <= Go.maxInt64 ->
  let results := probeResults envs Go.Background 0 contexts p in
  let reachableProbes := Z.of_nat (length (List.filter reachableResult results)) in
  (contexts = [] ->
   compareClusters envs p outputFormat contexts
   = (p, Err "at least one context must be provided", []))
  /\ (contexts <> [] -> outputFormat = OutputJSON ->
      exists clusters,
        (compareClusters envs p outputFormat contexts).1.2
        = Ok (CompareJSON (Z.of_nat (length contexts)) reachableProbes clusters)
        /\ clusters = zip_with comparisonOf contexts results
        /\ map cdContext clusters = contexts)
  /\ (contexts <> [] -> outputFormat <> OutputJSON ->
      exists body,
        (compareClusters envs p outputFormat contexts).1.2
        = Ok (CompareText
                (body +:+ "Summary: " +:+ Go.itoa reachableProbes +:+ "/"
                   +:+ Go.itoa (Z.of_nat (length contexts))
                   +:+ " clusters reachable" +:+ nl))).
Proof.
  intros Hmax results reachableProbes.
  pose proof (compareLoop_spec envs Go.Background contexts 0 p [] []) as Hloop.
  cbn [app] in Hloop. fold results in Hloop.
  assert (Hlen : length results = length contexts) by apply probeResults_length.
  assert (Hzl : length (zip_with comparisonOf contexts results) = length contexts).
  { rewrite length_zip_with. lia. }
  assert (Hcount : countReachableClusters (zip_with comparisonOf contexts results)
                   = reachableProbes).
  { unfold countReachableClusters. rewrite countReachable_from; [| lia | rewrite Hzl; lia].
    rewrite counted_zip by exact Hlen. subst reachableProbes. lia. }
  assert (Hctx : map cdContext (zip_with comparisonOf contexts results) = contexts).
  { apply contexts_zip, Hlen. }
  split; [intros ->; reflexivity|].
  assert (Hne' : contexts <> [] -> bool_decide (length contexts = 0%nat) = false).
  { intros Hne. apply bool_decide_eq_false_2. destruct contexts; [congruence | discriminate]. }
  split.
  - intros Hne ->. unfold compareClusters. rewrite (Hne' Hne).
    destruct (compareLoop envs Go.Background 0 contexts (p, [], [])) as [[p' comparisons] log].
    cbn [fst snd] in Hloop. subst comparisons.
    change (isJSONOutput OutputJSON) with true. cbn [fst snd].
    eexists. split; [|split; [reflexivity | exact Hctx]].
    rewrite Hzl, Hcount. reflexivity.
  - intros Hne Hfmt. unfold compareClusters. rewrite (Hne' Hne).
    destruct (compareLoop envs Go.Background 0 contexts (p, [], [])) as [[p' comparisons] log].
    cbn [fst snd] in Hloop. subst comparisons.
    assert (Hj : isJSONOutput outputFormat = false).
    { unfold isJSONOutput. apply String.eqb_neq. exact Hfmt. }
    rewrite Hj. cbn [fst snd]. rewrite Hzl, Hcount.
    eexists. reflexivity.
Qed.

Lemma X17_compareClusters_witness :
  exists clusters,
    (compareClusters sampleEnvs sampleProvider OutputJSON ["prod"; "missing"; "dev"]).1.2
    = Ok (CompareJSON 3 1 clusters)
    /\ map cdContext clusters = ["prod"; "missing"; "dev"].
Proof.
  pose proof (X17_compareClusters sampleEnvs sampleProvider OutputJSON
                ["prod"; "missing"; "dev"]) as H.
  destruct H as (_ & H & _); [vm_compute; discriminate|].
  destruct (H ltac:(discriminate) eq_refl) as (clusters & H1 & _ & H3).
  exists clusters. split; [|exact H3].
  rewrite H1. reflexivity.
Defined.

(** ** The [kubectl_exec] tool and the execution modes *)

Import Exec.

Lemma runs_app (a b : list Effect) : runs (a ++ b) = runs a ++ runs b.
Proof. unfold runs. apply omap_app. Qed.

Lemma reads_app (a b : list Effect) : reads (a ++ b) = (reads a + reads b)%nat.
Proof. unfold reads. rewrite List.filter_app, length_app. reflexivity. Qed.

Lemma printExecutionHeader_quiet (state : agentState) (isReadOnly : bool)
    (fullCommand : string) :
  runs (printExecutionHeader state isReadOnly fullCommand) = []
  /\ reads (printExecutionHeader state isReadOnly fullCommand) = 0%nat.
Proof.
  unfold printExecutionHeader.
  destruct (isJSONOutput (outputFormat state)), isReadOnly; split; reflexivity.
Qed.

Lemma yes_dec (ToLower TrimSpace : string -> string) (line : string) :
  negb (String.eqb (TrimSpace (ToLower line)) "yes")
  && negb (String.eqb (TrimSpace (ToLower line)) "y") = false
  <-> yes ToLower TrimSpace line.
Proof.
  unfold yes.
  destruct (String.eqb_spec (TrimSpace (ToLower line)) "yes") as [H1|H1];
    destruct (String.eqb_spec (TrimSpace (ToLower line)) "y") as [H2|H2];
    cbn [negb andb]; split; intros H; try reflexivity; try discriminate;
    try (left; assumption); try (right; assumption).
  destruct H; contradiction.
Qed.

Lemma confirmWriteOperation_spec (ToLower TrimSpace : string -> string) (w : World)
    (state : agentState) (fullCommand : string) :
  runs (confirmWriteOperation ToLower TrimSpace w state fullCommand).2 = []
  /\ reads (confirmWriteOperation ToLower TrimSpace w state fullCommand).2 = 1%nat
  /\ match ReadString w with
     | Err e =>
         (confirmWriteOperation ToLower TrimSpace w state fullCommand).1
         = Err ("failed to read confirmation: " +:+ e)
     | Ok line =>
         (yes ToLower TrimSpace line
          /\ (confirmWriteOperation ToLower TrimSpace w state fullCommand).1 = Ok true)
         \/ (~ yes ToLower TrimSpace line
             /\ (confirmWriteOperation ToLower TrimSpace w state fullCommand).1 = Ok false)
     end.
Proof.
  unfold confirmWriteOperation.
  destruct (ReadString w) as [line|e].
  - pose proof (yes_dec ToLower TrimSpace line) as Hy.
    destruct (negb (String.eqb (TrimSpace (ToLower line)) "yes")
              && negb (String.eqb (TrimSpace (ToLower line)) "y"));
      destruct (isJSONOutput (outputFormat state)); cbn [negb fst snd];
      (split; [reflexivity|]); (split; [reflexivity|]);
      try (left; split; [apply Hy; reflexivity | reflexivity]);
      right; (split; [|reflexivity]); intros Hyes; apply Hy in Hyes; discriminate.
  - destruct (isJSONOutput (outputFormat state)); cbn [negb fst snd];
      repeat split; reflexivity.
Qed.

Lemma validate_ok (params : KubectlExecParams) :
  validateKubectlExecParams params = Ok tt
  <-> kxContext params <> "" /\ kxArgs params <> [].
Proof.
  unfold validateKubectlExecParams.
  destruct (String.eqb_spec (kxContext params) "") as [Hc|Hc].
  - split; [discriminate | intros [H _]; contradiction].
  - destruct (kxArgs params) as [|a l]; cbn [length].
    + rewrite bool_decide_eq_true_2 by reflexivity.
      split; [discriminate | intros [_ H]; contradiction].
    + rewrite bool_decide_eq_false_2 by discriminate.
      split; [intros _; split; [exact Hc | discriminate] | reflexivity].
Qed.

Lemma handleKubectlExec_outcome (ToLower TrimSpace : string -> string) (w : World)
    (p : Provider) (state : agentState) (params : KubectlExecParams) :
  ExecOutcome ToLower TrimSpace w p state params
    (handleKubectlExec ToLower TrimSpace w p state params).
Proof.
  unfold handleKubectlExec.
  destruct (validateKubectlExecParams params) as [[]|err] eqn:Hv;
    [|apply Exec_invalid; exact Hv].
  unfold getClusterForContext.
  destruct (GetClusterByContext p (kxContext params)) as [cluster|err] eqn:Hc;
    [|eapply Exec_unknown; [exact Hv | exact Hc]].
  cbv beta iota zeta delta [buildKubectlCommand].
  fold (commandLine params).
  pose proof (printExecutionHeader_quiet state (isReadOnlyCommand (kxArgs params))
                ("kubectl --context " +:+ kxContext params +:+ " "
                   +:+ Join (kxArgs params) " ")) as [Hh1 Hh2].
  assert (Hran : forall log,
            runs log = [] ->
            (isReadOnlyCommand (kxArgs params) = true /\ reads log = 0%nat
             \/ isReadOnlyCommand (kxArgs params) = false /\ mode state = ModeInteractive
                /\ confirms ToLower TrimSpace w /\ reads log = 1%nat
             \/ isReadOnlyCommand (kxArgs params) = false /\ mode state <> ModeReadOnly
                /\ mode state <> ModeInteractive /\ reads log = 0%nat) ->
            ExecOutcome ToLower TrimSpace w p state params
              (let '(output, execErr) := CombinedOutput w (commandLine params) in
               if isJSONOutput (outputFormat state)
               then (buildKubectlJSONResult (Name cluster) (kxContext params)
                       ("kubectl --context " +:+ kxContext params +:+ " "
                          +:+ Join (kxArgs params) " ") output execErr,
                     (log ++ printExecutionHeader state (isReadOnlyCommand (kxArgs params))
                               ("kubectl --context " +:+ kxContext params +:+ " "
                                  +:+ Join (kxArgs params) " "))
                     ++ [RunKubectl (commandLine params)])
               else (buildKubectlTextResult (Name cluster) (kxContext params)
                       ("kubectl --context " +:+ kxContext params +:+ " "
                          +:+ Join (kxArgs params) " ") output execErr,
                     (log ++ printExecutionHeader state (isReadOnlyCommand (kxArgs params))
                               ("kubectl --context " +:+ kxContext params +:+ " "
                                  +:+ Join (kxArgs params) " "))
                     ++ [RunKubectl (commandLine params)]))).
  { intros log Hruns Hwhy.
    set (final := (log ++ printExecutionHeader state (isReadOnlyCommand (kxArgs params))
                            ("kubectl --context " +:+ kxContext params +:+ " "
                               +:+ Join (kxArgs params) " "))
                  ++ [RunKubectl (commandLine params)]).
    assert (Hr : runs final = [commandLine params]).
    { subst final. rewrite !runs_app, Hruns, Hh1. reflexivity. }
    assert (Hd : reads final = reads log).
    { subst final. rewrite !reads_app, Hh2. cbn. lia. }
    rewrite <- Hd in Hwhy.
    pose proof (Exec_ran ToLower TrimSpace w p state params cluster final
                  Hv Hc Hwhy Hr) as H.
    cbv beta iota zeta delta [buildKubectlCommand] in H. cbn [fst] in H.
    destruct (CombinedOutput w (commandLine params)) as [output execErr].
    cbn [fst snd] in H.
    destruct (isJSONOutput (outputFormat state)); exact H. }
  unfold enforceExecutionMode.
  destruct (isReadOnlyCommand (kxArgs params)) eqn:Hro; cbn [negb andb].
  - apply (Hran []); [reflexivity | left; split; reflexivity].
  - destruct (Z.eqb_spec (mode state) ModeReadOnly) as [Hm|Hm].
    + eapply Exec_blocked; [exact Hv | exact Hc | exact Hro | exact Hm | |];
        destruct (isJSONOutput (outputFormat state)); reflexivity.
    + destruct (Z.eqb_spec (mode state) ModeInteractive) as [Hi|Hi].
      * pose proof (confirmWriteOperation_spec ToLower TrimSpace w state
                      ("kubectl --context " +:+ kxContext params +:+ " "
                         +:+ Join (kxArgs params) " ")) as (Hc1 & Hc2 & Hc3).
        destruct (confirmWriteOperation ToLower TrimSpace w state
                    ("kubectl --context " +:+ kxContext params +:+ " "
                       +:+ Join (kxArgs params) " ")) as [r log].
        cbn [fst snd] in Hc1, Hc2, Hc3.
        destruct (ReadString w) as [line|e] eqn:Hread.
        -- destruct Hc3 as [[Hyes ->]|[Hno ->]]; cbn [negb].
           ++ apply (Hran log); [exact Hc1|]. right. left.
              split; [reflexivity|]. split; [exact Hi|]. split; [|exact Hc2].
              exists line. split; [exact Hread | exact Hyes].
           ++ eapply Exec_declined; eauto.
        -- subst r. eapply Exec_read_failed; eauto.
      * apply (Hran []); [reflexivity|]. right. right.
        split; [reflexivity|]. split; [exact Hm|]. split; [exact Hi | reflexivity].
Qed.

Ltac exec_cases ToLower TrimSpace w p state params :=
  let HO := fresh "HO" in
  pose proof (handleKubectlExec_outcome ToLower TrimSpace w p state params) as HO;
  destruct (handleKubectlExec ToLower TrimSpace w p state params) as [[value err] log];
  cbn [fst snd];
  inversion HO as
    [ msg Hv
    | msg Hv Hc
    | cluster msg log' Hv Hc Hro Hm Hruns Hreads
    | cluster e log' Hv Hc Hro Hm Hread Hruns Hreads
    | cluster line log' Hv Hc Hro Hm Hread Hno Hruns Hreads
    | cluster log' Hv Hc Hwhy Hruns Hvalue ]; subst.

Lemma ran_value (json : bool) (clusterName contextName fullCommand output : string)
    (execErr : option ExecError) (value : option ExecValue) (err : option string) :
  (if json then buildKubectlJSONResult else buildKubectlTextResult)
    clusterName contextName fullCommand output execErr = (value, err) ->
  is_Some value /\ (is_Some err <-> is_Some execErr).
Proof.
  unfold buildKubectlJSONResult, buildKubectlTextResult.
  destruct json, execErr as [e|]; intros [= <- <-]; split; try (eexists; reflexivity);
    split; intros H; try (eexists; reflexivity); destruct H as [? H]; discriminate.
Qed.

(** X18. In read-only mode [handleKubectlExec] never runs a command that
    is not on the read-only list: [kubectl] runs at most once, and only for
    a command whose first word is one of the read-only commands.  A command
    that is not on the list ends in an error with no value, nothing is
    run, and in this mode standard input is never read. *)
Theorem X18_read_only_mode_never_writes
    (ToLower TrimSpace : string -> string) (w : World) (p : Provider)
    (state : agentState) (params : KubectlExecParams) :
  mode state = ModeReadOnly ->
  let run := handleKubectlExec ToLower TrimSpace w p state params in
  reads run.2 = 0%nat
  /\ (runs run.2 = []
      \/ runs run.2 = [commandLine params]
         /\ isReadOnlyCommand (kxArgs params) = true)
  /\ (isReadOnlyCommand (kxArgs params) = false ->
      runs run.2 = [] /\ run.1.1 = None /\ is_Some run.1.2).
Proof.
  intros Hmode run. subst run.
  exec_cases ToLower TrimSpace w p state params.
  - split; [reflexivity|]. split; [left; reflexivity|]. intros _.
    split; [reflexivity|]. split; [reflexivity | eexists; reflexivity].
  - split; [reflexivity|]. split; [left; reflexivity|]. intros _.
    split; [reflexivity|]. split; [reflexivity | eexists; reflexivity].
  - split; [exact Hreads|]. split; [left; exact Hruns|]. intros _.
    split; [exact Hruns|]. split; [reflexivity | eexists; reflexivity].
  - rewrite Hmode in Hm. discriminate.
  - rewrite Hmode in Hm. discriminate.
  - destruct Hwhy as [[Hro Hreads] | [(_ & Hm & _) | (_ & Hm & _)]];
      try (rewrite Hmode in Hm; discriminate); try contradiction.
    split; [exact Hreads|]. split; [right; split; assumption|].
    intros Hno. rewrite Hro in Hno. discriminate.
Qed.

Lemma X18_read_only_mode_witness :
  runs (handleKubectlExec asciiToLower asciiTrimSpace sampleWorld sampleProvider
          {| mode := ModeReadOnly; outputFormat := OutputText |}
          {| kxContext := "prod"; kxArgs := ["delete"; "pod"; "web"] |}).2 = [].
Proof.
  refine (proj1 (proj2 (proj2 (X18_read_only_mode_never_writes asciiToLower asciiTrimSpace
            sampleWorld sampleProvider
            {| mode := ModeReadOnly; outputFormat := OutputText |}
            {| kxContext := "prod"; kxArgs := ["delete"; "pod"; "web"] |} eq_refl)) _)).
  reflexivity.
Defined.

(** X19. In interactive mode a command that is not on the read-only list
    is run only after a yes: the handler reads standard input once, and
    [kubectl] runs exactly when the line read, lowered and trimmed, is
    [yes] or [y].  Any other line returns the cancellation text without an
    error, a failed read returns the read error, and in both cases nothing
    is run. *)
Theorem X19_interactive_write_needs_yes
    (ToLower TrimSpace : string -> string) (w : World) (p : Provider)
    (state : agentState) (params : KubectlExecParams) :
  mode state = ModeInteractive ->
  isReadOnlyCommand (kxArgs params) = false ->
  let run := handleKubectlExec ToLower TrimSpace w p state params in
  (runs run.2 <> [] -> confirms ToLower TrimSpace w)
  /\ (kxContext params <> "" -> kxArgs params <> [] ->
      is_Some (clusters p !! kxContext params) ->
      reads run.2 = 1%nat
      /\ match ReadString w with
         | Err e =>
             runs run.2 = []
             /\ run.1 = (None, Some ("failed to read confirmation: " +:+ e))
         | Ok line =>
             (yes ToLower TrimSpace line /\ runs run.2 = [commandLine params])
             \/ (~ yes ToLower TrimSpace line /\ runs run.2 = []
                 /\ run.1 = (Some (ExecText "Operation cancelled by user"), None))
         end).
Proof.
  intros Hmode Hwrite run. subst run.
  assert (Hknown : kxContext params <> "" -> kxArgs params <> [] ->
                   is_Some (clusters p !! kxContext params) ->
                   validateKubectlExecParams params = Ok tt
                   /\ exists cluster, GetClusterByContext p (kxContext params) = Ok cluster).
  { intros Hctx Hargs [cluster Hc]. split; [apply validate_ok; split; assumption|].
    exists cluster. unfold GetClusterByContext. rewrite Hc. reflexivity. }
  exec_cases ToLower TrimSpace w p state params.
  - split; [intros H; contradiction|]. intros Hctx Hargs Hk.
    destruct (Hknown Hctx Hargs Hk) as [Hv' _]. congruence.
  - split; [intros H; contradiction|]. intros Hctx Hargs Hk.
    destruct (Hknown Hctx Hargs Hk) as [_ [cluster Hc']]. congruence.
  - rewrite Hmode in Hm. discriminate.
  - split; [rewrite Hruns; intros H; contradiction|]. intros _ _ _.
    split; [exact Hreads|]. rewrite Hread. split; [exact Hruns | reflexivity].
  - split; [rewrite Hruns; intros H; contradiction|]. intros _ _ _.
    split; [exact Hreads|]. rewrite Hread. right.
    split; [exact Hno|]. split; [exact Hruns | reflexivity].
  - destruct Hwhy as [[Hro _] | [(_ & _ & Hyes & Hreads) | (_ & _ & Hm & _)]];
      [rewrite Hro in Hwrite; discriminate | | contradiction].
    split; [intros _; exact Hyes|]. intros _ _ _. split; [exact Hreads|].
    destruct Hyes as (line & Hread & Hyes). rewrite Hread. left.
    split; [exact Hyes | exact Hruns].
Qed.

Lemma X19_interactive_write_witness :
  confirms asciiToLower asciiTrimSpace sampleWorld.
Proof.
  refine (proj1 (X19_interactive_write_needs_yes asciiToLower asciiTrimSpace
            sampleWorld sampleProvider
            {| mode := ModeInteractive; outputFormat := OutputJSON |}
            {| kxContext := "prod"; kxArgs := ["scale"; "deploy/web"; "--replicas=3"] |}
            eq_refl eq_refl) _).
  vm_compute. discriminate.
Defined.

(** X20. Whatever the mode, [handleKubectlExec] runs [kubectl] at most
    once, and then with exactly [--context], the requested context and the
    given arguments, for a non-empty argument list and a context that the
    provider has an entry for; the handler then returns a value, and an
    error exactly when the command failed.  With an empty context, no
    arguments or an unknown context it returns an error and does nothing
    at all: nothing printed, read or run.  A command on the read-only list
    never makes it read standard input. *)
Theorem X20_exec_scope
    (ToLower TrimSpace : string -> string) (w : World) (p : Provider)
    (state : agentState) (params : KubectlExecParams) :
  let run := handleKubectlExec ToLower TrimSpace w p state params in
  (runs run.2 = []
   \/ runs run.2 = [commandLine params]
      /\ kxContext params <> "" /\ kxArgs params <> []
      /\ is_Some (clusters p !! kxContext params)
      /\ is_Some run.1.1
      /\ (is_Some run.1.2 <-> is_Some (CombinedOutput w (commandLine params)).2))
  /\ (kxContext params = "" \/ kxArgs params = [] \/ clusters p !! kxContext params = None ->
      run.2 = [] /\ run.1.1 = None /\ is_Some run.1.2)
  /\ (isReadOnlyCommand (kxArgs params) = true -> reads run.2 = 0%nat)
  /\ (reads run.2 <= 1)%nat.
Proof.
  intros run. subst run.
  assert (Hbad : kxContext params = "" \/ kxArgs params = []
                 \/ clusters p !! kxContext params = None ->
                 forall cluster, validateKubectlExecParams params = Ok tt ->
                                 GetClusterByContext p (kxContext params) = Ok cluster -> False).
  { intros Hb cluster Hv Hc. apply validate_ok in Hv as [H1 H2].
    unfold GetClusterByContext in Hc.
    destruct Hb as [Hb | [Hb | Hb]]; [contradiction | contradiction |].
    rewrite Hb in Hc. discriminate. }
  exec_cases ToLower TrimSpace w p state params.
  - split; [left; reflexivity|]. split; [|split; [reflexivity | cbn; lia]].
    intros _. split; [reflexivity|]. split; [reflexivity | eexists; reflexivity].
  - split; [left; reflexivity|]. split; [|split; [reflexivity | cbn; lia]].
    intros _. split; [reflexivity|]. split; [reflexivity | eexists; reflexivity].
  - split; [left; exact Hruns|]. split; [|split; [intros _; exact Hreads | lia]].
    intros Hb. destruct (Hbad Hb cluster Hv Hc).
  - split; [left; exact Hruns|]. split; [|split; [congruence | lia]].
    intros Hb. destruct (Hbad Hb cluster Hv Hc).
  - split; [left; exact Hruns|]. split; [|split; [congruence | lia]].
    intros Hb. destruct (Hbad Hb cluster Hv Hc).
  - apply ran_value in Hvalue as [Hval Herr].
    pose proof Hv as Hv'. apply validate_ok in Hv' as [H1 H2].
    split.
    { right. split; [exact Hruns|]. split; [exact H1|]. split; [exact H2|].
      split; [|split; [exact Hval | exact Herr]].
      unfold GetClusterByContext in Hc.
      destruct (clusters p !! kxContext params); [eexists; reflexivity | discriminate]. }
    split; [intros Hb; destruct (Hbad Hb cluster Hv Hc)|].
    destruct Hwhy as [[Hro Hreads] | [(Hro & _ & _ & Hreads) | (Hro & _ & _ & Hreads)]];
      (split; [intros Hr; try exact Hreads; congruence | lia]).
Qed.

Lemma handleModeSwitch_cases (ToLower TrimSpace : string -> string) (input : string)
    (state : agentState) :
  let lower := TrimSpace (ToLower input) in
  let run := handleModeSwitch ToLower TrimSpace input state in
  ((lower = "/readonly" \/ lower = "/readonly on")
   /\ run.1 = ({| mode := ModeReadOnly; outputFormat := outputFormat state |}, true))
  \/ ((lower = "/interactive" \/ lower = "/interactive on")
      /\ run.1 = ({| mode := ModeInteractive; outputFormat := outputFormat state |}, true))
  \/ ((lower = "/mode" \/ lower = "/status") /\ run.1 = (state, true))
  \/ (lower <> "/readonly" /\ lower <> "/readonly on" /\ lower <> "/interactive"
      /\ lower <> "/interactive on" /\ lower <> "/mode" /\ lower <> "/status"
      /\ run = (state, false, [])).
Proof.
  intros lower run. subst run. unfold handleModeSwitch. fold lower.
  destruct (String.eqb_spec lower "/readonly") as [H1|H1]; cbn [orb].
  { left. split; [left; exact H1|].
    destruct (Z.eqb_spec (mode state) ModeReadOnly) as [Hm|Hm]; [|reflexivity].
    destruct state as [m f]. cbn in *. subst m. reflexivity. }
  destruct (String.eqb_spec lower "/readonly on") as [H2|H2]; cbn [orb].
  { left. split; [right; exact H2|].
    destruct (Z.eqb_spec (mode state) ModeReadOnly) as [Hm|Hm]; [|reflexivity].
    destruct state as [m f]. cbn in *. subst m. reflexivity. }
  destruct (String.eqb_spec lower "/interactive") as [H3|H3]; cbn [orb].
  { right. left. split; [left; exact H3|].
    destruct (Z.eqb_spec (mode state) ModeInteractive) as [Hm|Hm]; [|reflexivity].
    destruct state as [m f]. cbn in *. subst m. reflexivity. }
  destruct (String.eqb_spec lower "/interactive on") as [H4|H4]; cbn [orb].
  { right. left. split; [right; exact H4|].
    destruct (Z.eqb_spec (mode state) ModeInteractive) as [Hm|Hm]; [|reflexivity].
    destruct state as [m f]. cbn in *. subst m. reflexivity. }
  destruct (String.eqb_spec lower "/mode") as [H5|H5]; cbn [orb].
  { right. right. left. split; [left; exact H5 | reflexivity]. }
  destruct (String.eqb_spec lower "/status") as [H6|H6]; cbn [orb].
  { right. right. left. split; [right; exact H6 | reflexivity]. }
  right. right. right. repeat (split; [assumption|]). reflexivity.
Qed.

Lemma handleModeSwitch_quiet (ToLower TrimSpace : string -> string) (input : string)
    (state : agentState) :
  runs (handleModeSwitch ToLower TrimSpace input state).2 = []
  /\ reads (handleModeSwitch ToLower TrimSpace input state).2 = 0%nat.
Proof.
  unfold handleModeSwitch.
  repeat match goal with
         | |- context [if ?b then _ else _] => destruct b
         end; split; reflexivity.
Qed.

(** X21. [handleModeSwitch] recognises exactly six inputs (after
    lowering and trimming): the two read-only commands put the agent in
    read-only mode, the two interactive commands in interactive mode, and
    [/mode] and [/status] only report.  Any other input is not taken as a
    mode command, changes nothing and prints nothing.  The output format is
    never touched, nothing is run or read, and giving the same input again
    leaves the state where the first time put it. *)
Theorem X21_mode_switch (ToLower TrimSpace : string -> string) (input : string)
    (state : agentState) :
  let lower := TrimSpace (ToLower input) in
  let run := handleModeSwitch ToLower TrimSpace input state in
  (run.1.2 = true <->
   lower = "/readonly" \/ lower = "/readonly on" \/ lower = "/interactive"
   \/ lower = "/interactive on" \/ lower = "/mode" \/ lower = "/status")
  /\ (lower = "/readonly" \/ lower = "/readonly on" -> mode run.1.1 = ModeReadOnly)
  /\ (lower = "/interactive" \/ lower = "/interactive on" ->
      mode run.1.1 = ModeInteractive)
  /\ (lower = "/mode" \/ lower = "/status" -> run.1.1 = state)
  /\ (run.1.2 = false -> run = (state, false, []))
  /\ outputFormat run.1.1 = outputFormat state
  /\ runs run.2 = [] /\ reads run.2 = 0%nat
  /\ (handleModeSwitch ToLower TrimSpace input run.1.1).1 = run.1.
Proof.
  intros lower run.
  pose proof (handleModeSwitch_quiet ToLower TrimSpace input state) as [Hq1 Hq2].
  pose proof (handleModeSwitch_cases ToLower TrimSpace input state) as H.
  cbv zeta in H. fold lower in H. fold run in H, Hq1, Hq2.
  assert (Hagain : forall st,
            (handleModeSwitch ToLower TrimSpace input st).1.2 = run.1.2
            /\ (run.1.2 = true -> lower = "/readonly" \/ lower = "/readonly on" ->
                (handleModeSwitch ToLower TrimSpace input st).1.1
                = {| mode := ModeReadOnly; outputFormat := outputFormat st |})
            /\ (lower = "/interactive" \/ lower = "/interactive on" ->
                (handleModeSwitch ToLower TrimSpace input st).1.1
                = {| mode := ModeInteractive; outputFormat := outputFormat st |})
            /\ (lower = "/mode" \/ lower = "/status" \/ run.1.2 = false ->
                (handleModeSwitch ToLower TrimSpace input st).1.1 = st)).
  { intros st.
    pose proof (handleModeSwitch_cases ToLower TrimSpace input st) as H'.
    cbv zeta in H'. fold lower in H'.
    destruct H as [[Ha Hb] | [[Ha Hb] | [[Ha Hb] | (N1 & N2 & N3 & N4 & N5 & N6 & Hb)]]];
      destruct H' as [[Ha' Hb'] | [[Ha' Hb'] | [[Ha' Hb']
                     | (N1' & N2' & N3' & N4' & N5' & N6' & Hb')]]];
      rewrite Hb, Hb'; cbn [fst snd];
      try (exfalso; destruct Ha as [Ha|Ha]; destruct Ha' as [Ha'|Ha'];
           rewrite Ha in Ha'; discriminate);
      try (exfalso; destruct Ha as [Ha|Ha]; contradiction);
      try (exfalso; destruct Ha' as [Ha'|Ha']; contradiction);
      (split; [reflexivity|]); (split; [|split]); intros; try reflexivity;
      repeat match goal with
             | Hx : _ \/ _ |- _ => destruct Hx
             end; try contradiction; try discriminate;
      exfalso; repeat match goal with
                      | Hx : lower = _, Hy : lower = _ |- _ => rewrite Hx in Hy; discriminate
                      end. }
  destruct H as [[Ha Hb] | [[Ha Hb] | [[Ha Hb] | (N1 & N2 & N3 & N4 & N5 & N6 & Hb)]]].
  - destruct (Hagain (run.1.1)) as (G1 & G2 & _).
    rewrite Hb in *. cbn [fst snd] in *.
    split; [split; [intros _; tauto | reflexivity]|].
    split; [reflexivity|].
    split; [intros Hx; exfalso; destruct Ha as [Ha|Ha]; destruct Hx as [Hx|Hx];
            rewrite Ha in Hx; discriminate|].
    split; [intros Hx; exfalso; destruct Ha as [Ha|Ha]; destruct Hx as [Hx|Hx];
            rewrite Ha in Hx; discriminate|].
    split; [discriminate|]. split; [reflexivity|].
    split; [exact Hq1|]. split; [exact Hq2|].
    specialize (G2 eq_refl Ha). cbn in G2.
    destruct (handleModeSwitch ToLower TrimSpace input
                {| mode := ModeReadOnly; outputFormat := outputFormat state |})
      as [[st' b'] l']. cbn [fst snd] in *. subst. reflexivity.
  - destruct (Hagain (run.1.1)) as (G1 & _ & G2 & _).
    rewrite Hb in *. cbn [fst snd] in *.
    split; [split; [intros _; tauto | reflexivity]|].
    split; [intros Hx; exfalso; destruct Ha as [Ha|Ha]; destruct Hx as [Hx|Hx];
            rewrite Ha in Hx; discriminate|].
    split; [reflexivity|].
    split; [intros Hx; exfalso; destruct Ha as [Ha|Ha]; destruct Hx as [Hx|Hx];
            rewrite Ha in Hx; discriminate|].
    split; [discriminate|]. split; [reflexivity|].
    split; [exact Hq1|]. split; [exact Hq2|].
    specialize (G2 Ha). cbn in G2.
    destruct (handleModeSwitch ToLower TrimSpace input
                {| mode := ModeInteractive; outputFormat := outputFormat state |})
      as [[st' b'] l']. cbn [fst snd] in *. subst. reflexivity.
  - destruct (Hagain (run.1.1)) as (G1 & _ & _ & G2).
    rewrite Hb in *. cbn [fst snd] in *.
    split; [split; [intros _; tauto | reflexivity]|].
    split; [intros Hx; exfalso; destruct Ha as [Ha|Ha]; destruct Hx as [Hx|Hx];
            rewrite Ha in Hx; discriminate|].
    split; [intros Hx; exfalso; destruct Ha as [Ha|Ha]; destruct Hx as [Hx|Hx];
            rewrite Ha in Hx; discriminate|].
    split; [reflexivity|].
    split; [discriminate|]. split; [reflexivity|].
    split; [exact Hq1|]. split; [exact Hq2|].
    assert (G3 : (handleModeSwitch ToLower TrimSpace input state).1.1 = state)
      by (apply G2; tauto).
    destruct (handleModeSwitch ToLower TrimSpace input state) as [[st' b'] l'].
    cbn [fst snd] in *. subst. reflexivity.
  - destruct (Hagain (run.1.1)) as (G1 & _ & _ & G2).
    rewrite Hb in *. cbn [fst snd] in *.
    split; [split; [discriminate | intros Hx; exfalso; tauto]|].
    split; [intros Hx; exfalso; tauto|].
    split; [intros Hx; exfalso; tauto|].
    split; [reflexivity|].
    split; [reflexivity|]. split; [reflexivity|].
    split; [reflexivity|]. split; [reflexivity|].
    assert (G3 : (handleModeSwitch ToLower TrimSpace input state).1.1 = state)
      by (apply G2; tauto).
    destruct (handleModeSwitch ToLower TrimSpace input state) as [[st' b'] l'].
    cbn [fst snd] in *. subst. reflexivity.
Qed.

(** X22. The mode switch and the tool compose as the modes promise: once
    the input was one of the two read-only commands, the next
    [handleKubectlExec] for a command that is not on the read-only list
    runs nothing, reads nothing and returns an error, whatever mode the
    agent was in before. *)
Theorem X22_readonly_switch_blocks_writes
    (ToLower TrimSpace : string -> string) (w : World) (p : Provider)
    (state : agentState) (input : string) (params : KubectlExecParams) :
  TrimSpace (ToLower input) = "/readonly" \/ TrimSpace (ToLower input) = "/readonly on" ->
  isReadOnlyCommand (kxArgs params) = false ->
  let state' := (handleModeSwitch ToLower TrimSpace input state).1.1 in
  let run := handleKubectlExec ToLower TrimSpace w p state' params in
  runs run.2 = [] /\ reads run.2 = 0%nat /\ run.1.1 = None /\ is_Some run.1.2.
Proof.
  intros Hin Hwrite state' run.
  assert (Hmode : mode state' = ModeReadOnly).
  { subst state'.
    pose proof (handleModeSwitch_cases ToLower TrimSpace input state) as H.
    cbv zeta in H.
    destruct H as [[_ Hb] | [[Ha _] | [[Ha _] | (N1 & N2 & _)]]].
    - rewrite Hb. reflexivity.
    - exfalso. destruct Ha as [Ha|Ha]; destruct Hin as [Hi|Hi];
        rewrite Ha in Hi; discriminate.
    - exfalso. destruct Ha as [Ha|Ha]; destruct Hin as [Hi|Hi];
        rewrite Ha in Hi; discriminate.
    - exfalso. destruct Hin; contradiction. }
  subst run. clearbody state'.
  exec_cases ToLower TrimSpace w p state' params.
  - repeat split; eexists; reflexivity.
  - repeat split; eexists; reflexivity.
  - split; [exact Hruns|]. split; [exact Hreads|]. split; [reflexivity | eexists; reflexivity].
  - rewrite Hmode in Hm. discriminate.
  - rewrite Hmode in Hm. discriminate.
  - exfalso. destruct Hwhy as [[Hro _] | [(_ & Hm & _) | (_ & Hm & _)]].
    + rewrite Hro in Hwrite. discriminate.
    + rewrite Hmode in Hm. discriminate.
    + contradiction.
Qed.

Lemma X22_readonly_switch_witness :
  runs (handleKubectlExec asciiToLower asciiTrimSpace sampleWorld sampleProvider
          (handleModeSwitch asciiToLower asciiTrimSpace " /ReadOnly "
             {| mode := ModeInteractive; outputFormat := OutputText |}).1.1
          {| kxContext := "prod"; kxArgs := ["delete"; "pod"; "web"] |}).2 = [].
Proof.
  refine (proj1 (X22_readonly_switch_blocks_writes asciiToLower asciiTrimSpace
            sampleWorld sampleProvider
            {| mode := ModeInteractive; outputFormat := OutputText |} " /ReadOnly "
            {| kxContext := "prod"; kxArgs := ["delete"; "pod"; "web"] |} _ _)).
  - left. reflexivity.
  - reflexivity.
Defined.

(** ** The argument sanitizer *)

Import Validation.

Lemma sanitizeLoop_acc (args : list string) :
  forall (skipNext : bool) (sanitized : list string),
    sanitizeLoop args skipNext sanitized = sanitized ++ sanitizeLoop args skipNext [].
Proof.
  induction args as [|arg rest IH]; intros skipNext sanitized; cbn [sanitizeLoop].
  - rewrite app_nil_r. reflexivity.
  - destruct skipNext; [apply IH|].
    destruct (isCredentialAssignment arg); [apply IH|].
    destruct (isCredentialFlag arg); [apply IH|].
    destruct (isWatchFlag arg); [apply IH|].
    rewrite (IH false (sanitized ++ [arg])), (IH false ([] ++ [arg])), <- app_assoc.
    reflexivity.
Qed.

Lemma sanitizeLoop_sublist (args : list string) :
  forall skipNext : bool,
    sublist (sanitizeLoop args skipNext []) args
    /\ Forall (fun arg => clean arg = true) (sanitizeLoop args skipNext []).
Proof.
  induction args as [|arg rest IH]; intros skipNext; cbn [sanitizeLoop].
  - split; constructor.
  - destruct skipNext.
    { destruct (IH false) as [H1 H2]. split; [apply sublist_cons, H1 | exact H2]. }
    unfold clean.
    destruct (isCredentialAssignment arg) eqn:E1.
    { destruct (IH false) as [H1 H2]. split; [apply sublist_cons, H1 | exact H2]. }
    destruct (isCredentialFlag arg) eqn:E2.
    { destruct (IH true) as [H1 H2]. split; [apply sublist_cons, H1 | exact H2]. }
    destruct (isWatchFlag arg) eqn:E3.
    { destruct (IH false) as [H1 H2]. split; [apply sublist_cons, H1 | exact H2]. }
    destruct (IH false) as [H1 H2].
    rewrite sanitizeLoop_acc. cbn [app]. split.
    + apply sublist_skip, H1.
    + constructor; [rewrite E1, E2, E3; reflexivity | exact H2].
Qed.

Lemma sanitize_clean_prefix (pre : list string) :
  Forall (fun arg => clean arg = true) pre ->
  forall rest : list string,
    sanitizeLoop (pre ++ rest) false [] = pre ++ sanitizeLoop rest false [].
Proof.
  induction 1 as [|arg pre Harg _ IH]; intros rest; [reflexivity|].
  cbn [app sanitizeLoop]. unfold clean in Harg.
  apply andb_true_iff in Harg as [Harg H3]. apply andb_true_iff in Harg as [H1 H2].
  apply negb_true_iff in H1, H2, H3. rewrite H1, H2, H3.
  rewrite sanitizeLoop_acc, IH. reflexivity.
Qed.

Lemma flag_not_assignment (flag : string) :
  isCredentialFlag flag = true -> isCredentialAssignment flag = false.
Proof.
  unfold isCredentialFlag. intros H.
  repeat (apply orb_true_iff in H as [H|H]); apply String.eqb_eq in H; subst; reflexivity.
Qed.

(** X23. [sanitizeKubectlArgs] only ever removes arguments: what it
    returns is a subsequence of what it was given, and none of the
    arguments it returns is a credential flag, a credential assignment or
    a watch flag.  Arguments with none of these come back unchanged, so
    sanitizing twice is the same as sanitizing once; and after clean
    arguments a credential flag is removed together with the argument that
    follows it, whatever that argument is. *)
Theorem X23_sanitizeKubectlArgs (args pre rest : list string) (flag value : string) :
  sublist (sanitizeKubectlArgs args) args
  /\ Forall (fun arg => clean arg = true) (sanitizeKubectlArgs args)
  /\ (Forall (fun arg => clean arg = true) args -> sanitizeKubectlArgs args = args)
  /\ sanitizeKubectlArgs (sanitizeKubectlArgs args) = sanitizeKubectlArgs args
  /\ (Forall (fun arg => clean arg = true) pre -> isCredentialFlag flag = true ->
      sanitizeKubectlArgs (pre ++ flag :: value :: rest) = pre ++ sanitizeKubectlArgs rest).
Proof.
  unfold sanitizeKubectlArgs.
  destruct (sanitizeLoop_sublist args false) as [H1 H2].
  assert (H3 : forall l, Forall (fun arg => clean arg = true) l ->
                         sanitizeLoop l false [] = l).
  { intros l Hl. pose proof (sanitize_clean_prefix l Hl []) as H.
    cbn [sanitizeLoop] in H. rewrite !app_nil_r in H. exact H. }
  split; [exact H1|]. split; [exact H2|]. split; [apply H3|].
  split; [apply H3, H2|].
  intros Hpre Hflag. rewrite (sanitize_clean_prefix pre Hpre).
  cbn [sanitizeLoop]. rewrite (flag_not_assignment flag Hflag), Hflag. reflexivity.
Qed.

(** ** The [check_all_clusters] tool *)

Import CheckAll.

Lemma mapM_slots {A} (slots : list (option A)) :
  (forall i, (i < length slots)%nat -> exists x, slots !! i = Some (Some x)) ->
  exists l,
    mapM id slots = Some l
    /\ length l = length slots
    /\ forall i x, slots !! i = Some (Some x) -> l !! i = Some x.
Proof.
  intros Hfull.
  assert (Hall : is_Some (mapM id slots)).
  { apply mapM_is_Some. apply Forall_lookup. intros i x Hix.
    destruct (Hfull i) as [y Hy]; [eapply lookup_lt_Some; eassumption|].
    rewrite Hy in Hix. injection Hix as <-. eexists. reflexivity. }
  destruct Hall as [l Hl]. exists l. split; [exact Hl|].
  apply mapM_Some in Hl.
  split; [symmetry; eapply Forall2_length; eassumption|].
  intros i x Hix. destruct (Forall2_lookup_l _ _ _ _ _ Hl Hix) as (y & Hy & Hid).
  cbn in Hid. injection Hid as <-. exact Hy.
Qed.

(** X24. [check_all_clusters] on top of [GetAllClusterStatuses]: once
    every goroutine has run, no slot is nil, so the analyzer always gets a
    status to read; the JSON result lists one status per configured
    context, its total is the number of configured contexts, its reachable
    and fully-healthy counts are the numbers of such statuses in the list
    (fully healthy at most reachable, reachable at most the total), and
    its issues are those of the listed statuses in order.  For a provider
    produced by the exported operations the statuses come in the order in
    which the listing of this call visited the contexts, each the status
    that [GetClusterStatus] returns for its context; so every configured
    context is reported once, in an order that may differ from call to
    call. *)
Theorem X24_check_all_clusters (order : list string) (sched : list nat)
    (envs : nat -> Env) (p : Provider) :
  visits order p ->
  sched ≡ₚ seq 0 (length order) ->
  Z.of_nat (size (clusters p)) <= Go.maxInt64 ->
  exists reachableCount healthyCount unhealthyPods statuses,
    (checkAllClusters order sched envs p OutputJSON).2
    = Some (CheckAllJSON (Z.of_nat (size (clusters p))) reachableCount healthyCount
              unhealthyPods (flat_map issuesOf statuses) statuses)
    /\ length statuses = size (clusters p)
    /\ reachableCount = Z.of_nat (length (List.filter reachable statuses))
    /\ healthyCount = Z.of_nat (length (List.filter fullyHealthy statuses))
    /\ 0 <= healthyCount <= reachableCount
    /\ reachableCount <= Z.of_nat (size (clusters p))
    /\ (Reach anyVersion p ->
        map (fun st => Context (Info st)) statuses = order
        /\ (map (fun st => Context (Info st)) statuses
            ≡ₚ (map_to_list (clusters p)).*1)
        /\ forall i k, order !! i = Some k ->
             (Ok <$> statuses !! i)
             = Some (GetClusterStatus (envs i) p Go.Background k start).1.2).
Proof.
  intros Hv Hperm Hmax.
  destruct (visits_spec order p Hv) as (Hnd & Hsize & Hin).
  destruct (GetClustersIn_spec order p Hv) as [Hlen Hlook].
  set (entries := GetClustersIn order p) in *.
  set (slots := (GetAllClusterStatusesIn order sched envs p Go.Background).2).
  assert (Hslots : length slots = length order).
  { subst slots.
    change ((GetAllClusterStatusesIn order sched envs p Go.Background).2)
      with (foldl (turn entries envs Go.Background)
              (p, replicate (length entries) None) sched).2.
    rewrite turns_length. cbn [snd]. rewrite length_replicate. exact Hlen. }
  assert (Hfull : forall i, (i < length slots)%nat -> exists x, slots !! i = Some (Some x)).
  { intros i Hi. rewrite Hslots in Hi.
    destruct (lookup_lt_is_Some_2 order i Hi) as [k Hk].
    destruct (proj1 (Hin k) (list_elem_of_lookup_2 _ _ _ Hk)) as [c Hc].
    assert (Hic : entries !! i = Some c) by (rewrite (Hlook i k Hk); exact Hc).
    destruct (sched_split sched (length order) i Hperm) as [Hex Hsplit].
    destruct (Hex Hi) as (pre & post & Hs). destruct (Hsplit pre post Hs) as [_ Hpost].
    eexists. subst slots.
    change ((GetAllClusterStatusesIn order sched envs p Go.Background).2)
      with (foldl (turn entries envs Go.Background)
              (p, replicate (length entries) None) sched).2.
    rewrite Hs. apply (slot_pinned entries envs Go.Background pre post i c _ Hpost Hic).
    cbn [snd]. rewrite length_replicate, Hlen. exact Hi. }
  destruct (mapM_slots slots Hfull) as (statuses & Hst & Hlst & Hget).
  assert (Hstlen : length statuses = size (clusters p)) by (rewrite Hlst, Hslots; exact Hsize).
  pose proof (analyze_issues_from statuses
                {| Agent.reachableCount := 0; Agent.healthyCount := 0;
                   Agent.totalUnhealthyPods := 0; Agent.issues := [] |}) as Hissues.
  destruct (analyze_counts_from statuses
              {| Agent.reachableCount := 0; Agent.healthyCount := 0;
                 Agent.totalUnhealthyPods := 0; Agent.issues := [] |})
    as [Hr Hh]; cbn [Agent.reachableCount Agent.healthyCount]; try lia.
  cbv zeta in Hr, Hh. cbn [Agent.reachableCount Agent.healthyCount Agent.issues app] in *.
  fold (Agent.analyzeClusterHealth statuses) in Hr, Hh, Hissues.
  exists (Agent.reachableCount (Agent.analyzeClusterHealth statuses)),
         (Agent.healthyCount (Agent.analyzeClusterHealth statuses)),
         (Agent.totalUnhealthyPods (Agent.analyzeClusterHealth statuses)), statuses.
  split.
  { unfold checkAllClusters. fold slots.
    destruct (GetAllClusterStatusesIn order sched envs p Go.Background) as [p' slots'].
    cbn [snd] in slots. subst slots. rewrite Hst.
    change (isJSONOutput OutputJSON) with true.
    cbn [snd]. rewrite Hissues, Hstlen. reflexivity. }
  split; [exact Hstlen|].
  split; [rewrite Hr; lia|]. split; [rewrite Hh; lia|].
  pose proof (filter_length_le_impl fullyHealthy reachable statuses) as Hle.
  pose proof (length_filter_le reachable statuses) as Hle2.
  assert (Hfr : forall st, fullyHealthy st = true -> reachable st = true).
  { intros st. unfold fullyHealthy. intros H.
    apply andb_true_iff in H as [H _]. apply andb_true_iff in H as [H _].
    apply andb_true_iff in H as [H _]. exact H. }
  specialize (Hle Hfr).
  split; [rewrite Hr, Hh; lia|]. split; [rewrite Hr; lia|].
  intros HR. pose proof (Reach_wf anyVersion p HR) as Hwf.
  assert (Hat : forall i k, order !! i = Some k ->
                  exists st, (GetClusterStatus (envs i) p Go.Background k start).1.2 = Ok st
                             /\ statuses !! i = Some st /\ Context (Info st) = k).
  { intros i k Hk.
    destruct (slot_of_wf anyVersion order sched envs p Go.Background i k Hwf Hv Hperm Hk)
      as (st & Hrun & Hslot & Hctx).
    exists st. split; [exact Hrun|]. split; [apply Hget; exact Hslot | exact Hctx]. }
  assert (Hctxs : map (fun st => Context (Info st)) statuses = order).
  { apply list_eq. intros i.
    change (map (fun st => Context (Info st)) statuses)
      with ((fun st => Context (Info st)) <$> statuses).
    rewrite list_lookup_fmap.
    destruct (order !! i) as [k|] eqn:Hk.
    - destruct (Hat i k Hk) as (st & _ & Hs & Hc). rewrite Hs. cbn. rewrite Hc. reflexivity.
    - apply lookup_ge_None in Hk. rewrite <- Hslots, <- Hlst in Hk.
      apply lookup_ge_None in Hk. rewrite Hk. reflexivity. }
  split; [exact Hctxs|]. split; [rewrite Hctxs; exact Hv|].
  intros i k Hk. destruct (Hat i k Hk) as (st & Hrun & Hs & _).
  rewrite Hs, Hrun. reflexivity.
Qed.

Lemma X24_check_all_clusters_witness :
  exists reachableCount healthyCount unhealthyPods statuses,
    (checkAllClusters ["dev"; "prod"] [1%nat; 0%nat] sampleEnvs sampleProvider
       OutputJSON).2
    = Some (CheckAllJSON 2 reachableCount healthyCount unhealthyPods
              (flat_map issuesOf statuses) statuses)
    /\ length statuses = 2%nat.
Proof.
  destruct (X24_check_all_clusters ["dev"; "prod"] [1%nat; 0%nat] sampleEnvs
              sampleProvider)
    as (r & h & u & statuses & H1 & H2 & _).
  - unfold visits. vm_compute. first [apply Permutation_refl | apply perm_swap].
  - vm_compute. apply perm_swap.
  - vm_compute. discriminate.
  - exists r, h, u, statuses. split; [exact H1 | exact H2].
Defined.
